(** * kosovari: XP ledger, notification bus, session store and entity stores

    A shallow embedding of the client-side core of the application:
    - [src/lib/services/auth.ts]: the level computation, the two
      listener channels, [signUp] and [updateUserXP];
    - [src/store/issues.ts]: [fetchIssues] and [updateIssueStatus];
    - [src/components/LikeButton.tsx] and
      [src/components/IssueDetailModal.tsx]: the two [handleLike] handlers.

    Numbers are integers ([Z]), which is what the source's doubles hold
    as long as magnitudes stay within [Ledger.MAX_SAFE_INTEGER]; the
    hosted backend is an oracle whose
    responses are arguments of the embedded functions; a rejected promise
    or a thrown exception is the [Throw] outcome. *)

From Stdlib Require Import ZArith Lia List Sorted.
From Stdlib Require QArith.
From stdpp Require Import gmap strings list.

Local Open Scope Z_scope.

(** ** Values shared by the modules *)

(** A thrown JavaScript value or a backend error object; only its
    [message] is ever read.  A missing message is the empty string: both
    are falsy for [||].  The one place that prints a message into a
    template instead, the error text of [Auth.signUp], is followed for
    error objects that carry a message, as the backend's error type
    declares; for one without, the source prints the word undefined
    there. *)
Record JsError := { message : string }.

(** [s || d] on strings. *)
Definition orElse (s d : string) : string :=
  match s with
  | EmptyString => d
  | _ => s
  end.

(** The result of running a piece of code on a state [S]: normal
    completion, an exception (the state reached so far is kept), or a loop
    that did not finish within the fuel it was given. *)
Inductive Outcome (S A : Type) : Type :=
| Ret (a : A) (s : S)
| Throw (e : JsError) (s : S)
| OutOfFuel.
Arguments Ret {S A} a s.
Arguments Throw {S A} e s.
Arguments OutOfFuel {S A}.

(** The state a run ended in, if it ended. *)
Definition stateOf {S A : Type} (o : Outcome S A) : option S :=
  match o with
  | Ret _ s => Some s
  | Throw _ s => Some s
  | OutOfFuel => None
  end.

(** What [await] hands back for a backend call: the client resolves with
    [{ data, error }], or the promise rejects. *)
Record Response (D : Type) := { data : option D; error : option JsError }.
Arguments data {D} _.
Arguments error {D} _.

Inductive Await (A : Type) : Type :=
| Settled (a : A)
| Raised (e : JsError).
Arguments Settled {A} a.
Arguments Raised {A} e.

(** How an awaited backend call can fail: the promise rejects, or the
    response carries an [error], which the code checks and throws. *)
Definition failureOf {D : Type} (a : Await (Response D)) : option JsError :=
  match a with
  | Settled r => error r
  | Raised e => Some e
  end.

Definition payloadOf {D : Type} (a : Await (Response D)) : option D :=
  match a with
  | Settled r => data r
  | Raised _ => None
  end.

Inductive Role := citizen | institution | admin.

#[global] Instance Role_eq_dec : EqDecision Role.
Proof. solve_decision. Defined.

Record User := {
  perdorues_id : Z;
  emri : string;
  email : string;
  roli : Role;
  leveli : Z;
  pike_eksperience : Z;
  auth_id : option string;
  profile_pic_url : option string;
  krijuar_me : option string;
}.

(** ** XP ledger *)

Module Ledger.

(** [Number.MAX_SAFE_INTEGER].  JavaScript numbers are IEEE 754 doubles:
    on integers of magnitude at most 2^53 - 1 the quotient by 50 is
    rounded by less than 1/50, so its floor is the integer floor, and the
    sums, products and differences below are exact.  On that range the
    two functions of this module compute what the source computes; beyond
    it the source rounds (at 10^18 the source's [getXPToNextLevel] is 0)
    and the model does not follow it. *)
Definition MAX_SAFE_INTEGER : Z := 2 ^ 53 - 1.

(** [Math.floor(xp / 50) + 1]; on integers [Z.div] is the floor. *)
Definition calculateLevel (xp : Z) : Z := xp / 50 + 1.

Definition getXPToNextLevel (xp : Z) : Z :=
  let nextLevel := calculateLevel xp + 1 in
  let nextLevelXP := (nextLevel - 1) * 50 in
  nextLevelXP - xp.

End Ledger.

(** ** Notification bus and session store ([auth.ts]) *)

Module Auth.
Import Ledger.

Definition MOTIVATIONAL_QUOTES : list string :=
  [ "Keep going, you're doing great!";
    "Every interaction counts!";
    "Level up your impact!";
    "The more you engage, the more you grow!";
    "Small steps, big progress!";
    "Your actions make a difference!" ]%string.

(** [r] is the index [Math.floor(Math.random() * MOTIVATIONAL_QUOTES.length)]
    drawn by the environment; it is always below the length. *)
Definition getRandomQuote (r : nat) : string :=
  default ""%string (MOTIVATIONAL_QUOTES !! r).

Inductive Channel := LevelUp | XPChange.

#[global] Instance Channel_eq_dec : EqDecision Channel.
Proof. solve_decision. Defined.

(** A listener is a function object, compared by reference ([l !== listener]);
    [ListenerId] is that reference.  Array objects live at locations. *)
Definition ListenerId := nat.
Definition loc := nat.

(** The row [signUp] inserts into [perdoruesit]. *)
Record PerdoruesitInsert := {
  ins_emri : string;
  ins_email : string;
  ins_password_hash : string;
  ins_roli : Role;
  ins_leveli : Z;
  ins_pike_eksperience : Z;
  ins_krijuar_me : string;
}.

(** What the module does that can be observed from outside: a call of
    [notifyLevelUp]/[notifyXPChange], a call of one listener, and the rows
    the backend accepted. *)
Inductive Event :=
| Published (ch : Channel) (value : Z) (quote : string)
| Invoked (ch : Channel) (l : ListenerId) (value : Z) (quote : string)
| DbInsertUser (row : PerdoruesitInsert)
| DbUpdateUser (userId : Z) (new_pike_eksperience : Z) (new_leveli : Z).

(** Module-level variables of [auth.ts] and the state of the store.
    [levelUpListeners] and [xpChangeListeners] are references into [arrays]:
    [push] changes the array object in place, [filter] builds a new one. *)
Record World := {
  user : option User;
  loading : bool;
  storeError : option string;
  lastCongratulatedLevel : gmap Z Z;
  arrays : gmap loc (list ListenerId);
  nextLoc : loc;
  levelUpListeners : loc;
  xpChangeListeners : loc;
  trace : list Event;
}.

(** The state right after the module is loaded. *)
Definition initial : World :=
  {| user := None; loading := true; storeError := None;
     lastCongratulatedLevel := ∅;
     arrays := <[1%nat := []]> (<[0%nat := []]> ∅);
     nextLoc := 2%nat;
     levelUpListeners := 0%nat; xpChangeListeners := 1%nat;
     trace := [] |}.

Definition set_user (u : option User) (w : World) : World :=
  {| user := u; loading := loading w; storeError := storeError w;
     lastCongratulatedLevel := lastCongratulatedLevel w;
     arrays := arrays w; nextLoc := nextLoc w;
     levelUpListeners := levelUpListeners w;
     xpChangeListeners := xpChangeListeners w; trace := trace w |}.

Definition set_lastCongratulatedLevel (m : gmap Z Z) (w : World) : World :=
  {| user := user w; loading := loading w; storeError := storeError w;
     lastCongratulatedLevel := m;
     arrays := arrays w; nextLoc := nextLoc w;
     levelUpListeners := levelUpListeners w;
     xpChangeListeners := xpChangeListeners w; trace := trace w |}.

Definition set_arrays (a : gmap loc (list ListenerId)) (w : World) : World :=
  {| user := user w; loading := loading w; storeError := storeError w;
     lastCongratulatedLevel := lastCongratulatedLevel w;
     arrays := a; nextLoc := nextLoc w;
     levelUpListeners := levelUpListeners w;
     xpChangeListeners := xpChangeListeners w; trace := trace w |}.

Definition set_nextLoc (n : loc) (w : World) : World :=
  {| user := user w; loading := loading w; storeError := storeError w;
     lastCongratulatedLevel := lastCongratulatedLevel w;
     arrays := arrays w; nextLoc := n;
     levelUpListeners := levelUpListeners w;
     xpChangeListeners := xpChangeListeners w; trace := trace w |}.

Definition emit (e : Event) (w : World) : World :=
  {| user := user w; loading := loading w; storeError := storeError w;
     lastCongratulatedLevel := lastCongratulatedLevel w;
     arrays := arrays w; nextLoc := nextLoc w;
     levelUpListeners := levelUpListeners w;
     xpChangeListeners := xpChangeListeners w; trace := trace w ++ [e] |}.

Definition chanRef (ch : Channel) (w : World) : loc :=
  match ch with
  | LevelUp => levelUpListeners w
  | XPChange => xpChangeListeners w
  end.

Definition setChanRef (ch : Channel) (r : loc) (w : World) : World :=
  {| user := user w; loading := loading w; storeError := storeError w;
     lastCongratulatedLevel := lastCongratulatedLevel w;
     arrays := arrays w; nextLoc := nextLoc w;
     levelUpListeners :=
       match ch with LevelUp => r | XPChange => levelUpListeners w end;
     xpChangeListeners :=
       match ch with LevelUp => xpChangeListeners w | XPChange => r end;
     trace := trace w |}.

Definition readArray (r : loc) (w : World) : list ListenerId :=
  default [] (arrays w !! r).

(** The listeners currently registered on a channel. *)
Definition listenersOf (ch : Channel) (w : World) : list ListenerId :=
  readArray (chanRef ch w) w.

(** [array.push(listener)]: the object at [r] grows in place. *)
Definition push (r : loc) (listener : ListenerId) (w : World) : World :=
  set_arrays (<[r := readArray r w ++ [listener]]> (arrays w)) w.

(** [subscribeToLevelUp] / [subscribeToXPChange]: the push.  The closure
    they return is [unsubscribe] below for the same channel and listener. *)
Definition subscribe (ch : Channel) (listener : ListenerId) (w : World)
  : World :=
  push (chanRef ch w) listener w.

(** The returned closure:
    [levelUpListeners = levelUpListeners.filter(l => l !== listener)].
    [filter] allocates a new array and the variable is re-pointed to it. *)
Definition unsubscribe (ch : Channel) (listener : ListenerId) (w : World)
  : World :=
  let fresh := nextLoc w in
  let kept := filter (fun l => l ≠ listener) (listenersOf ch w) in
  setChanRef ch fresh
    (set_nextLoc (S fresh) (set_arrays (<[fresh := kept]> (arrays w)) w)).

Definition subscribeToLevelUp := subscribe LevelUp.
Definition subscribeToXPChange := subscribe XPChange.

(** What the body of a listener may do to this module while it runs:
    register a listener, call an unsubscribe closure, or throw. *)
Inductive Action :=
| ASubscribe (ch : Channel) (listener : ListenerId)
| AUnsubscribe (ch : Channel) (listener : ListenerId)
| AThrow (e : JsError).

Fixpoint runActions (acts : list Action) (w : World) : Outcome World unit :=
  match acts with
  | [] => Ret tt w
  | ASubscribe ch l :: rest => runActions rest (subscribe ch l w)
  | AUnsubscribe ch l :: rest => runActions rest (unsubscribe ch l w)
  | AThrow e :: _ => Throw e w
  end.

(** The response to
    [from('perdoruesit').select('pike_eksperience').eq(...).single()]:
    [data] may be null, and so may the column. *)
Record XPResponses := {
  selectResp : Await (Response (option Z));
  updateResp : Await (Response unit);
  rndLevelUp : nat;
  rndXPChange : nat;
}.

(** [data?.pike_eksperience || 0] *)
Definition currentXPOf (r : Await (Response (option Z))) : Z :=
  match payloadOf r with
  | Some (Some xp) => xp
  | _ => 0
  end.

(** [profileData.x || null] on an optional string. *)
Definition orNull (o : option string) : option string :=
  match o with
  | Some EmptyString => None
  | _ => o
  end.

(** [{ ...user, pike_eksperience: newXP, leveli: newLevel }] *)
Definition withXP (newXP newLevel : Z) (u : User) : User :=
  {| perdorues_id := perdorues_id u; emri := emri u; email := email u;
     roli := roli u; leveli := newLevel; pike_eksperience := newXP;
     auth_id := auth_id u; profile_pic_url := profile_pic_url u;
     krijuar_me := krijuar_me u |}.

Section WithListeners.

(** The bodies of the listener functions: what listener [l] does when it
    is called with [(value, quote)]. *)
Variable code : ListenerId -> Z -> string -> list Action.

Definition callListener (ch : Channel) (value : Z) (quote : string)
    (l : ListenerId) (w : World) : Outcome World unit :=
  runActions (code l value quote) (emit (Invoked ch l value quote) w).

(** [for (const listener of array) body]: the array iterator reads the
    array object at [r] afresh at every step and stops when the index
    reaches its current length. *)
Fixpoint forOf (fuel : nat) (r : loc) (i : nat)
    (body : ListenerId -> World -> Outcome World unit) (w : World)
  : Outcome World unit :=
  match fuel with
  | O => OutOfFuel
  | S fuel' =>
      match readArray r w !! i with
      | None => Ret tt w
      | Some l =>
          match body l w with
          | Ret _ w' => forOf fuel' r (S i) body w'
          | Throw e w' => Throw e w'
          | OutOfFuel => OutOfFuel
          end
      end
  end.

(** [notifyLevelUp] and [notifyXPChange] differ in the channel only. *)
Definition notify (fuel : nat) (ch : Channel) (value : Z) (rnd : nat)
    (w : World) : Outcome World unit :=
  let quote := getRandomQuote rnd in
  forOf fuel (chanRef ch w) 0 (callListener ch value quote)
    (emit (Published ch value quote) w).

Definition notifyLevelUp (fuel : nat) (level : Z) := notify fuel LevelUp level.
Definition notifyXPChange (fuel : nat) (xp : Z) := notify fuel XPChange xp.

Definition updateUserXP (fuel : nat) (userId deltaXP : Z) (r : XPResponses)
    (w : World) : Outcome World unit :=
  match failureOf (selectResp r) with
  | Some e => Throw e w
  | None =>
      let currentXP := currentXPOf (selectResp r) in
      let newXP := currentXP + deltaXP in
      let newLevel := calculateLevel newXP in
      match failureOf (updateResp r) with
      | Some updateError => Throw updateError w
      | None =>
          let w1 := emit (DbUpdateUser userId newXP newLevel) w in
          match user w1 with
          | Some u =>
              if decide (perdorues_id u = userId) then
                let congratulate :=
                  if decide (default (leveli u)
                               (lastCongratulatedLevel w1 !! userId)
                             < newLevel)
                  then
                    notifyLevelUp fuel newLevel (rndLevelUp r)
                      (set_lastCongratulatedLevel
                         (<[userId := newLevel]> (lastCongratulatedLevel w1))
                         w1)
                  else Ret tt w1 in
                match congratulate with
                | Ret _ w2 =>
                    notifyXPChange fuel newXP (rndXPChange r)
                      (set_user (Some (withXP newXP newLevel u)) w2)
                | Throw e w2 => Throw e w2
                | OutOfFuel => OutOfFuel
                end
              else Ret tt w1
          | None => Ret tt w1
          end
      end
  end.

End WithListeners.

(** The row of [signUp]'s insert; [hashedPassword] is what [bcrypt.hash]
    returned and [now] is [new Date().toISOString()]. *)
Definition signUpRow (email hashedPassword emri : string) (roli : Role)
    (now : string) : PerdoruesitInsert :=
  {| ins_emri := emri; ins_email := email;
     ins_password_hash := hashedPassword; ins_roli := roli;
     ins_leveli := 0; ins_pike_eksperience := 0; ins_krijuar_me := now |}.

(** The [User] object [signUp] builds from the returned row. *)
Definition userOfProfile (profileData : User) : User :=
  {| perdorues_id := perdorues_id profileData;
     emri := emri profileData;
     email := email profileData;
     roli := roli profileData;
     leveli := leveli profileData;
     pike_eksperience := pike_eksperience profileData;
     auth_id := None;
     profile_pic_url := orNull (profile_pic_url profileData);
     krijuar_me := orNull (krijuar_me profileData) |}.

(** [signUp]; [resp] is the answer to [insert(...).select().single()], the
    row as the backend stored it. *)
Definition signUp (email hashedPassword emri : string) (roli : Role)
    (now : string) (resp : Await (Response User)) (w : World)
  : Outcome World (option User) :=
  match resp with
  | Raised e => Throw e w
  | Settled r =>
  match error r with
  | Some profileError =>
      Throw {| message := "Failed to create user profile: "
                          +:+ message profileError |} w
  | None =>
      let w1 := emit (DbInsertUser (signUpRow email hashedPassword emri roli now)) w in
      let newUser := userOfProfile <$> data r in
      Ret newUser (set_user newUser w1)
  end
  end.

(** A run of awards for one identity, each with the backend's answers. *)
Fixpoint awardAll (code : ListenerId -> Z -> string -> list Action)
    (fuel : nat) (userId : Z) (awards : list (Z * XPResponses)) (w : World)
  : Outcome World unit :=
  match awards with
  | [] => Ret tt w
  | (deltaXP, r) :: rest =>
      match updateUserXP code fuel userId deltaXP r w with
      | Ret _ w' => awardAll code fuel userId rest w'
      | Throw e w' => Throw e w'
      | OutOfFuel => OutOfFuel
      end
  end.

(** The two channel variables point to two different allocated arrays. *)
Definition wf (w : World) : Prop :=
  (levelUpListeners w < nextLoc w)%nat
  /\ (xpChangeListeners w < nextLoc w)%nat
  /\ levelUpListeners w <> xpChangeListeners w.

Definition otherChannel (ch : Channel) : Channel :=
  match ch with LevelUp => XPChange | XPChange => LevelUp end.

(** While a [for...of] walks the array at [r0] that was the array of
    [ch] when the loop started: [r0] is allocated, and the variable of
    the other channel points elsewhere. *)
Definition iterating (r0 : loc) (ch : Channel) (w : World) : Prop :=
  (r0 < nextLoc w)%nat
  /\ (chanRef ch w < nextLoc w)%nat
  /\ (chanRef (otherChannel ch) w < nextLoc w)%nat
  /\ chanRef (otherChannel ch) w <> r0
  /\ chanRef ch w <> chanRef (otherChannel ch) w.

Definition isThrow (a : Action) : bool :=
  match a with AThrow _ => true | _ => false end.

Definition subscribesOn (ch : Channel) (a : Action) : bool :=
  match a with ASubscribe ch' _ => bool_decide (ch' = ch) | _ => false end.

Definition unsubscribesOn (ch : Channel) (a : Action) : bool :=
  match a with AUnsubscribe ch' _ => bool_decide (ch' = ch) | _ => false end.

(** A body that does not throw. *)
Definition noThrow (acts : list Action) : bool :=
  forallb (fun a => negb (isThrow a)) acts.

(** A body that registers no listener on [ch]. *)
Definition noSubscribe (ch : Channel) (acts : list Action) : bool :=
  forallb (fun a => negb (subscribesOn ch a)) acts.

(** A body that neither throws nor registers a listener on [ch]. *)
Definition quiet (ch : Channel) (acts : list Action) : bool :=
  noThrow acts && noSubscribe ch acts.

(** A body that does not call an unsubscribe closure of [ch]. *)
Definition keepsArray (ch : Channel) (acts : list Action) : bool :=
  forallb (fun a => negb (unsubscribesOn ch a)) acts.

(** The values carried by the publications on a channel, oldest first. *)
Definition published (ch : Channel) (t : list Event) : list Z :=
  omap (fun e => match e with
                 | Published ch' v _ => if decide (ch' = ch) then Some v else None
                 | _ => None
                 end) t.

(** The listeners called for a channel, oldest first. *)
Definition invoked (ch : Channel) (t : list Event) : list ListenerId :=
  omap (fun e => match e with
                 | Invoked ch' l _ _ => if decide (ch' = ch) then Some l else None
                 | _ => None
                 end) t.

(** The [(leveli, pike_eksperience)] pairs of the rows written. *)
Definition writtenLevels (t : list Event) : list (Z * Z) :=
  omap (fun e => match e with
                 | DbInsertUser row => Some (ins_leveli row, ins_pike_eksperience row)
                 | DbUpdateUser _ xp lvl => Some (lvl, xp)
                 | _ => None
                 end) t.

End Auth.

(** ** Issue store ([store/issues.ts]) *)

Module Issues.

Inductive IssueCategory :=
  traffic | environment | economy | living | damage | heritage.

Inductive Status := open | in_progress | resolved.

(** Coordinates are carried around and never computed with. *)
Definition Coord := QArith_base.Q.

Record Issue := {
  id : string;
  category : IssueCategory;
  description : string;
  latitude : Coord;
  longitude : Coord;
  status : Status;
  user_id : Z;
  created_at : string;
  image_url : option string;
  username : option string;
}.

(** A row of [select('*, perdoruesit:user_id(perdorues_id, emri)')]: the
    issue and the joined author, if any. *)
Record IssueRow := {
  row : Issue;
  perdoruesit : option (Z * string);
}.

(** A row of the audit table [ndryshimet]. *)
Record Ndryshim := {
  n_issue_id : string;
  n_perdorues_id : Z;
  n_action : string;
  old_value : option Status;
  new_value : Status;
  n_created_at : string;
}.

(** The [error] member of a response (the store has an [error] of its own). *)
Definition responseError {D : Type} (r : Response D) : option JsError :=
  error r.

(** The store's state, and next to it the audit rows the backend took. *)
Record Store := {
  issues : list Issue;
  loading : bool;
  error : option string;
  isReportingMode : bool;
  ndryshimet : list Ndryshim;
}.

Definition set_flags (l : bool) (e : option string) (s : Store) : Store :=
  {| issues := issues s; loading := l; error := e;
     isReportingMode := isReportingMode s; ndryshimet := ndryshimet s |}.

Definition set_issues (items : list Issue) (l : bool) (s : Store) : Store :=
  {| issues := items; loading := l; error := error s;
     isReportingMode := isReportingMode s; ndryshimet := ndryshimet s |}.

Definition add_ndryshim (n : Ndryshim) (s : Store) : Store :=
  {| issues := issues s; loading := loading s; error := error s;
     isReportingMode := isReportingMode s;
     ndryshimet := ndryshimet s ++ [n] |}.

(** [{ ...issue, username: issue.perdoruesit?.emri || undefined }] *)
Definition withUsername (r : IssueRow) : Issue :=
  {| id := id (row r); category := category (row r);
     description := description (row r);
     latitude := latitude (row r); longitude := longitude (row r);
     status := status (row r); user_id := user_id (row r);
     created_at := created_at (row r); image_url := image_url (row r);
     username :=
       match perdoruesit r with
       | Some (_, EmptyString) => None
       | Some (_, name) => Some name
       | None => None
       end |}.

(** [{ ...issue, status: newStatus }] *)
Definition withStatus (newStatus : Status) (i : Issue) : Issue :=
  {| id := id i; category := category i; description := description i;
     latitude := latitude i; longitude := longitude i;
     status := newStatus; user_id := user_id i;
     created_at := created_at i; image_url := image_url i;
     username := username i |}.

(** The [catch] block shared by the store's actions:
    [set({ error: error.message || fallback, loading: false })]. *)
Definition recordFailure (e : JsError) (fallback : string) (s : Store)
  : Store :=
  set_flags false (Some (orElse (message e) fallback)) s.

Definition fetchIssues (resp : Await (Response (list IssueRow))) (s : Store)
  : Outcome Store unit :=
  let s1 := set_flags true None s in
  match resp with
  | Settled r =>
      match responseError r with
      | Some e => Ret tt (recordFailure e "Failed to fetch issues" s1)
      | None =>
          let issuesWithUsername := withUsername <$> default [] (data r) in
          Ret tt (set_issues issuesWithUsername false s1)
      end
  | Raised e => Ret tt (recordFailure e "Failed to fetch issues" s1)
  end.

(** [updateIssueStatus]; [authUser] is [useAuthStore.getState().user],
    [now] is [new Date().toISOString()], [updateResp] answers the update
    of [issues] and [auditResp] the insert into [ndryshimet], whose
    [error] the code does not look at. *)
Definition updateIssueStatus (issueId : string) (newStatus : Status)
    (authUser : option User) (now : string)
    (updateResp : Await (Response unit))
    (auditResp : Await (Response unit)) (s : Store) : Outcome Store unit :=
  let s1 := set_flags true None s in
  let oldIssue := List.find (fun issue => bool_decide (id issue = issueId)) (issues s1) in
  let oldStatus := status <$> oldIssue in
  let failed e := Ret tt (recordFailure e "Failed to update issue status" s1) in
  match updateResp with
  | Raised e => failed e
  | Settled r =>
      match responseError r with
      | Some e => failed e
      | None =>
          let s2 :=
            set_issues
              ((fun issue => if bool_decide (id issue = issueId)
                             then withStatus newStatus issue else issue)
                 <$> issues s1)
              false s1 in
          match authUser with
          | Some u =>
              if decide (roli u = institution) then
                let entry :=
                  {| n_issue_id := issueId;
                     n_perdorues_id := perdorues_id u;
                     n_action := "status_update";
                     old_value := oldStatus; new_value := newStatus;
                     n_created_at := now |} in
                match auditResp with
                | Settled a =>
                    match responseError a with
                    | None => Ret tt (add_ndryshim entry s2)
                    | Some _ => Ret tt s2
                    end
                | Raised e =>
                    Ret tt (recordFailure e "Failed to update issue status" s2)
                end
              else Ret tt s2
          | None => Ret tt s2
          end
      end
  end.

End Issues.

(** ** The two like handlers *)

Module Likes.

(** A backend request or a call out of the component, in the order made. *)
Inductive Effect :=
| RpcToggleLike (issue_id : string) (perdorues : Z)
| DeleteLike (issue_id : string) (perdorues : Z)
| InsertLike (issue_id : string) (perdorues : Z)
| CountLikes (issue_id : string)
| AwardXP (userId : Z) (deltaXP : Z)
| OnUpdate (count : Z)
| OnLikeUpdate (issue_id : string) (count : Z)
| ToastError (msg : string).

(** The component state both handlers work on. *)
Record View := {
  likeCount : Z;
  isLiked : bool;
  isLoading : bool;
  effects : list Effect;
}.

Definition setLikeCount (c : Z) (v : View) : View :=
  {| likeCount := c; isLiked := isLiked v; isLoading := isLoading v;
     effects := effects v |}.
Definition setIsLiked (b : bool) (v : View) : View :=
  {| likeCount := likeCount v; isLiked := b; isLoading := isLoading v;
     effects := effects v |}.
Definition setIsLoading (b : bool) (v : View) : View :=
  {| likeCount := likeCount v; isLiked := isLiked v; isLoading := b;
     effects := effects v |}.
Definition perform (e : Effect) (v : View) : View :=
  {| likeCount := likeCount v; isLiked := isLiked v; isLoading := isLoading v;
     effects := effects v ++ [e] |}.

(** One row of what the [toggle_like] procedure returns. *)
Record ToggleRow := { like_count : Z; liked : bool }.

(** The answer to a [select('*', { count: 'exact', head: true })]. *)
Record CountResponse := { count : option Z; countError : option JsError }.

(** [!user?.perdorues_id]: no user, or an id that is falsy. *)
Definition loggedInId (user : option User) : option Z :=
  match user with
  | Some u => if decide (perdorues_id u = 0) then None else Some (perdorues_id u)
  | None => None
  end.

(** [LikeButton.tsx], [handleLike]; [hasOnUpdate] tells whether the
    optional [onUpdate] prop was given. *)
Definition LikeButton_handleLike (issueId : string) (hasOnUpdate : bool)
    (user : option User) (resp : Await (Response (list ToggleRow)))
    (v : View) : Outcome View unit :=
  match loggedInId user with
  | None => Ret tt (perform (ToastError "Please log in to like issues") v)
  | Some uid =>
      let v1 := perform (RpcToggleLike issueId uid) (setIsLoading true v) in
      let failed v' :=
        Ret tt (setIsLoading false
                  (perform (ToastError "Failed to update like. Please try again.") v')) in
      match resp with
      | Raised _ => failed v1
      | Settled r =>
          match error r with
          | Some _ => failed v1
          | None =>
              match data r with
              | Some (first :: _) =>
                  let v2 := setIsLiked (liked first)
                              (setLikeCount (like_count first) v1) in
                  let v3 := if hasOnUpdate
                            then perform (OnUpdate (like_count first)) v2
                            else v2 in
                  Ret tt (setIsLoading false v3)
              | _ => Ret tt (setIsLoading false v1)
              end
          end
      end
  end.

Section Modal.

(** [toUUID] of the modal: string formatting of the issue id. *)
Variable toUUID : string -> string.

(** [IssueDetailModal.tsx], [handleLike]; [mutationResp] answers the
    delete or the insert, [xpResp] is the outcome of [updateUserXP] and
    [countResp] answers the count query. *)
Definition IssueDetailModal_handleLike (issue_id : string)
    (hasOnLikeUpdate : bool) (user : option User)
    (mutationResp : Await (Response unit)) (xpResp : Await unit)
    (countResp : Await CountResponse) (v : View) : Outcome View unit :=
  match loggedInId user with
  | None => Ret tt v
  | Some uid =>
      let issueId := toUUID issue_id in
      let failed (e : JsError) v' :=
        Ret tt (setIsLoading false
                  (perform (ToastError (orElse (message e)
                              "Failed to update like. Please try again.")) v')) in
      let recount v' :=
        let v2 := perform (CountLikes issueId) v' in
        match countResp with
        | Raised e => failed e v2
        | Settled c =>
            match countError c with
            | Some e => failed e v2
            | None =>
                let newCount := default 0 (count c) in
                let v3 := setLikeCount newCount v2 in
                let v4 := if hasOnLikeUpdate
                          then perform (OnLikeUpdate issue_id newCount) v3
                          else v3 in
                Ret tt (setIsLoading false v4)
            end
        end in
      let v1 := setIsLoading true v in
      if isLiked v then
        let v2 := perform (DeleteLike issueId uid) v1 in
        match mutationResp with
        | Raised e => failed e v2
        | Settled r =>
            match error r with
            | Some e => failed e v2
            | None => recount (setIsLiked false v2)
            end
        end
      else
        let v2 := perform (InsertLike issueId uid) v1 in
        match mutationResp with
        | Raised e => failed e v2
        | Settled r =>
            match error r with
            | Some e => failed e v2
            | None =>
                let v3 := perform (AwardXP uid 5) (setIsLiked true v2) in
                match xpResp with
                | Raised e => failed e v3
                | Settled _ => recount v3
                end
            end
        end
  end.

End Modal.

Definition isToggleRpc (e : Effect) : bool :=
  match e with RpcToggleLike _ _ => true | _ => false end.

End Likes.

(** ** Session actions of the store ([auth.ts]) *)

Module Session.
Import Auth.

(** A user of the hosted auth service. *)
Record AuthUser := { au_id : string; au_email : string }.

Record AuthSession := { session_user : option AuthUser }.

(** [{ data: { session }, error }] of [supabase.auth.getSession()]. *)
Record SessionResponse := {
  session : option AuthSession;
  sessionError : option JsError;
}.

(** [{ data: { user }, error }] of [signInWithPassword] and of the auth
    service's [signUp]. *)
Record AuthResponse := {
  authUser : option AuthUser;
  authError : option JsError;
}.

(** A row of [perdoruesit] as [select('*')] returns it. *)
Record PerdoruesRow := { profile : User; password_hash : string }.

(** The requests the session actions send, in the order sent. *)
Inductive Call :=
| SelectByEmail (address : string)
| BcryptCompare (password hash : string)
| ListUsers
| SignInWithPassword (address password : string)
| AuthSignUp (address password : string) (perdorues : Z)
| UpdateAuthId (perdorues : Z) (auth : string)
| AuthSignOut
| AuthGetSession.

Record Client := { world : World; calls : list Call }.

Definition send (c : Call) (cl : Client) : Client :=
  {| world := world cl; calls := calls cl ++ [c] |}.

Definition onWorld (f : World -> World) (cl : Client) : Client :=
  {| world := f (world cl); calls := calls cl |}.

(** [set({ loading, error })] *)
Definition set_loading_error (l : bool) (e : option string) (w : World)
  : World :=
  {| user := user w; loading := l; storeError := e;
     lastCongratulatedLevel := lastCongratulatedLevel w;
     arrays := arrays w; nextLoc := nextLoc w;
     levelUpListeners := levelUpListeners w;
     xpChangeListeners := xpChangeListeners w; trace := trace w |}.

(** [set({ user, loading: false })] *)
Definition set_user_loaded (u : option User) (w : World) : World :=
  {| user := u; loading := false; storeError := storeError w;
     lastCongratulatedLevel := lastCongratulatedLevel w;
     arrays := arrays w; nextLoc := nextLoc w;
     levelUpListeners := levelUpListeners w;
     xpChangeListeners := xpChangeListeners w; trace := trace w |}.

(** The [User] object [signIn] and [getSession] build from a row and the
    id of the auth user, if there is one. *)
Definition userOfRow (row : User) (authId : option string) : User :=
  {| perdorues_id := perdorues_id row; emri := emri row; email := email row;
     roli := roli row; leveli := leveli row;
     pike_eksperience := pike_eksperience row;
     auth_id := authId;
     profile_pic_url := orNull (profile_pic_url row);
     krijuar_me := orNull (krijuar_me row) |}.

(** [setUser] *)
Definition setUser (u : User) (cl : Client) : Client :=
  onWorld (set_user (Some u)) cl.

(** [signOut]; [resp] is the [{ error }] of [supabase.auth.signOut()]. *)
Definition signOut (resp : Await (option JsError)) (cl : Client)
  : Outcome Client unit :=
  let cl1 := send AuthSignOut (onWorld (set_loading_error true None) cl) in
  let failed (e : JsError) :=
    Throw e (onWorld (set_loading_error false
                        (Some (orElse (message e)
                                 "An error occurred during sign out"))) cl1) in
  match resp with
  | Raised e => failed e
  | Settled (Some e) => failed e
  | Settled None => Ret tt (onWorld (set_user_loaded None) cl1)
  end.

(** [getSession]; [userResp] answers the select by e-mail, which is only
    sent when the session has a user. *)
Definition getSession (sessionResp : Await SessionResponse)
    (userResp : Await (Response User)) (cl : Client) : Outcome Client unit :=
  let cl1 := send AuthGetSession (onWorld (set_loading_error true None) cl) in
  let failed (e : JsError) (c : Client) :=
    Ret tt (onWorld (set_loading_error false
                       (Some (orElse (message e)
                                "An error occurred during session check"))) c) in
  match sessionResp with
  | Raised e => failed e cl1
  | Settled s =>
      match sessionError s with
      | Some e => failed e cl1
      | None =>
          match session s ≫= session_user with
          | Some authUsr =>
              let cl2 := send (SelectByEmail (au_email authUsr)) cl1 in
              match userResp with
              | Raised e => failed e cl2
              | Settled r =>
                  match error r with
                  | Some userError => failed userError cl2
                  | None =>
                      match data r with
                      | Some userData =>
                          Ret tt (onWorld
                                    (set_user_loaded
                                       (Some (userOfRow userData
                                                (Some (au_id authUsr))))) cl2)
                      | None => Ret tt (onWorld (set_user_loaded None) cl2)
                      end
                  end
              end
          | None => Ret tt (onWorld (set_user_loaded None) cl1)
          end
      end
  end.

(** The auth user a response yields: [if (!error) authUser = data.user]. *)
Definition acceptedUser (r : AuthResponse) : option AuthUser :=
  match authError r with
  | Some _ => None
  | None => authUser r
  end.

(** The last steps of [signIn], once the auth user is settled: write its
    id to the row if there is one, then put the identity in the store. *)
Definition finishSignIn (row : PerdoruesRow) (au : option AuthUser)
    (updateResp : Await unit) (cl : Client) : Outcome Client unit :=
  let done (c : Client) :=
    Ret tt (onWorld (set_user (Some (userOfRow (profile row)
                                       (au_id <$> au)))) c) in
  match au with
  | Some a =>
      let cl1 := send (UpdateAuthId (perdorues_id (profile row)) (au_id a)) cl in
      match updateResp with
      | Raised e => Throw e cl1
      | Settled _ => done cl1
      end
  | None => done cl
  end.

(** [signIn]; the [catch] block logs and rethrows, so a failure is the
    error itself.  [users] is the list [listUsers] returned, if any. *)
Definition signIn (address password : string)
    (rowResp : Await (Response PerdoruesRow)) (passwordMatch : Await bool)
    (listResp : Await (option (list AuthUser)))
    (signInResp signUpResp : Await AuthResponse) (updateResp : Await unit)
    (cl : Client) : Outcome Client unit :=
  let cl1 := send (SelectByEmail address) cl in
  let invalid := Throw {| message := "Invalid email or password" |} cl1 in
  match rowResp with
  | Raised e => Throw e cl1
  | Settled r =>
      match error r, data r with
      | Some _, _ => invalid
      | None, None => invalid
      | None, Some row =>
          let cl2 := send (BcryptCompare password (password_hash row)) cl1 in
          match passwordMatch with
          | Raised e => Throw e cl2
          | Settled false => Throw {| message := "Invalid password" |} cl2
          | Settled true =>
              let cl3 := send ListUsers cl2 in
              match listResp with
              | Raised e => Throw e cl3
              | Settled users =>
                  let existingAuthUser :=
                    users ≫= List.find (fun u => bool_decide (au_email u = address)) in
                  let signUpThen (c : Client) :=
                    let c1 := send (AuthSignUp address password
                                      (perdorues_id (profile row))) c in
                    match signUpResp with
                    | Raised e => Throw e c1
                    | Settled a => finishSignIn row (acceptedUser a) updateResp c1
                    end in
                  match existingAuthUser with
                  | Some _ =>
                      let cl4 := send (SignInWithPassword address password) cl3 in
                      match signInResp with
                      | Raised e => Throw e cl4
                      | Settled a =>
                          match acceptedUser a with
                          | Some au => finishSignIn row (Some au) updateResp cl4
                          | None => signUpThen cl4
                          end
                      end
                  | None => signUpThen cl3
                  end
              end
          end
      end
  end.

(** Everything of the module outside the store's three fields: the
    last-congratulated marks, the listener arrays and the trace. *)
Definition busUntouched (w w' : World) : Prop :=
  lastCongratulatedLevel w' = lastCongratulatedLevel w
  /\ arrays w' = arrays w /\ nextLoc w' = nextLoc w
  /\ levelUpListeners w' = levelUpListeners w
  /\ xpChangeListeners w' = xpChangeListeners w
  /\ trace w' = trace w.

Definition isAuthCall (c : Call) : bool :=
  match c with
  | ListUsers | SignInWithPassword _ _ | AuthSignUp _ _ _ | UpdateAuthId _ _ => true
  | _ => false
  end.

End Session.

(** ** The other actions of the issue store ([store/issues.ts]) *)

Module IssueActions.
Import Issues.
Import Stdlib.Strings.Ascii.

(** What the code reads of a browser [File]. *)
Record File := { file_name : string; file_size : Z; file_type : string }.

(** [Partial<Omit<Issue, 'id' | 'user_id' | 'created_at'>>]; an image
    may still be a [File] to upload. *)
Record IssueFields := {
  f_category : option IssueCategory;
  f_description : option string;
  f_latitude : option Coord;
  f_longitude : option Coord;
  f_status : option Status;
  f_image_url : option (string + File);
  f_username : option string;
}.

(** The argument of [addIssue]. *)
Record IssueDraft := {
  d_category : IssueCategory;
  d_description : string;
  d_latitude : Coord;
  d_longitude : Coord;
  d_status : Status;
  d_image_url : option (string + File);
}.

(** The audit row [updateIssue] writes; the two JSON strings are kept as
    the values they are built from. *)
Record EditAudit := {
  e_issue_id : string;
  e_perdorues_id : Z;
  e_old_description : option string;
  e_old_category : option IssueCategory;
  e_new_description : option string;
  e_new_category : option IssueCategory;
  e_created_at : string;
}.

(** The requests these actions send, in the order sent. *)
Inductive Call :=
| StorageUpload (path : string) (f : File)
| RpcInsertIssue (p_category : IssueCategory) (p_description : string)
    (p_latitude p_longitude : Coord) (p_user_id : Z)
    (p_image_url : option string)
| SelectIssueById (issue : option string)
| DeleteIssueRow (issue : string)
| UpdateIssueRow (issue : string) (fields : IssueFields)
| InsertEdit (entry : EditAudit).

Record Desk := { store : Store; sent : list Call }.

Definition send (c : Call) (d : Desk) : Desk :=
  {| store := store d; sent := sent d ++ [c] |}.

Definition onStore (f : Store -> Store) (d : Desk) : Desk :=
  {| store := f (store d); sent := sent d |}.

(** [setReportingMode] *)
Definition setReportingMode (mode : bool) (s : Store) : Store :=
  {| issues := issues s; loading := loading s; error := error s;
     isReportingMode := mode; ndryshimet := ndryshimet s |}.

(** [name.split('.').pop()]: what follows the last dot, the whole name
    when it has none. *)
Fixpoint afterLastDot (name acc : string) : string :=
  match name with
  | EmptyString => acc
  | String c rest =>
      if Ascii.eqb c "."%char then afterLastDot rest EmptyString
      else afterLastDot rest (acc +:+ String c EmptyString)
  end.

Definition fileExt (name : string) : string := afterLastDot name EmptyString.

(** [s.includes('.')] *)
Fixpoint hasDot (s : string) : bool :=
  match s with
  | EmptyString => false
  | String c rest => Ascii.eqb c "."%char || hasDot rest
  end.

Definition MAX_FILE_SIZE : Z := 5 * 1024 * 1024.

(** [uploadImage]; [stamp] is the [Date.now()]-and-random part of the
    file name, [publicUrlOf] is [getPublicUrl(path).data.publicUrl] and
    [uploadResp] the [{ error }] of the upload. *)
Definition uploadImage (file : File) (stamp : string)
    (publicUrlOf : string -> string) (uploadResp : Await (option JsError))
    (d : Desk) : Outcome Desk string :=
  if decide (MAX_FILE_SIZE < file_size file) then
    Throw {| message := "File size too large. Please upload an image smaller than 5MB." |} d
  else if negb (String.prefix "image/" (file_type file)) then
    Throw {| message := "Please upload an image file." |} d
  else
    let fileName := stamp +:+ "." +:+ fileExt (file_name file) in
    let filePath := "issue-images/" +:+ fileName in
    let d1 := send (StorageUpload filePath file) d in
    match uploadResp with
    | Raised e => Throw e d1
    | Settled (Some uploadError) => Throw uploadError d1
    | Settled None => Ret (publicUrlOf filePath) d1
    end.

(** [imageUrl || null] *)
Definition urlOrNull (u : option string) : option string :=
  match u with
  | Some EmptyString => None
  | _ => u
  end.

(** [!user?.perdorues_id] *)
Definition signedInId (user : option User) : option Z :=
  match user with
  | Some u => if decide (perdorues_id u = 0) then None else Some (perdorues_id u)
  | None => None
  end.

(** The [catch] blocks that record the message and rethrow. *)
Definition failWith {A : Type} (e : JsError) (fallback : string) (d : Desk)
  : Outcome Desk A :=
  Throw e (onStore (recordFailure e fallback) d).

(** [addIssue]; [rpcResp] answers [rpc('insert_issue')] with the new id
    and [rowResp] the [select(...).eq('id', data).single()], which
    carries either an error or the row. *)
Definition addIssue (issue : IssueDraft) (authUser : option User)
    (stamp : string) (publicUrlOf : string -> string)
    (uploadResp : Await (option JsError))
    (rpcResp : Await (Response string))
    (rowResp : Await (JsError + IssueRow)) (d : Desk)
  : Outcome Desk Issue :=
  let d1 := onStore (set_flags true None) d in
  let fallback := "Failed to add issue"%string in
  match signedInId authUser with
  | None => failWith {| message := "User not authenticated" |} fallback d1
  | Some uid =>
      let insert (imageUrl : option string) (d2 : Desk) : Outcome Desk Issue :=
        let d3 := send (RpcInsertIssue (d_category issue) (d_description issue)
                          (d_latitude issue) (d_longitude issue) uid
                          (urlOrNull imageUrl)) d2 in
        match rpcResp with
        | Raised e => failWith e fallback d3
        | Settled r =>
            match responseError r with
            | Some e => failWith e fallback d3
            | None =>
                let d4 := send (SelectIssueById (data r)) d3 in
                match rowResp with
                | Raised e => failWith e fallback d4
                | Settled (inl fetchError) => failWith fetchError fallback d4
                | Settled (inr newIssue) =>
                    let issueWithUsername := withUsername newIssue in
                    Ret issueWithUsername
                      (onStore (fun s => set_issues
                                  (issueWithUsername :: issues s) false s) d4)
                end
            end
        end in
      match d_image_url issue with
      | Some (inr file) =>
          match uploadImage file stamp publicUrlOf uploadResp d1 with
          | Ret uploadedUrl d2 => insert (Some uploadedUrl) d2
          | Throw e d2 => failWith e fallback d2
          | OutOfFuel => OutOfFuel
          end
      | Some (inl url) => insert (Some url) d1
      | None => insert None d1
      end
  end.

(** [deleteIssue]: its [catch] block does not rethrow. *)
Definition deleteIssue (issueId : string) (resp : Await (Response unit))
    (d : Desk) : Outcome Desk unit :=
  let d1 := send (DeleteIssueRow issueId) (onStore (set_flags true None) d) in
  match failureOf resp with
  | Some e => Ret tt (onStore (recordFailure e "Failed to delete issue") d1)
  | None =>
      Ret tt (onStore
                (fun s => set_issues
                   (List.filter (fun issue => negb (bool_decide (id issue = issueId)))
                      (issues s)) false s) d1)
  end.

(** [{ ...issue, ...fieldsToUpdate }], once any file has been uploaded. *)
Definition withFields (f : IssueFields) (i : Issue) : Issue :=
  {| id := id i;
     category := default (category i) (f_category f);
     description := default (description i) (f_description f);
     latitude := default (latitude i) (f_latitude f);
     longitude := default (longitude i) (f_longitude f);
     status := default (status i) (f_status f);
     user_id := user_id i; created_at := created_at i;
     image_url :=
       match f_image_url f with
       | Some (inl url) => Some url
       | _ => image_url i
       end;
     username :=
       match f_username f with
       | Some n => Some n
       | None => username i
       end |}.

Definition withImage (url : string) (f : IssueFields) : IssueFields :=
  {| f_category := f_category f; f_description := f_description f;
     f_latitude := f_latitude f; f_longitude := f_longitude f;
     f_status := f_status f; f_image_url := Some (inl url);
     f_username := f_username f |}.

(** [updateIssue]; [updateResp] answers
    [update(...).eq(...).select().single()] and [auditResp] the insert
    into [ndryshimet]. *)
Definition updateIssue (issueId : string) (updatedFields : IssueFields)
    (authUser : option User) (now stamp : string)
    (publicUrlOf : string -> string) (uploadResp : Await (option JsError))
    (updateResp : Await (JsError + Issue))
    (auditResp : Await (Response unit)) (d : Desk) : Outcome Desk Issue :=
  let d1 := onStore (set_flags true None) d in
  let fallback := "Failed to update issue"%string in
  let oldIssue :=
    List.find (fun issue => bool_decide (id issue = issueId)) (issues (store d1)) in
  let update (fieldsToUpdate : IssueFields) (d2 : Desk) : Outcome Desk Issue :=
    let d3 := send (UpdateIssueRow issueId fieldsToUpdate) d2 in
    match updateResp with
    | Raised e => failWith e fallback d3
    | Settled (inl e) => failWith e fallback d3
    | Settled (inr row) =>
        let d4 :=
          onStore (fun s => set_issues
                     ((fun issue => if bool_decide (id issue = issueId)
                                    then withFields fieldsToUpdate issue
                                    else issue) <$> issues s) false s) d3 in
        match authUser with
        | Some u =>
            if decide (roli u = institution) then
              let d5 :=
                send (InsertEdit
                        {| e_issue_id := issueId;
                           e_perdorues_id := perdorues_id u;
                           e_old_description := description <$> oldIssue;
                           e_old_category := category <$> oldIssue;
                           e_new_description := f_description updatedFields;
                           e_new_category := f_category updatedFields;
                           e_created_at := now |}) d4 in
              match auditResp with
              | Raised e => failWith e fallback d5
              | Settled _ => Ret row d5
              end
            else Ret row d4
        | None => Ret row d4
        end
    end in
  match f_image_url updatedFields with
  | Some (inr file) =>
      match uploadImage file stamp publicUrlOf uploadResp d1 with
      | Ret uploadedUrl d2 => update (withImage uploadedUrl updatedFields) d2
      | Throw e d2 => failWith e fallback d2
      | OutOfFuel => OutOfFuel
      end
  | _ => update updatedFields d1
  end.

End IssueActions.

(** ** The other handlers of the like button, the detail modal and the
    issues page *)

Module Handlers.
Import Likes.
Import Stdlib.Strings.Ascii.

(** [LikeButton.tsx], [fetchLikeCount]: errors are logged and nothing
    else happens. *)
Definition fetchLikeCount (issueId : string) (hasOnUpdate : bool)
    (resp : Await CountResponse) (v : View) : Outcome View unit :=
  let v1 := perform (CountLikes issueId) v in
  match resp with
  | Raised _ => Ret tt v1
  | Settled c =>
      match countError c with
      | Some _ => Ret tt v1
      | None =>
          let n := default 0 (count c) in
          let v2 := setLikeCount n v1 in
          Ret tt (if hasOnUpdate then perform (OnUpdate n) v2 else v2)
      end
  end.

(** The answer to the [select('*')...single()] on the likes table:
    whether a row came back, and the [code] of the error if any. *)
Record LikeLookup := { likeRow : bool; likeErrorCode : option string }.

(** [LikeButton.tsx], [checkIfLiked]; the select it sends is not among
    the [Effect]s, so only the flag is followed. *)
Definition checkIfLiked (user : option User) (resp : Await LikeLookup)
    (v : View) : Outcome View unit :=
  match loggedInId user with
  | None => Ret tt v
  | Some _ =>
      match resp with
      | Raised _ => Ret tt v
      | Settled r =>
          match likeErrorCode r with
          | Some code =>
              if bool_decide (code = "PGRST116"%string)
              then Ret tt (setIsLiked (likeRow r) v)
              else Ret tt v
          | None => Ret tt (setIsLiked (likeRow r) v)
          end
      end
  end.

(** [id.includes('-')] *)
Fixpoint includesDash (s : string) : bool :=
  match s with
  | EmptyString => false
  | String c rest => Ascii.eqb c "-"%char || includesDash rest
  end.

Fixpoint zeros (n : nat) : string :=
  match n with
  | O => EmptyString
  | S n' => String "0"%char (zeros n')
  end.

(** [s.padStart(12, '0')] *)
Definition padStart12 (s : string) : string :=
  zeros (12 - String.length s) +:+ s.

(** [toUUID] of the detail modal on a string id; [digits] is
    [String(parseInt(id))]. *)
Definition toUUID (digits : string -> string) (id : string) : string :=
  if includesDash id then id
  else "00000000-0000-0000-0000-" +:+ padStart12 (digits id).

(** What the comment form of the modal does that can be seen outside. *)
Inductive FormCall :=
| RpcAddComment (issue_id : string) (perdorues : Z) (content : string)
| AwardComment (userId : Z) (deltaXP : Z)
| FetchComments
| ToastSuccess (msg : string)
| ToastFailure (msg : string).

Record CommentForm := {
  newComment : string;
  submitting : bool;
  formCalls : list FormCall;
}.

Definition note (c : FormCall) (f : CommentForm) : CommentForm :=
  {| newComment := newComment f; submitting := submitting f;
     formCalls := formCalls f ++ [c] |}.

Definition setSubmitting (b : bool) (f : CommentForm) : CommentForm :=
  {| newComment := newComment f; submitting := b; formCalls := formCalls f |}.

Definition setNewComment (s : string) (f : CommentForm) : CommentForm :=
  {| newComment := s; submitting := submitting f; formCalls := formCalls f |}.

Section CommentSubmit.

(** [String.prototype.trim] and the modal's id formatting. *)
Variable trim : string -> string.
Variable uuid : string -> string.

(** [IssueDetailModal.tsx], [handleCommentSubmit]; [addResp] answers
    [rpc('add_comment')] and [xpResp] is the outcome of [updateUserXP].
    [fetchComments] catches its own errors. *)
Definition handleCommentSubmit (issue_id : string) (user : option User)
    (addResp : Await (Response unit)) (xpResp : Await unit)
    (f : CommentForm) : Outcome CommentForm unit :=
  match loggedInId user, trim (newComment f) with
  | None, _ | Some _, EmptyString =>
      Ret tt (note (ToastFailure
                      (match user with
                       | None => "Please log in to comment"
                       | Some _ => "Please enter a comment"
                       end)) f)
  | Some uid, content =>
      let failed (e : JsError) (f' : CommentForm) :=
        Ret tt (setSubmitting false
                  (note (ToastFailure (orElse (message e)
                                         "Failed to add comment")) f')) in
      let f1 := note (RpcAddComment (uuid issue_id) uid content)
                  (setSubmitting true f) in
      match failureOf addResp with
      | Some commentError => failed commentError f1
      | None =>
          let f2 := note (AwardComment uid 10) f1 in
          match xpResp with
          | Raised e => failed e f2
          | Settled _ =>
              Ret tt (setSubmitting false
                        (note (ToastSuccess "Comment posted successfully")
                           (note FetchComments (setNewComment "" f2))))
          end
      end
  end.

End CommentSubmit.

(** [pages/Issues.tsx], [fetchLikeCounts]: one count query per cached
    issue, awaited together; [results] pairs every issue id with the
    answer to its query.  A rejection leaves the counts as they were. *)
Definition fetchLikeCounts (results : Await (list (string * CountResponse)))
    (likeCounts : gmap string Z) : gmap string Z :=
  match results with
  | Raised _ => likeCounts
  | Settled rs =>
      foldl (fun counts r => <[r.1 := default 0 (count r.2)]> counts) ∅ rs
  end.

(** [pages/Issues.tsx], [handleLikeUpdate]: [{ ...prev, [issueId]: count }] *)
Definition handleLikeUpdate (issueId : string) (n : Z)
    (likeCounts : gmap string Z) : gmap string Z :=
  <[issueId := n]> likeCounts.

Definition awardsOf (es : list Effect) : list (Z * Z) :=
  omap (fun e => match e with AwardXP u d => Some (u, d) | _ => None end) es.

End Handlers.

(** ** Sample data used by the examples *)

Module Samples.
Import Auth.

Definition jane : User :=
  {| perdorues_id := 7; emri := "Jane"; email := "jane@example.com";
     roli := citizen; leveli := 0; pike_eksperience := 0;
     auth_id := None; profile_pic_url := None; krijuar_me := None |}.

(** Jane after some activity: 60 XP, level 2. *)
Definition jane60 : User := withXP 60 2 jane.

(** Listeners that only look at their arguments. *)
Definition silent : ListenerId -> Z -> string -> list Action :=
  fun _ _ _ => [].

(** Listener 0 registers listener 1 on the level-up channel when called. *)
Definition chained : ListenerId -> Z -> string -> list Action :=
  fun l _ _ =>
    match l with
    | O => [ASubscribe LevelUp 1%nat]
    | _ => []
    end.

(** Listener 0 throws. *)
Definition faulty : ListenerId -> Z -> string -> list Action :=
  fun l _ _ =>
    match l with
    | O => [AThrow {| message := "listener failed" |}]
    | _ => []
    end.

Definition signedIn (u : User) : World := set_user (Some u) initial.

(** The backend finds [xp] stored and accepts the update. *)
Definition found (xp : Z) : XPResponses :=
  {| selectResp := Settled {| data := Some (Some xp); error := None |};
     updateResp := Settled {| data := None; error := None |};
     rndLevelUp := 2%nat; rndXPChange := 1%nat |}.

Definition selectFails : XPResponses :=
  {| selectResp := Raised {| message := "network" |};
     updateResp := Settled {| data := None; error := None |};
     rndLevelUp := 2%nat; rndXPChange := 1%nat |}.

Definition updateFails : XPResponses :=
  {| selectResp := Settled {| data := Some (Some 45); error := None |};
     updateResp :=
       Settled {| data := None;
                  error := Some {| message := "permission denied" |} |};
     rndLevelUp := 2%nat; rndXPChange := 1%nat |}.

(** Jane at 60 XP opens a session: an award that keeps level 2, one that
    reaches level 3, one that stays there, one that jumps to level 5. *)
Definition session : list (Z * XPResponses) :=
  [ (0, found 60); (50, found 60); (10, found 110); (100, found 120) ].

(** The state that session ends in. *)
Definition afterSession : World :=
  default initial (stateOf (awardAll silent 5 7 session (signedIn jane60))).

(** The same session for a Jane who signed in again while a mark of 1,
    set before she signed out, is still there. *)
Definition staleMark : World :=
  set_lastCongratulatedLevel (<[7 := 1]> ∅) (signedIn jane60).

Definition afterStaleSession : World :=
  default initial (stateOf (awardAll silent 5 7 session staleMark)).

(** Listeners 0 and 1 registered on the level-up channel, in that order. *)
Definition twoListeners : World :=
  subscribeToLevelUp 1%nat (subscribeToLevelUp 0%nat initial).

End Samples.

Module IssueSamples.

Definition accepted : Await (Response unit) :=
  Settled {| data := None; error := None |}.

Definition refused : Await (Response unit) :=
  Settled {| data := None; error := Some {| message := "permission denied" |} |}.

Import Issues.

Definition issueA : Issue :=
  {| id := "a1"; category := damage; description := "Broken street light";
     latitude := QArith_base.Qmake 4266 100;
     longitude := QArith_base.Qmake 2117 100;
     status := open; user_id := 7;
     created_at := "2025-05-01T10:00:00.000Z";
     image_url := None; username := Some "Jane"%string |}.

Definition issueB : Issue :=
  {| id := "b2"; category := traffic; description := "Pothole";
     latitude := QArith_base.Qmake 4265 100;
     longitude := QArith_base.Qmake 2116 100;
     status := in_progress; user_id := 8;
     created_at := "2025-04-30T09:00:00.000Z";
     image_url := None; username := None |}.

(** A store whose cache holds A and B. *)
Definition cacheAB : Store :=
  {| issues := [issueA; issueB]; loading := false; error := None;
     isReportingMode := false; ndryshimet := [] |}.

Definition clerk : User :=
  {| perdorues_id := 3; emri := "Komuna"; email := "komuna@example.com";
     roli := institution; leveli := 1; pike_eksperience := 0;
     auth_id := None; profile_pic_url := None; krijuar_me := None |}.

End IssueSamples.

Module LikeSamples.
Import Likes.

(** The modal as first rendered: not liked as far as it knows. *)
Definition fresh : View :=
  {| likeCount := 0; isLiked := false; isLoading := false; effects := [] |}.

Definition countIs (n : Z) : Await CountResponse :=
  Settled {| count := Some n; countError := None |}.

Definition toggled (n : Z) (b : bool) : Await (Response (list ToggleRow)) :=
  Settled {| data := Some [ {| like_count := n; liked := b |} ];
             error := None |}.

End LikeSamples.

Module MoreSamples.
Import Auth Session Samples.

(** Listener 0 calls the unsubscribe closure of listener 1. *)
Definition leaver : ListenerId -> Z -> string -> list Action :=
  fun l _ _ =>
    match l with
    | O => [AUnsubscribe LevelUp 1%nat]
    | _ => []
    end.

(** Jane's row as the backend stores it after registration. *)
Definition janeRow : PerdoruesRow :=
  {| profile := jane; password_hash := "$2a$10$hash" |}.

Definition janeAuth : AuthUser :=
  {| au_id := "auth-7"; au_email := "jane@example.com" |}.

Definition rowFound : Await (Response PerdoruesRow) :=
  Settled {| data := Some janeRow; error := None |}.

Definition authRefused : Await AuthResponse :=
  Settled {| authUser := None;
             authError := Some {| message := "rate limited" |} |}.

Definition atStart : Client := {| world := initial; calls := [] |}.

Definition janeSignedIn : Client :=
  {| world := signedIn jane60; calls := [] |}.

End MoreSamples.

Module ActionSamples.

Definition newId : Await (Response string) :=
  Settled {| data := Some "c3"%string; error := None |}.

Import Issues IssueSamples IssueActions.

Definition deskAB : Desk := {| store := cacheAB; sent := [] |}.

(** A photo of exactly the largest size accepted. *)
Definition photo : File :=
  {| file_name := "street.light.jpg"; file_size := 5242880;
     file_type := "image/jpeg" |}.

Definition hugePhoto : File :=
  {| file_name := "street.jpg"; file_size := 5242881;
     file_type := "image/jpeg" |}.

Definition draft (img : option (string + File)) : IssueDraft :=
  {| d_category := damage; d_description := "Broken bench";
     d_latitude := QArith_base.Qmake 4266 100;
     d_longitude := QArith_base.Qmake 2117 100;
     d_status := open; d_image_url := img |}.

Definition bucket (path : string) : string :=
  ("https://cdn.example/" +:+ path)%string.

(** An edit that only rewrites the description. *)
Definition fixed : IssueFields :=
  {| f_category := None; f_description := Some "Fixed"%string;
     f_latitude := None; f_longitude := None; f_status := None;
     f_image_url := None; f_username := None |}.

Definition issueC : Issue :=
  {| id := "c3"; category := damage; description := "Broken bench";
     latitude := QArith_base.Qmake 4266 100;
     longitude := QArith_base.Qmake 2117 100;
     status := open; user_id := 7;
     created_at := "2025-05-03T10:00:00.000Z";
     image_url := None; username := None |}.

Definition rowC : IssueRow :=
  {| row := issueC; perdoruesit := Some (7, "Jane"%string) |}.

End ActionSamples.

(** * Properties *)

(** ** XP ledger *)

Section LedgerFacts.
Import Ledger.

Lemma calculateLevel_bounds xp :
  50 * (calculateLevel xp - 1) <= xp < 50 * calculateLevel xp.
Proof.
  unfold calculateLevel.
  pose proof (Z.div_mod xp 50 ltac:(lia)) as Hdm.
  pose proof (Z.mod_pos_bound xp 50 ltac:(lia)) as Hb.
  lia.
Qed.

Lemma calculateLevel_unique xp l :
  50 * (l - 1) <= xp < 50 * l -> calculateLevel xp = l.
Proof.
  intros H. pose proof (calculateLevel_bounds xp) as Hc. lia.
Qed.

Lemma calculateLevel_pos xp : 0 <= xp -> 1 <= calculateLevel xp.
Proof.
  intros H. unfold calculateLevel.
  pose proof (Z.div_pos xp 50 H ltac:(lia)). lia.
Qed.

Lemma getXPToNextLevel_mod xp : getXPToNextLevel xp = 50 - xp mod 50.
Proof.
  unfold getXPToNextLevel, calculateLevel.
  pose proof (Z.div_mod xp 50 ltac:(lia)). lia.
Qed.

Example calculateLevel_0 : calculateLevel 0 = 1. Proof. reflexivity. Qed.
Example calculateLevel_49 : calculateLevel 49 = 1. Proof. reflexivity. Qed.
Example calculateLevel_50 : calculateLevel 50 = 2. Proof. reflexivity. Qed.
Example calculateLevel_149 : calculateLevel 149 = 3. Proof. reflexivity. Qed.
Example getXPToNextLevel_0 : getXPToNextLevel 0 = 50. Proof. reflexivity. Qed.
Example getXPToNextLevel_49 : getXPToNextLevel 49 = 1. Proof. reflexivity. Qed.
Example getXPToNextLevel_100 : getXPToNextLevel 100 = 50. Proof. reflexivity. Qed.

(** C4, as stated, fails at xp = 50: a level boundary, where
    [getXPToNextLevel] returns 50 and not 0. *)
Lemma C4_zero_at_boundary_fails :
  ~ (0 <= 50 ->
     0 <= getXPToNextLevel 50 /\ (getXPToNextLevel 50 = 0 <-> 50 mod 50 = 0)).
Proof.
  intros H. destruct (H ltac:(lia)) as [_ [_ Hback]].
  specialize (Hback eq_refl). vm_compute in Hback. discriminate.
Qed.

(** C4, amended: for every integer xp of magnitude at most
    [MAX_SAFE_INTEGER], where the source's arithmetic on doubles is
    exact, [getXPToNextLevel xp] lies between 1 and 50, so it is never
    negative and never 0; it is the distance to the first XP total of the
    next level; and it is 50 exactly when xp is a multiple of 50. *)
Theorem C4_xp_to_next_level_range (xp : Z) :
  Z.abs xp <= MAX_SAFE_INTEGER ->
  1 <= getXPToNextLevel xp <= 50
  /\ calculateLevel (xp + getXPToNextLevel xp) = calculateLevel xp + 1
  /\ (xp + getXPToNextLevel xp) mod 50 = 0
  /\ (getXPToNextLevel xp = 50 <-> xp mod 50 = 0).
Proof.
  intros _.
  rewrite getXPToNextLevel_mod.
  pose proof (Z.mod_pos_bound xp 50 ltac:(lia)) as Hb.
  pose proof (Z.div_mod xp 50 ltac:(lia)) as Hdm.
  repeat split; try lia.
  - apply calculateLevel_unique. unfold calculateLevel. lia.
  - replace (xp + (50 - xp mod 50)) with ((xp / 50 + 1) * 50) by lia.
    apply Z.mod_mul. lia.
Qed.

(** At the largest safe integer, 9007199254740991, nine more XP reach the
    next level; at a level boundary it is fifty. *)
Lemma C4_xp_to_next_level_witness :
  getXPToNextLevel MAX_SAFE_INTEGER = 9
  /\ 1 <= getXPToNextLevel 100 <= 50
  /\ getXPToNextLevel 100 = 50.
Proof.
  split; [reflexivity |].
  destruct (C4_xp_to_next_level_range 100 ltac:(vm_compute; discriminate))
    as (Hrange & _ & _ & Hfifty).
  split; [exact Hrange | apply Hfifty; reflexivity].
Defined.

End LedgerFacts.

(** ** Issue store *)

Section IssueStoreFacts.
Import Issues.

Lemma orElse_nonempty s d : d <> ""%string -> orElse s d <> ""%string.
Proof. intros Hd. destruct s; simpl; [exact Hd | discriminate]. Qed.

(** C8: when the request of [fetchIssues] fails (the response carries an
    error, or the promise rejects), the call still completes, the cached
    issues are the ones from before, a non-empty error message is in the
    store and [loading] is false. *)
Theorem C8_fetch_failure_keeps_cache
    (resp : Await (Response (list IssueRow))) (s : Store) (e : JsError) :
  failureOf resp = Some e ->
  exists s',
    fetchIssues resp s = Ret tt s'
    /\ issues s' = issues s
    /\ error s' = Some (orElse (message e) "Failed to fetch issues")
    /\ error s' <> Some ""%string
    /\ loading s' = false
    /\ ndryshimet s' = ndryshimet s.
Proof.
  intros Hfail. unfold fetchIssues.
  destruct resp as [r |]; simpl in Hfail;
    [unfold responseError; rewrite Hfail | inversion Hfail; subst];
    (eexists; split; [reflexivity |]); simpl;
    (repeat split; try reflexivity);
    intros [= Hm]; revert Hm; by apply orElse_nonempty.
Qed.

(** C10: when the update request of [updateIssueStatus] fails, the call
    completes normally with the same value a successful call returns (so
    no call ever rejects), the message is in [error], [loading] is false,
    and neither the cached issues nor the audit rows changed. *)
Theorem C10_status_update_failure_is_swallowed
    (issueId : string) (newStatus : Status) (authUser : option User)
    (now : string) (updateResp auditResp : Await (Response unit))
    (s : Store) (e : JsError) :
  failureOf updateResp = Some e ->
  (exists s',
     updateIssueStatus issueId newStatus authUser now updateResp auditResp s
       = Ret tt s'
     /\ error s' = Some (orElse (message e) "Failed to update issue status")
     /\ loading s' = false
     /\ issues s' = issues s
     /\ ndryshimet s' = ndryshimet s)
  /\ (forall updateResp' auditResp', exists s'',
        updateIssueStatus issueId newStatus authUser now
          updateResp' auditResp' s = Ret tt s'').
Proof.
  intros Hfail. split.
  - unfold updateIssueStatus.
    destruct updateResp as [r |]; simpl in Hfail;
      [unfold responseError; rewrite Hfail | inversion Hfail; subst];
      (eexists; split; [reflexivity |]); simpl; done.
  - intros u a. unfold updateIssueStatus.
    destruct u as [r |]; [| by eexists].
    destruct (responseError r); [by eexists |].
    destruct authUser as [usr |]; [| by eexists].
    destruct (decide (roli usr = institution)); [| by eexists].
    destruct a as [ar |]; [| by eexists].
    destruct (responseError ar); by eexists.
Qed.

End IssueStoreFacts.

(** ** Session store: what a call leaves alone *)

Section AuthFrame.
Import Ledger Auth.

Variable code : ListenerId -> Z -> string -> list Action.

Lemma published_app ch t1 t2 :
  published ch (t1 ++ t2) = published ch t1 ++ published ch t2.
Proof. unfold published. apply omap_app. Qed.

Lemma invoked_app ch t1 t2 :
  invoked ch (t1 ++ t2) = invoked ch t1 ++ invoked ch t2.
Proof. unfold invoked. apply omap_app. Qed.

Lemma writtenLevels_app t1 t2 :
  writtenLevels (t1 ++ t2) = writtenLevels t1 ++ writtenLevels t2.
Proof. unfold writtenLevels. apply omap_app. Qed.

Lemma published_calls ch ch' v q (ls : list ListenerId) :
  published ch ((fun l => Invoked ch' l v q) <$> ls) = [].
Proof. induction ls as [| l ls IH]; [done | exact IH]. Qed.

Lemma writtenLevels_calls ch v q (ls : list ListenerId) :
  writtenLevels ((fun l => Invoked ch l v q) <$> ls) = [].
Proof. induction ls as [| l ls IH]; [done | exact IH]. Qed.

Lemma invoked_calls ch v q (ls : list ListenerId) :
  invoked ch ((fun l => Invoked ch l v q) <$> ls) = ls.
Proof.
  induction ls as [| l ls IH]; [done |].
  cbn. rewrite decide_True by done. cbn. f_equal. exact IH.
Qed.

Lemma runActions_frame acts : forall w w',
  stateOf (runActions acts w) = Some w' ->
  user w' = user w
  /\ lastCongratulatedLevel w' = lastCongratulatedLevel w
  /\ trace w' = trace w.
Proof.
  induction acts as [| a acts IH]; intros w w' H; simpl in H.
  - by inversion H.
  - destruct a as [ch l | ch l | e]; simpl in H.
    + apply IH in H. exact H.
    + apply IH in H. exact H.
    + by inversion H.
Qed.

Lemma callListener_frame ch v q l w w' :
  stateOf (callListener code ch v q l w) = Some w' ->
  user w' = user w
  /\ lastCongratulatedLevel w' = lastCongratulatedLevel w
  /\ trace w' = trace w ++ [Invoked ch l v q].
Proof. intros H. apply runActions_frame in H. exact H. Qed.

Lemma forOf_frame ch v q fuel : forall r i w w',
  stateOf (forOf fuel r i (callListener code ch v q) w) = Some w' ->
  user w' = user w
  /\ lastCongratulatedLevel w' = lastCongratulatedLevel w
  /\ exists ls, trace w' = trace w ++ ((fun l => Invoked ch l v q) <$> ls).
Proof.
  induction fuel as [| fuel IH]; intros r i w w' H; simpl in H; [done |].
  destruct (readArray r w !! i) as [l |].
  - destruct (callListener code ch v q l w) as [[] w1 | e w1 |] eqn:Hc;
      simpl in H; [| | done].
    + assert (Hs : stateOf (callListener code ch v q l w) = Some w1)
        by (by rewrite Hc).
      apply callListener_frame in Hs as (Hu & Hm & Ht).
      apply IH in H as (Hu' & Hm' & ls & Ht').
      split_and!; [congruence | congruence |].
      exists (l :: ls). rewrite Ht', Ht, <- app_assoc. done.
    + assert (Hs : stateOf (callListener code ch v q l w) = Some w1)
        by (by rewrite Hc).
      apply callListener_frame in Hs as (Hu & Hm & Ht).
      inversion H; subst w'. split_and!; [done | done |].
      by exists [l].
  - inversion H; subst w'. split_and!; [done | done |].
    exists []. by rewrite app_nil_r.
Qed.

Lemma notify_frame fuel ch v rnd w w' :
  stateOf (notify code fuel ch v rnd w) = Some w' ->
  user w' = user w
  /\ lastCongratulatedLevel w' = lastCongratulatedLevel w
  /\ (forall ch', published ch' (trace w')
        = published ch' (trace w) ++ (if decide (ch = ch') then [v] else []))
  /\ writtenLevels (trace w') = writtenLevels (trace w).
Proof.
  intros H. unfold notify in H.
  apply forOf_frame in H as (Hu & Hm & ls & Ht). simpl in *.
  split_and!; [done | done | |].
  - intros ch'. rewrite Ht, !published_app, published_calls, app_nil_r.
    f_equal. cbn. by destruct (decide (ch = ch')).
  - rewrite Ht, !writtenLevels_app, writtenLevels_calls, app_nil_r.
    cbn. by rewrite app_nil_r.
Qed.

(** A successful award for the signed-in identity, field by field. *)
Lemma updateUserXP_current fuel uid d r w w' u :
  user w = Some u -> perdorues_id u = uid ->
  updateUserXP code fuel uid d r w = Ret tt w' ->
  let newXP := currentXPOf (selectResp r) + d in
  let newLevel := calculateLevel newXP in
  let mark := default (leveli u) (lastCongratulatedLevel w !! uid) in
  failureOf (selectResp r) = None /\ failureOf (updateResp r) = None
  /\ user w' = Some (withXP newXP newLevel u)
  /\ lastCongratulatedLevel w'
       = (if decide (mark < newLevel)
          then <[uid := newLevel]> (lastCongratulatedLevel w)
          else lastCongratulatedLevel w)
  /\ published LevelUp (trace w')
       = published LevelUp (trace w)
         ++ (if decide (mark < newLevel) then [newLevel] else [])
  /\ published XPChange (trace w') = published XPChange (trace w) ++ [newXP]
  /\ writtenLevels (trace w')
       = writtenLevels (trace w) ++ [(newLevel, newXP)].
Proof.
  intros Hu Hid H. unfold updateUserXP in H.
  destruct (failureOf (selectResp r)) as [e |]; [done |].
  destruct (failureOf (updateResp r)) as [e |]; [done |].
  cbn zeta in H. simpl user in H. rewrite Hu in H.
  rewrite decide_True in H by done.
  simpl lastCongratulatedLevel in H.
  intros newXP newLevel mark. fold newXP newLevel mark in H.
  destruct (decide (mark < newLevel)) as [Hlt | Hge].
  - destruct (notifyLevelUp _ _ _ _ _) as [[] w2 | e w2 |] eqn:Hn;
      [| done | done].
    assert (Hs : stateOf (notify code fuel LevelUp newLevel (rndLevelUp r)
              (set_lastCongratulatedLevel
                 (<[uid:=newLevel]> (lastCongratulatedLevel w))
                 (emit (DbUpdateUser uid newXP newLevel) w))) = Some w2).
    { unfold notifyLevelUp in Hn. by rewrite Hn. }
    apply notify_frame in Hs as (Hu2 & Hm2 & Hp2 & Hw2).
    assert (Hs : stateOf (notifyXPChange code fuel newXP (rndXPChange r)
              (set_user (Some (withXP newXP newLevel u)) w2)) = Some w')
      by (by rewrite H).
    apply notify_frame in Hs as (Hu3 & Hm3 & Hp3 & Hw3).
    simpl in *. split_and!; [done | done | done | | | |].
    + by rewrite Hm3, Hm2.
    + rewrite (Hp3 LevelUp), (Hp2 LevelUp), published_app. cbn.
      by rewrite !app_nil_r.
    + rewrite (Hp3 XPChange), (Hp2 XPChange), published_app. cbn.
      by rewrite !app_nil_r.
    + by rewrite Hw3, Hw2, writtenLevels_app.
  - assert (Hs : stateOf (notifyXPChange code fuel newXP (rndXPChange r)
              (set_user (Some (withXP newXP newLevel u))
                 (emit (DbUpdateUser uid newXP newLevel) w))) = Some w')
      by (by rewrite H).
    apply notify_frame in Hs as (Hu3 & Hm3 & Hp3 & Hw3).
    simpl in *. split_and!; [done | done | done | done | | |].
    + rewrite (Hp3 LevelUp), published_app. cbn. by rewrite !app_nil_r.
    + rewrite (Hp3 XPChange), published_app. cbn. by rewrite !app_nil_r.
    + by rewrite Hw3, writtenLevels_app.
Qed.

(** A successful award for anybody else: only the row is written. *)
Lemma updateUserXP_other fuel uid d r w w' :
  (forall u, user w = Some u -> perdorues_id u <> uid) ->
  updateUserXP code fuel uid d r w = Ret tt w' ->
  let newXP := currentXPOf (selectResp r) + d in
  w' = emit (DbUpdateUser uid newXP (calculateLevel newXP)) w.
Proof.
  intros Hother H. unfold updateUserXP in H.
  destruct (failureOf (selectResp r)) as [e |]; [done |].
  destruct (failureOf (updateResp r)) as [e |]; [done |].
  cbn zeta in H. simpl user in H.
  destruct (user w) as [u |] eqn:Hu.
  - rewrite decide_False in H by (by apply Hother).
    by inversion H.
  - by inversion H.
Qed.

End AuthFrame.

(** ** Session store: the XP award *)

Section AwardFacts.
Import Ledger Auth Samples.

(** C5: when the read of the stored XP or the write of the new XP and
    level fails, [updateUserXP] throws that error and ends in the very
    state it started in: cached identity, last-congratulated marks,
    listener arrays and the trace of publications are all as before. *)
Theorem C5_failed_award_changes_nothing
    (code : ListenerId -> Z -> string -> list Action) (fuel : nat)
    (uid d : Z) (r : XPResponses) (w : World) (e : JsError) :
  (failureOf (selectResp r) = Some e
   \/ (failureOf (selectResp r) = None
       /\ failureOf (updateResp r) = Some e)) ->
  updateUserXP code fuel uid d r w = Throw e w
  /\ forall w', stateOf (updateUserXP code fuel uid d r w) = Some w' ->
       user w' = user w
       /\ lastCongratulatedLevel w' = lastCongratulatedLevel w
       /\ (forall ch, listenersOf ch w' = listenersOf ch w
                      /\ published ch (trace w') = published ch (trace w)
                      /\ invoked ch (trace w') = invoked ch (trace w)).
Proof.
  intros H.
  assert (Hthrow : updateUserXP code fuel uid d r w = Throw e w).
  { unfold updateUserXP. destruct H as [-> | [-> ->]]; reflexivity. }
  split; [exact Hthrow |].
  intros w' Hw'. rewrite Hthrow in Hw'. simpl in Hw'.
  inversion Hw'; subst w'. done.
Qed.

Lemma C5_failed_award_witness :
  updateUserXP silent 5 7 10 selectFails (signedIn jane60)
    = Throw {| message := "network" |} (signedIn jane60)
  /\ updateUserXP silent 5 7 10 updateFails (signedIn jane60)
    = Throw {| message := "permission denied" |} (signedIn jane60).
Proof.
  split.
  - apply (C5_failed_award_changes_nothing silent 5 7 10 selectFails
             (signedIn jane60) {| message := "network" |}).
    left. reflexivity.
  - apply (C5_failed_award_changes_nothing silent 5 7 10 updateFails
             (signedIn jane60) {| message := "permission denied" |}).
    right. split; reflexivity.
Defined.

(** C3, as stated, fails for a target that is not the signed-in identity:
    the award for identity 8 succeeds while Jane (7) is signed in, and no
    xp-change event is published. *)
Lemma C3_other_target_publishes_nothing :
  exists w',
    updateUserXP silent 5 8 10 (found 45) (signedIn jane60) = Ret tt w'
    /\ published XPChange (trace w') = []
    /\ published XPChange (trace w') <> [45 + 10].
Proof.
  eexists. split; [reflexivity |]. split; [reflexivity | discriminate].
Qed.

(** C3, amended: a successful [updateUserXP] whose target is the
    signed-in identity publishes exactly one xp-change event, carrying the
    new XP total, whether or not a level-up event was published; for any
    other target it publishes none. *)
Theorem C3_xp_change_once_for_signed_in_target
    (code : ListenerId -> Z -> string -> list Action) (fuel : nat)
    (uid d : Z) (r : XPResponses) (w w' : World) :
  updateUserXP code fuel uid d r w = Ret tt w' ->
  let newXP := currentXPOf (selectResp r) + d in
  published XPChange (trace w')
    = published XPChange (trace w)
      ++ match user w with
         | Some u => if decide (perdorues_id u = uid) then [newXP] else []
         | None => []
         end.
Proof.
  intros H newXP.
  destruct (user w) as [u |] eqn:Hu.
  - destruct (decide (perdorues_id u = uid)) as [Hid | Hid].
    + by destruct (updateUserXP_current code fuel uid d r w w' u Hu Hid H)
        as (_ & _ & _ & _ & _ & Hx & _).
    + apply updateUserXP_other in H.
      * rewrite H. simpl. rewrite published_app. done.
      * intros u' Hu'. congruence.
  - apply updateUserXP_other in H.
    + rewrite H. simpl. rewrite published_app. done.
    + intros u' Hu'. congruence.
Qed.

Lemma C3_xp_change_witness :
  exists w',
    updateUserXP silent 5 7 10 (found 45) (signedIn jane60) = Ret tt w'
    /\ published XPChange (trace w') = [55].
Proof.
  eexists. split; [reflexivity |].
  exact (C3_xp_change_once_for_signed_in_target silent 5 7 10 (found 45)
           (signedIn jane60) _ eq_refl).
Defined.

End AwardFacts.

(** ** Level and XP of the records written *)

Section StoredLevel.
Import Ledger Auth Samples.

(** C1, as stated, fails at registration: the row [signUp] inserts has
    level 0 and XP 0, while floor(0 / 50) + 1 = 1. *)
Lemma C1_signUp_level_is_not_computed :
  exists o w',
    signUp "jane@example.com" "$2a$10$hash" "Jane" citizen
      "2025-05-01T10:00:00.000Z"
      (Settled {| data := Some jane; error := None |})
      initial = Ret o w'
    /\ ~ Forall (fun p : Z * Z => p.1 = p.2 / 50 + 1)
           (writtenLevels (trace w')).
Proof.
  do 2 eexists. split; [reflexivity |].
  intros H. apply Forall_cons in H as [H _]. simpl in H. discriminate.
Qed.

(** C1, amended: every row a successful [updateUserXP] writes, and the
    cached identity it updates when the target is signed in, has level
    floor(xp / 50) + 1 of the XP stored with it; the row [signUp] inserts
    at registration has level 0 and XP 0 (no level is computed there). *)
Theorem C1_award_writes_level_of_xp :
  (forall (code : ListenerId -> Z -> string -> list Action) (fuel : nat)
          (uid d : Z) (r : XPResponses) (w w' : World),
      updateUserXP code fuel uid d r w = Ret tt w' ->
      let newXP := currentXPOf (selectResp r) + d in
      writtenLevels (trace w')
        = writtenLevels (trace w) ++ [(newXP / 50 + 1, newXP)]
      /\ 50 * (calculateLevel newXP - 1) <= newXP < 50 * calculateLevel newXP
      /\ (forall u, user w = Some u -> perdorues_id u = uid ->
            exists u', user w' = Some u'
                       /\ pike_eksperience u' = newXP
                       /\ leveli u' = pike_eksperience u' / 50 + 1)
      /\ (forall u, user w = Some u -> perdorues_id u <> uid ->
            user w' = Some u))
  /\ (forall (email hashedPassword emri now : string) (roli : Role)
             (resp : Await (Response User)) (w w' : World)
             (o : option User),
        signUp email hashedPassword emri roli now resp w = Ret o w' ->
        writtenLevels (trace w') = writtenLevels (trace w) ++ [(0, 0)]).
Proof.
  split.
  - intros code fuel uid d r w w' H newXP.
    split_and!.
    + destruct (user w) as [u |] eqn:Hu;
        [destruct (decide (perdorues_id u = uid)) as [Hid | Hid] |].
      * by destruct (updateUserXP_current code fuel uid d r w w' u Hu Hid H)
          as (_ & _ & _ & _ & _ & _ & Hw).
      * apply updateUserXP_other in H; [| intros; congruence].
        rewrite H. simpl. by rewrite writtenLevels_app.
      * apply updateUserXP_other in H; [| intros; congruence].
        rewrite H. simpl. by rewrite writtenLevels_app.
    + apply calculateLevel_bounds.
    + apply calculateLevel_bounds.
    + intros u Hu Hid.
      destruct (updateUserXP_current code fuel uid d r w w' u Hu Hid H)
        as (_ & _ & Hu' & _).
      eexists. split; [exact Hu' |]. done.
    + intros u Hu Hid.
      apply updateUserXP_other in H; [| intros; congruence].
      rewrite H. exact Hu.
  - intros email hashedPassword emri now roli resp w w' o H.
    unfold signUp in H. destruct resp as [r |]; [| done].
    destruct (error r); [done |].
    inversion H; subst. simpl. by rewrite writtenLevels_app.
Qed.

Lemma C1_award_witness :
  (exists w',
     updateUserXP silent 5 7 10 (found 45) (signedIn jane60) = Ret tt w'
     /\ writtenLevels (trace w') = [(2, 55)])
  /\ (exists o w',
        signUp "jane@example.com" "$2a$10$hash" "Jane" citizen
          "2025-05-01T10:00:00.000Z"
          (Settled {| data := Some jane; error := None |}) initial
          = Ret o w'
        /\ writtenLevels (trace w') = [(0, 0)]).
Proof.
  split.
  - eexists. split; [reflexivity |].
    exact (proj1 (proj1 C1_award_writes_level_of_xp silent 5%nat 7 10
                    (found 45) (signedIn jane60) _ eq_refl)).
  - do 2 eexists. split; [reflexivity |].
    exact (proj2 C1_award_writes_level_of_xp "jane@example.com"%string
             "$2a$10$hash"%string "Jane"%string
             "2025-05-01T10:00:00.000Z"%string citizen
             (Settled {| data := Some jane; error := None |}) initial
             _ _ eq_refl).
Defined.

End StoredLevel.

(** ** Level-up congratulations *)

Section LevelUpFacts.
Import Ledger Auth Samples.

Variable code : ListenerId -> Z -> string -> list Action.
Variable fuel : nat.
Variable uid : Z.

Lemma awardAll_levelUps awards : forall w w1 u,
  user w = Some u -> perdorues_id u = uid ->
  awardAll code fuel uid awards w = Ret tt w1 ->
  exists fired u1,
    published LevelUp (trace w1) = published LevelUp (trace w) ++ fired
    /\ StronglySorted Z.lt fired
    /\ (forall m, lastCongratulatedLevel w !! uid = Some m ->
          Forall (fun x => m < x) fired)
    /\ user w1 = Some u1 /\ perdorues_id u1 = uid.
Proof.
  induction awards as [| [d r] awards IH]; intros w w1 u Hu Hid H.
  - simpl in H. inversion H; subst w1.
    exists [], u. rewrite app_nil_r.
    split_and!; try done; constructor.
  - simpl in H.
    destruct (updateUserXP code fuel uid d r w) as [[] w' | |] eqn:Hstep;
      [| done | done].
    destruct (updateUserXP_current code fuel uid d r w w' u Hu Hid Hstep)
      as (_ & _ & Hu' & Hm' & Hp' & _).
    set (newLevel := calculateLevel (currentXPOf (selectResp r) + d)) in *.
    destruct (IH w' w1 _ Hu' Hid H)
      as (fired & u1 & Hp1 & Hs1 & Hb1 & Hu1 & Hid1).
    destruct (decide (default (leveli u) (lastCongratulatedLevel w !! uid)
                      < newLevel)) as [Hlt | Hge].
    + exists (newLevel :: fired), u1.
      assert (Hall : Forall (fun x => newLevel < x) fired).
      { apply Hb1. rewrite Hm'. apply lookup_insert_eq. }
      split_and!; try done.
      * rewrite Hp1, Hp', <- app_assoc. done.
      * constructor; done.
      * intros m Hm. rewrite Hm in Hlt. simpl in Hlt.
        constructor; [done |].
        eapply Forall_impl; [exact Hall |]. simpl. intros; lia.
    + exists fired, u1.
      split_and!; try done.
      * rewrite Hp1, Hp', app_nil_r. done.
      * intros m Hm. apply Hb1. by rewrite Hm'.
Qed.

(** Once an award for the signed-in identity has gone through, the next
    one whose level is not higher publishes no level-up. *)
Lemma updateUserXP_no_refire d r d' r' w w1 w2 u :
  user w = Some u -> perdorues_id u = uid ->
  updateUserXP code fuel uid d r w = Ret tt w1 ->
  updateUserXP code fuel uid d' r' w1 = Ret tt w2 ->
  calculateLevel (currentXPOf (selectResp r') + d')
    <= calculateLevel (currentXPOf (selectResp r) + d) ->
  published LevelUp (trace w2) = published LevelUp (trace w1).
Proof.
  intros Hu Hid H1 H2 Hle.
  destruct (updateUserXP_current code fuel uid d r w w1 u Hu Hid H1)
    as (_ & _ & Hu1 & Hm1 & _).
  destruct (updateUserXP_current code fuel uid d' r' w1 w2 _ Hu1 Hid H2)
    as (_ & _ & _ & _ & Hp2 & _).
  rewrite Hp2. rewrite decide_False; [by rewrite app_nil_r |].
  rewrite Hm1. simpl.
  set (newLevel := calculateLevel (currentXPOf (selectResp r) + d)) in *.
  destruct (decide (default (leveli u) (lastCongratulatedLevel w !! uid)
                    < newLevel)) as [Hlt | Hge].
  - rewrite lookup_insert_eq. simpl. lia.
  - destruct (lastCongratulatedLevel w !! uid) as [m |]; simpl in *; lia.
Qed.

Lemma StronglySorted_lt_NoDup (l : list Z) : StronglySorted Z.lt l -> NoDup l.
Proof.
  induction 1 as [| x l Hs IH Hall]; constructor; [| exact IH].
  intros Hin. rewrite Forall_forall in Hall.
  specialize (Hall x Hin). lia.
Qed.

End LevelUpFacts.

Section LevelUpClaim.
Import Ledger Auth Samples.

(** C2: take any run of successful awards for the signed-in identity,
    from any state of the store and of the marks.  The levels it
    congratulates are strictly increasing, so no level is congratulated
    twice, and all of them exceed the mark the run started with, if one
    was set.  The next successful award publishes a level-up event
    exactly when its new level exceeds the last-congratulated mark (the
    cached level when no mark was ever set), then exactly one, carrying
    the new level however many levels were jumped; and an award that
    follows it without reaching a higher level publishes none. *)
Theorem C2_level_up_once_per_level
    (code : ListenerId -> Z -> string -> list Action) (fuel : nat)
    (uid : Z) (awards : list (Z * XPResponses)) (w w1 : World) (u : User) :
  user w = Some u -> perdorues_id u = uid ->
  awardAll code fuel uid awards w = Ret tt w1 ->
  (exists fired,
      published LevelUp (trace w1) = published LevelUp (trace w) ++ fired
      /\ StronglySorted Z.lt fired /\ NoDup fired
      /\ (forall m, lastCongratulatedLevel w !! uid = Some m ->
            Forall (fun x => m < x) fired))
  /\ exists u1,
      user w1 = Some u1 /\ perdorues_id u1 = uid
      /\ forall d r w2,
           updateUserXP code fuel uid d r w1 = Ret tt w2 ->
           let newLevel := calculateLevel (currentXPOf (selectResp r) + d) in
           let mark := default (leveli u1) (lastCongratulatedLevel w1 !! uid) in
           published LevelUp (trace w2)
             = published LevelUp (trace w1)
               ++ (if decide (mark < newLevel) then [newLevel] else [])
           /\ (forall d' r' w3,
                 updateUserXP code fuel uid d' r' w2 = Ret tt w3 ->
                 calculateLevel (currentXPOf (selectResp r') + d') <= newLevel ->
                 published LevelUp (trace w3) = published LevelUp (trace w2)).
Proof.
  intros Hu Hid H.
  destruct (awardAll_levelUps code fuel uid awards w w1 u Hu Hid H)
    as (fired & u1 & Hp & Hs & Hb & Hu1 & Hid1).
  split.
  - exists fired. split_and!; [done | done | | done].
    by apply StronglySorted_lt_NoDup.
  - exists u1. split_and!; [done | done |].
    intros d r w2 Hstep newLevel mark.
    destruct (updateUserXP_current code fuel uid d r w1 w2 u1 Hu1 Hid1 Hstep)
      as (_ & _ & _ & _ & Hp2 & _).
    split; [exact Hp2 |].
    intros d' r' w3 Hnext Hle.
    exact (updateUserXP_no_refire code fuel uid d r d' r' w1 w2 w3 u1
             Hu1 Hid1 Hstep Hnext Hle).
Qed.

End LevelUpClaim.

Section LevelUpExamples.
Import Ledger Auth Samples.

(** Jane's session, and the same session opened with a mark of 1 left
    behind by an earlier one: the first award, which keeps level 2, then
    congratulates level 2 once, and levels 3 and 5 follow as before. *)
Lemma C2_level_up_witness :
  awardAll silent 5 7 session (signedIn jane60) = Ret tt afterSession
  /\ published LevelUp (trace afterSession) = [3; 5]
  /\ (exists fired,
        published LevelUp (trace afterSession)
          = published LevelUp (trace (signedIn jane60)) ++ fired
        /\ StronglySorted Z.lt fired /\ NoDup fired)
  /\ awardAll silent 5 7 session staleMark = Ret tt afterStaleSession
  /\ published LevelUp (trace afterStaleSession) = [2; 3; 5]
  /\ exists fired,
       published LevelUp (trace afterStaleSession)
         = published LevelUp (trace staleMark) ++ fired
       /\ StronglySorted Z.lt fired /\ NoDup fired
       /\ Forall (fun x => 1 < x) fired.
Proof.
  assert (Hrun : awardAll silent 5 7 session (signedIn jane60)
                 = Ret tt afterSession) by (vm_compute; reflexivity).
  assert (Hstale : awardAll silent 5 7 session staleMark
                   = Ret tt afterStaleSession) by (vm_compute; reflexivity).
  split; [exact Hrun |]. split; [vm_compute; reflexivity |].
  split.
  { destruct (proj1 (C2_level_up_once_per_level silent 5 7 session
                       (signedIn jane60) afterSession jane60
                       eq_refl eq_refl Hrun))
      as (fired & Hp & Hs & Hn & _).
    exists fired. split_and!; [exact Hp | exact Hs | exact Hn]. }
  split; [exact Hstale |]. split; [vm_compute; reflexivity |].
  destruct (proj1 (C2_level_up_once_per_level silent 5 7 session
                     staleMark afterStaleSession jane60
                     eq_refl eq_refl Hstale))
    as (fired & Hp & Hs & Hn & Hb).
  exists fired. split_and!; [exact Hp | exact Hs | exact Hn |].
  apply Hb. vm_compute. reflexivity.
Defined.

End LevelUpExamples.

(** ** Notification bus: the array a delivery walks *)

Section BusArrays.
Import Auth.

Variable r0 : loc.
Variable ch : Channel.

Lemma wf_iterating w : wf w -> iterating (chanRef ch w) ch w.
Proof.
  intros (H1 & H2 & H3). unfold iterating.
  destruct ch; simpl; split_and!; done.
Qed.

Lemma chanRef_other_ne c : c <> ch -> c = otherChannel ch.
Proof. destruct c, ch; simpl; congruence. Qed.

Lemma readArray_push_same r l w :
  readArray r (push r l w) = readArray r w ++ [l].
Proof. unfold readArray, push. simpl. by rewrite lookup_insert_eq. Qed.

Lemma readArray_push_other r r' l w :
  r <> r' -> readArray r' (push r l w) = readArray r' w.
Proof.
  intros Hne. unfold readArray, push. simpl. by rewrite lookup_insert_ne.
Qed.

(** A registration leaves the walked array alone or appends to it; it
    appends exactly when it is made on [ch] while [ch] still points to
    the walked array. *)
Lemma subscribe_array c l w :
  iterating r0 ch w ->
  iterating r0 ch (subscribe c l w)
  /\ chanRef ch (subscribe c l w) = chanRef ch w
  /\ readArray r0 (subscribe c l w)
       = readArray r0 w
         ++ (if decide (c = ch /\ chanRef ch w = r0) then [l] else []).
Proof.
  intros Hit. split; [exact Hit |]. split; [by destruct ch |].
  unfold subscribe.
  destruct (decide (c = ch /\ chanRef ch w = r0)) as [[-> Hr] | Hn].
  - rewrite Hr. apply readArray_push_same.
  - rewrite app_nil_r. apply readArray_push_other.
    intros Heq. destruct (decide (c = ch)) as [-> | Hc]; [tauto |].
    apply chanRef_other_ne in Hc. subst c.
    destruct Hit as (_ & _ & _ & Hother & _). done.
Qed.

(** An unsubscription builds a new array: the walked one is untouched. *)
Lemma unsubscribe_array c l w :
  iterating r0 ch w ->
  iterating r0 ch (unsubscribe c l w)
  /\ (c <> ch -> chanRef ch (unsubscribe c l w) = chanRef ch w)
  /\ readArray r0 (unsubscribe c l w) = readArray r0 w.
Proof.
  intros (H1 & H2 & H3 & H4 & H5). split_and!.
  - unfold iterating, unsubscribe.
    destruct c, ch; simpl in *; split_and!; lia.
  - intros Hc. by destruct c, ch.
  - unfold readArray, unsubscribe.
    assert (nextLoc w <> r0) by lia.
    destruct c; simpl; by rewrite lookup_insert_ne.
Qed.

Lemma quiet_cons c a acts :
  quiet c (a :: acts) = true ->
  isThrow a = false /\ subscribesOn c a = false /\ quiet c acts = true.
Proof.
  unfold quiet, noThrow, noSubscribe. simpl.
  rewrite !andb_true_iff, !negb_true_iff. tauto.
Qed.

(** What the body of one listener does to the walked array. *)
Lemma runActions_array acts : forall w w',
  iterating r0 ch w ->
  stateOf (runActions acts w) = Some w' ->
  iterating r0 ch w'
  /\ exists extra,
       readArray r0 w' = readArray r0 w ++ extra
       /\ (noSubscribe ch acts = true -> extra = [])
       /\ (chanRef ch w = r0 -> keepsArray ch acts = true ->
           chanRef ch w' = r0
           /\ (runActions acts w = Ret tt w' ->
               forall l', In (ASubscribe ch l') acts -> In l' extra)).
Proof.
  induction acts as [| a acts IH]; intros w w' Hit H; simpl in H.
  - inversion H; subst w'. split; [done |]. exists [].
    rewrite app_nil_r. split_and!; [done | done |].
    intros Hr _. split; [done |]. intros _ l' [].
  - destruct a as [c l | c l | e].
    + destruct (subscribe_array c l w Hit) as (Hit1 & Href1 & Harr1).
      destruct (IH _ _ Hit1 H) as (Hit' & extra & Harr & Hnos & Halias).
      split; [done |].
      exists ((if decide (c = ch /\ chanRef ch w = r0) then [l] else [])
                ++ extra).
      split_and!.
      * rewrite Harr, Harr1. by rewrite <- app_assoc.
      * unfold noSubscribe. simpl.
        rewrite andb_true_iff, negb_true_iff, bool_decide_eq_false.
        intros [Hc Hrest]. rewrite decide_False by tauto.
        simpl. by apply Hnos.
      * intros Hr Hkeep. simpl in Hkeep.
        rewrite Href1 in Halias.
        destruct (Halias Hr Hkeep) as [Hr' Hsubs].
        split; [done |].
        intros Hret l' [Heq | Hin].
        -- inversion Heq; subst c l'.
           rewrite decide_True by done. simpl. by left.
        -- apply in_or_app. right. by apply Hsubs.
    + destruct (unsubscribe_array c l w Hit) as (Hit1 & Href1 & Harr1).
      destruct (IH _ _ Hit1 H) as (Hit' & extra & Harr & Hnos & Halias).
      split; [done |].
      exists extra. split_and!.
      * by rewrite Harr, Harr1.
      * unfold noSubscribe. simpl. exact Hnos.
      * intros Hr Hkeep. simpl in Hkeep.
        rewrite andb_true_iff, negb_true_iff, bool_decide_eq_false in Hkeep.
        destruct Hkeep as [Hc Hkeep].
        rewrite (Href1 Hc) in Halias.
        destruct (Halias Hr Hkeep) as [Hr' Hsubs].
        split; [done |].
        intros Hret l' [Heq | Hin]; [discriminate | by apply Hsubs].
    + inversion H; subst w'. split; [done |]. exists [].
      rewrite app_nil_r. split_and!; [done | done |].
      intros Hr Hkeep. split; [exact Hr |].
      intros Hret. simpl in Hret. discriminate Hret.
Qed.

End BusArrays.

Section BusDelivery.
Import Auth.

Variable code : ListenerId -> Z -> string -> list Action.
Variable r0 : loc.
Variable ch : Channel.
Variable v : Z.
Variable q : string.

Local Abbreviation call := (fun l => Invoked ch l v q).

Lemma runActions_noThrow acts : forall w,
  noThrow acts = true -> exists w', runActions acts w = Ret tt w'.
Proof.
  induction acts as [| a acts IH]; intros w H; simpl.
  - by eexists.
  - unfold noThrow in H. simpl in H. apply andb_true_iff in H as [Ha H].
    destruct a; simpl in Ha; [apply IH, H | apply IH, H | discriminate].
Qed.

Lemma runActions_throws acts1 e acts2 : forall w,
  noThrow acts1 = true ->
  exists w', runActions (acts1 ++ AThrow e :: acts2) w = Throw e w'.
Proof.
  induction acts1 as [| a acts IH]; intros w H; simpl.
  - by eexists.
  - unfold noThrow in H. simpl in H. apply andb_true_iff in H as [Ha H].
    destruct a; simpl in Ha; [apply IH, H | apply IH, H | discriminate].
Qed.

Lemma forOf_S fuel r i body w :
  forOf (S fuel) r i body w
  = match readArray r w !! i with
    | None => Ret tt w
    | Some l =>
        match body l w with
        | Ret _ w' => forOf fuel r (S i) body w'
        | Throw e w' => Throw e w'
        | OutOfFuel => OutOfFuel
        end
    end.
Proof. reflexivity. Qed.

(** A delivery that returns called, in order, everything the walked array
    holds from index [i] on once the loop is over: what was there at the
    start and what was appended meanwhile. *)
Lemma forOf_live fuel : forall i w w',
  iterating r0 ch w ->
  forOf fuel r0 i (callListener code ch v q) w = Ret tt w' ->
  exists extra,
    readArray r0 w' = readArray r0 w ++ extra
    /\ trace w' = trace w ++ (call <$> drop i (readArray r0 w ++ extra))
    /\ (chanRef ch w = r0 ->
        (forall l, keepsArray ch (code l v q) = true) ->
        forall l l', In l (drop i (readArray r0 w ++ extra)) ->
                     In (ASubscribe ch l') (code l v q) -> In l' extra).
Proof.
  induction fuel as [| fuel IH]; intros i w w' Hit H; simpl in H; [done |].
  destruct (readArray r0 w !! i) as [l |] eqn:Hl.
  - destruct (callListener code ch v q l w) as [[] w1 | |] eqn:Hc;
      [| done | done].
    assert (Hs : stateOf (callListener code ch v q l w) = Some w1)
      by (by rewrite Hc).
    destruct (callListener_frame code ch v q l w w1 Hs) as (_ & _ & Ht).
    unfold callListener in Hs, Hc.
    destruct (runActions_array r0 ch (code l v q)
                (emit (Invoked ch l v q) w) w1 Hit Hs)
      as (Hit1 & e1 & Harr1 & _ & Halias1).
    change (readArray r0 (emit (Invoked ch l v q) w))
      with (readArray r0 w) in Harr1.
    destruct (IH (S i) w1 w' Hit1 H) as (e2 & Harr2 & Ht2 & Halias2).
    exists (e1 ++ e2).
    assert (Hdrop : drop i (readArray r0 w ++ e1 ++ e2)
                    = l :: drop (S i) (readArray r0 w ++ e1 ++ e2)).
    { apply drop_S. by apply lookup_app_l_Some. }
    split_and!.
    + by rewrite Harr2, Harr1, <- app_assoc.
    + rewrite Hdrop, Ht2, Ht, Harr1, <- !app_assoc. done.
    + intros Hr Hkeep l0 l' Hin Hsub. rewrite Hdrop in Hin.
      destruct Hin as [<- | Hin].
      * apply in_or_app. left.
        destruct (Halias1 Hr (Hkeep l)) as [_ Hs1]. by apply Hs1.
      * apply in_or_app. right.
        destruct (Halias1 Hr (Hkeep l)) as [Hr1 _].
        apply (Halias2 Hr1 Hkeep l0 l'); [| done].
        by rewrite Harr1, <- app_assoc.
  - inversion H; subst w'. exists []. rewrite app_nil_r.
    rewrite drop_ge by (by apply lookup_ge_None).
    split_and!; [done | by rewrite app_nil_r |].
    intros _ _ l l' [].
Qed.

(** Bodies that neither throw nor register on [ch]: the loop ends after
    the listeners that were there, each called once. *)
Lemma forOf_quiet todo : forall done fuel w,
  iterating r0 ch w ->
  readArray r0 w = done ++ todo ->
  (forall l, In l todo -> quiet ch (code l v q) = true) ->
  (length todo < fuel)%nat ->
  exists w',
    forOf fuel r0 (length done) (callListener code ch v q) w = Ret tt w'
    /\ trace w' = trace w ++ (call <$> todo)
    /\ readArray r0 w' = done ++ todo.
Proof.
  induction todo as [| x todo IH]; intros done fuel w Hit Harr Hq Hfuel;
    (destruct fuel as [| fuel]; [simpl in Hfuel; lia |]); rewrite forOf_S.
  - rewrite Harr, app_nil_r.
    rewrite (proj2 (lookup_ge_None done (length done))) by lia.
    eexists. split_and!; [done | | by rewrite Harr, app_nil_r].
    by rewrite app_nil_r.
  - rewrite Harr, list_lookup_middle by done.
    assert (Hqx : quiet ch (code x v q) = true) by (apply Hq; by left).
    unfold quiet in Hqx. apply andb_true_iff in Hqx as [Hnt Hns].
    destruct (runActions_noThrow (code x v q)
                (emit (Invoked ch x v q) w) Hnt) as [w1 Hrun].
    assert (Hcall : callListener code ch v q x w = Ret tt w1) by exact Hrun.
    rewrite Hcall.
    assert (Hs : stateOf (runActions (code x v q)
                            (emit (Invoked ch x v q) w)) = Some w1)
      by (by rewrite Hrun).
    destruct (runActions_frame _ _ _ Hs) as (_ & _ & Ht).
    destruct (runActions_array r0 ch (code x v q)
                (emit (Invoked ch x v q) w) w1 Hit Hs)
      as (Hit1 & extra & Harr1 & Hnos & _).
    rewrite (Hnos Hns), app_nil_r in Harr1.
    change (readArray r0 (emit (Invoked ch x v q) w))
      with (readArray r0 w) in Harr1.
    destruct (IH (done ++ [x]) fuel w1 Hit1) as (w' & Hloop & Ht' & Harr').
    + by rewrite Harr1, Harr, <- app_assoc.
    + intros l Hl. apply Hq. by right.
    + simpl in Hfuel. lia.
    + rewrite length_app in Hloop. simpl in Hloop.
      rewrite Nat.add_1_r in Hloop.
      exists w'. split_and!; [done | |].
      * rewrite Ht', Ht. simpl. by rewrite <- app_assoc.
      * by rewrite Harr', <- app_assoc.
Qed.

(** Bodies before [l] that do not throw, then [l] throws [e]: the loop
    stops with [e] right after calling [l]. *)
Lemma forOf_throw pre : forall done post fuel w l e acts1 acts2,
  iterating r0 ch w ->
  readArray r0 w = done ++ pre ++ l :: post ->
  (forall x, In x pre -> noThrow (code x v q) = true) ->
  code l v q = acts1 ++ AThrow e :: acts2 ->
  noThrow acts1 = true ->
  (length pre < fuel)%nat ->
  exists w',
    forOf fuel r0 (length done) (callListener code ch v q) w = Throw e w'
    /\ trace w' = trace w ++ (call <$> (pre ++ [l])).
Proof.
  induction pre as [| x pre IH];
    intros done post fuel w l e acts1 acts2 Hit Harr Hq Hcode Hnt Hfuel;
    (destruct fuel as [| fuel]; [simpl in Hfuel; lia |]); rewrite forOf_S.
  - simpl in Harr. rewrite Harr, list_lookup_middle by done.
    destruct (runActions_throws acts1 e acts2
                (emit (Invoked ch l v q) w) Hnt) as [w1 Hrun].
    assert (Hcall : callListener code ch v q l w = Throw e w1)
      by (unfold callListener; by rewrite Hcode).
    rewrite Hcall. exists w1. split; [done |].
    assert (Hs : stateOf (runActions (acts1 ++ AThrow e :: acts2)
                            (emit (Invoked ch l v q) w)) = Some w1)
      by (by rewrite Hrun).
    by destruct (runActions_frame _ _ _ Hs) as (_ & _ & Ht).
  - simpl in Harr. rewrite Harr, list_lookup_middle by done.
    assert (Hntx : noThrow (code x v q) = true) by (apply Hq; by left).
    destruct (runActions_noThrow (code x v q)
                (emit (Invoked ch x v q) w) Hntx) as [w1 Hrun].
    assert (Hcall : callListener code ch v q x w = Ret tt w1) by exact Hrun.
    rewrite Hcall.
    assert (Hs : stateOf (runActions (code x v q)
                            (emit (Invoked ch x v q) w)) = Some w1)
      by (by rewrite Hrun).
    destruct (runActions_frame _ _ _ Hs) as (_ & _ & Ht).
    destruct (runActions_array r0 ch (code x v q)
                (emit (Invoked ch x v q) w) w1 Hit Hs)
      as (Hit1 & extra & Harr1 & _ & _).
    change (readArray r0 (emit (Invoked ch x v q) w))
      with (readArray r0 w) in Harr1.
    destruct (IH (done ++ [x]) (post ++ extra) fuel w1 l e acts1 acts2 Hit1)
      as (w' & Hloop & Ht'); [| | done | done | |].
    + rewrite Harr1, Harr.
      repeat (rewrite <- app_assoc || rewrite <- app_comm_cons). done.
    + intros y Hy. apply Hq. by right.
    + simpl in Hfuel. lia.
    + rewrite length_app in Hloop. simpl in Hloop.
      rewrite Nat.add_1_r in Hloop.
      exists w'. split; [done |].
      rewrite Ht', Ht. simpl. by rewrite <- app_assoc.
Qed.

End BusDelivery.

(** ** Notification bus: the claims *)

Section BusClaims.
Import Auth Samples.

(** C6, as stated, fails on its last part: listener 0 registers
    listener 1 while the event is being delivered, and listener 1, which
    was not registered when the event was published, is called with it. *)
Lemma C6_listener_added_during_delivery_is_called :
  exists w',
    notify chained 5 LevelUp 3 2 (subscribeToLevelUp 0%nat initial)
      = Ret tt w'
    /\ listenersOf LevelUp (subscribeToLevelUp 0%nat initial) = [0%nat]
    /\ invoked LevelUp (trace w') = [0%nat; 1%nat].
Proof.
  exists (default initial
            (stateOf (notify chained 5 LevelUp 3 2
                        (subscribeToLevelUp 0%nat initial)))).
  vm_compute. done.
Qed.

(** C6, amended: publishing calls the listeners registered on the
    channel at publish time, once per registration and in registration
    order, with the payload: when their bodies neither throw nor register
    on that channel, these are all the calls.  The loop walks the live
    array, not a copy: a delivery that returns has called everything the
    array holds at the end, the listeners registered at publish time
    first, and as long as no body calls an unsubscribe closure of the
    channel every listener registered on it during the delivery is among
    those called with the event in flight. *)
Theorem C6_delivery_walks_the_live_array
    (code : ListenerId -> Z -> string -> list Action) (ch : Channel)
    (v : Z) (rnd : nat) (w : World) :
  wf w ->
  let q := getRandomQuote rnd in
  let registered := listenersOf ch w in
  ((forall l, In l registered -> quiet ch (code l v q) = true) ->
   forall fuel, (length registered < fuel)%nat ->
   exists w',
     notify code fuel ch v rnd w = Ret tt w'
     /\ trace w' = trace w ++ Published ch v q
                    :: ((fun l => Invoked ch l v q) <$> registered))
  /\ (forall fuel w',
        notify code fuel ch v rnd w = Ret tt w' ->
        exists extra,
          readArray (chanRef ch w) w' = registered ++ extra
          /\ trace w' = trace w ++ Published ch v q
                         :: ((fun l => Invoked ch l v q)
                               <$> (registered ++ extra))
          /\ ((forall l, keepsArray ch (code l v q) = true) ->
              forall l l', In l (registered ++ extra) ->
                           In (ASubscribe ch l') (code l v q) ->
                           In l' extra)).
Proof.
  intros Hwf q registered.
  pose proof (wf_iterating ch w Hwf) as Hit.
  split.
  - intros Hq fuel Hfuel.
    destruct (forOf_quiet code (chanRef ch w) ch v q registered [] fuel
                (emit (Published ch v q) w) Hit eq_refl Hq Hfuel)
      as (w' & Hloop & Ht & _).
    exists w'. split; [exact Hloop |].
    rewrite Ht. simpl. by rewrite <- app_assoc.
  - intros fuel w' H.
    destruct (forOf_live code (chanRef ch w) ch v q fuel 0%nat
                (emit (Published ch v q) w) w' Hit H)
      as (extra & Harr & Ht & Hsub).
    exists extra. split_and!.
    + exact Harr.
    + rewrite Ht. simpl. by rewrite <- app_assoc.
    + intros Hkeep. apply (Hsub eq_refl Hkeep).
Qed.

Lemma C6_delivery_witness :
  wf twoListeners
  /\ (exists w',
        notify silent 5 LevelUp 3 2 twoListeners = Ret tt w'
        /\ trace w'
           = [Published LevelUp 3 "Level up your impact!";
              Invoked LevelUp 0%nat 3 "Level up your impact!";
              Invoked LevelUp 1%nat 3 "Level up your impact!"])
  /\ (exists w' extra,
        notify chained 5 LevelUp 3 2 (subscribeToLevelUp 0%nat initial)
          = Ret tt w'
        /\ readArray 0%nat w' = [0%nat] ++ extra
        /\ In 1%nat extra).
Proof.
  assert (Hwf : wf twoListeners) by (vm_compute; lia).
  split; [exact Hwf |]. split.
  - apply (proj1 (C6_delivery_walks_the_live_array silent LevelUp 3 2
                    twoListeners Hwf)).
    + intros l _. reflexivity.
    + vm_compute. lia.
  - assert (Hwf1 : wf (subscribeToLevelUp 0%nat initial))
      by (vm_compute; lia).
    assert (Hrun : notify chained 5 LevelUp 3 2
                     (subscribeToLevelUp 0%nat initial)
                   = Ret tt (default initial
                               (stateOf (notify chained 5 LevelUp 3 2
                                  (subscribeToLevelUp 0%nat initial)))))
      by (vm_compute; reflexivity).
    destruct (proj2 (C6_delivery_walks_the_live_array chained LevelUp 3 2
                       (subscribeToLevelUp 0%nat initial) Hwf1) _ _ Hrun)
      as (extra & Harr & _ & Hsub).
    eexists _, extra. split; [exact Hrun |]. split; [exact Harr |].
    apply (Hsub (fun l => match l with O => eq_refl | S _ => eq_refl end)
             0%nat 1%nat).
    + left. reflexivity.
    + left. reflexivity.
Defined.

(** C7, as stated, fails: listener 0 throws, and listener 1, registered
    after it on the same channel, is not called for that event. *)
Lemma C7_later_listener_is_skipped :
  exists w',
    notify faulty 5 LevelUp 3 2 twoListeners
      = Throw {| message := "listener failed" |} w'
    /\ listenersOf LevelUp twoListeners = [0%nat; 1%nat]
    /\ invoked LevelUp (trace w') = [0%nat].
Proof.
  exists (default initial
            (stateOf (notify faulty 5 LevelUp 3 2 twoListeners))).
  vm_compute. done.
Qed.

(** C7, amended: when a listener throws during the delivery of an event
    (the ones registered before it did not), the exception leaves the
    publish call: the listeners before it and the one that threw were
    called, and no listener after it is called for that event. *)
Theorem C7_listener_exception_ends_delivery
    (code : ListenerId -> Z -> string -> list Action) (fuel : nat)
    (ch : Channel) (v : Z) (rnd : nat) (w : World)
    (pre post : list ListenerId) (l : ListenerId) (e : JsError)
    (acts1 acts2 : list Action) :
  wf w ->
  let q := getRandomQuote rnd in
  listenersOf ch w = pre ++ l :: post ->
  (forall x, In x pre -> noThrow (code x v q) = true) ->
  code l v q = acts1 ++ AThrow e :: acts2 ->
  noThrow acts1 = true ->
  (length pre < fuel)%nat ->
  exists w',
    notify code fuel ch v rnd w = Throw e w'
    /\ trace w' = trace w ++ Published ch v q
                   :: ((fun x => Invoked ch x v q) <$> (pre ++ [l]))
    /\ invoked ch (trace w') = invoked ch (trace w) ++ pre ++ [l].
Proof.
  intros Hwf q Hreg Hpre Hcode Hnt Hfuel.
  pose proof (wf_iterating ch w Hwf) as Hit.
  destruct (forOf_throw code (chanRef ch w) ch v q pre [] post fuel
              (emit (Published ch v q) w) l e acts1 acts2
              Hit Hreg Hpre Hcode Hnt Hfuel) as (w' & Hloop & Ht).
  exists w'. split; [exact Hloop |].
  assert (Htrace : trace w' = trace w ++ Published ch v q
                     :: ((fun x => Invoked ch x v q) <$> (pre ++ [l]))).
  { rewrite Ht. simpl. by rewrite <- app_assoc. }
  split; [exact Htrace |].
  rewrite Htrace, invoked_app. f_equal.
  change (Published ch v q :: ?t) with ([Published ch v q] ++ t).
  rewrite invoked_app, invoked_calls. done.
Qed.

Lemma C7_exception_witness :
  wf twoListeners
  /\ (exists w',
        notify faulty 5 LevelUp 3 2 twoListeners
          = Throw {| message := "listener failed" |} w'
        /\ invoked LevelUp (trace w') = [0%nat]).
Proof.
  assert (Hwf : wf twoListeners) by (vm_compute; lia).
  split; [exact Hwf |].
  destruct (C7_listener_exception_ends_delivery faulty 5 LevelUp 3 2
              twoListeners [] [1%nat] 0%nat
              {| message := "listener failed" |} [] [] Hwf)
    as (w' & Hrun & _ & Hinv).
  - vm_compute. reflexivity.
  - intros x [].
  - reflexivity.
  - reflexivity.
  - vm_compute. lia.
  - exists w'. split; [exact Hrun |]. rewrite Hinv. vm_compute. reflexivity.
Defined.

End BusClaims.

(** ** Issue store: examples *)

Section IssueStoreExamples.
Import Issues IssueSamples.

Lemma C8_fetch_failure_witness :
  exists s',
    fetchIssues (Raised {| message := "" |}) cacheAB = Ret tt s'
    /\ issues s' = [issueA; issueB]
    /\ error s' = Some "Failed to fetch issues"%string
    /\ loading s' = false.
Proof.
  destruct (C8_fetch_failure_keeps_cache (Raised {| message := "" |}) cacheAB
              {| message := "" |} eq_refl)
    as (s' & Hrun & Hissues & Herr & _ & Hload & _).
  exists s'. split_and!; [exact Hrun | exact Hissues | exact Herr | exact Hload].
Defined.

Lemma C10_status_update_witness :
  exists s',
    updateIssueStatus "a1" resolved (Some clerk) "2025-05-02T08:00:00.000Z"
      refused accepted cacheAB = Ret tt s'
    /\ error s' = Some "permission denied"%string
    /\ issues s' = [issueA; issueB]
    /\ ndryshimet s' = [].
Proof.
  destruct (proj1 (C10_status_update_failure_is_swallowed "a1" resolved
                     (Some clerk) "2025-05-02T08:00:00.000Z" refused accepted
                     cacheAB {| message := "permission denied" |} eq_refl))
    as (s' & Hrun & Herr & _ & Hissues & Haudit).
  exists s'. split_and!; [exact Hrun | exact Herr | exact Hissues | exact Haudit].
Defined.

(** The same update when the backend accepts it: the cached issue is
    resolved and the audit row records the transition. *)
Example status_update_accepted :
  exists s',
    updateIssueStatus "a1" resolved (Some clerk) "2025-05-02T08:00:00.000Z"
      accepted accepted cacheAB = Ret tt s'
    /\ status <$> issues s' = [resolved; in_progress]
    /\ (fun n => (old_value n, new_value n)) <$> ndryshimet s'
       = [(Some open, resolved)].
Proof. eexists. split; [reflexivity |]. split; reflexivity. Qed.

End IssueStoreExamples.

(** ** The like handlers *)

Section LikeFacts.
Import Likes LikeSamples Samples.

(** [LikeButton]: one request, the [toggle_like] procedure, and the local
    count and flag are the ones it returned. *)
Lemma LikeButton_handleLike_uses_returned_values
    (issueId : string) (hasOnUpdate : bool) (u : User)
    (first : ToggleRow) (rest : list ToggleRow) (v : View) :
  perdorues_id u <> 0 ->
  exists v',
    LikeButton_handleLike issueId hasOnUpdate (Some u)
      (Settled {| data := Some (first :: rest); error := None |}) v
      = Ret tt v'
    /\ likeCount v' = like_count first
    /\ isLiked v' = liked first
    /\ isLoading v' = false
    /\ effects v'
       = effects v ++ RpcToggleLike issueId (perdorues_id u)
           :: (if hasOnUpdate then [OnUpdate (like_count first)] else []).
Proof.
  intros Hid. unfold LikeButton_handleLike, loggedInId.
  rewrite decide_False by done.
  eexists. split; [reflexivity |].
  destruct hasOnUpdate; simpl; split_and!; try done.
  by rewrite <- app_assoc.
Qed.

(** [IssueDetailModal]: whatever the backend answers, the handler never
    calls [toggle_like]; it picks delete or insert from the local flag. *)
Lemma IssueDetailModal_handleLike_never_toggles
    (toUUID : string -> string) (issue_id : string) (hasOnLikeUpdate : bool)
    (user : option User) (mutationResp : Await (Response unit))
    (xpResp : Await unit) (countResp : Await CountResponse) (v v' : View) :
  existsb isToggleRpc (effects v) = false ->
  stateOf (IssueDetailModal_handleLike toUUID issue_id hasOnLikeUpdate user
             mutationResp xpResp countResp v) = Some v' ->
  existsb isToggleRpc (effects v') = false.
Proof.
  intros Hv H. unfold IssueDetailModal_handleLike in H.
  destruct (loggedInId user) as [uid |]; [| by inversion H; subst].
  destruct (isLiked v);
    destruct mutationResp as [[md [me |]] | me];
    destruct xpResp as [[] | xe];
    destruct countResp as [[c [ce |]] | ce];
    destruct hasOnLikeUpdate;
    simpl in H; inversion H; subst; simpl;
    rewrite ?existsb_app, ?Hv; reflexivity.
Qed.

(** C9 at the failing input: Jane, not liked as far as the modal knows,
    presses like on the issue 6f9619ff-8b86-4d01-b42d-00cf4fc964ff and
    every request succeeds.  The id has a dash, so the modal's [toUUID]
    hands it on as it is, whatever [parseInt] would make of it.  The
    modal sends an insert, the XP award and a separate count query, no
    [toggle_like]; the flag it ends with is the negation of the local
    one, not a returned value, and a second press, taken from that flag,
    sends a delete.  [LikeButton] on the same input sends the one
    procedure call and takes count and flag from its answer. *)
Theorem C9_modal_like_is_check_then_act (digits : string -> string) :
  let issue := "6f9619ff-8b86-4d01-b42d-00cf4fc964ff"%string in
  Handlers.toUUID digits issue = issue
  /\ (exists v',
        IssueDetailModal_handleLike (Handlers.toUUID digits) issue false
          (Some jane60) IssueSamples.accepted (Settled tt) (countIs 1) fresh
        = Ret tt v'
        /\ effects v' = [InsertLike issue 7; AwardXP 7 5; CountLikes issue]
        /\ existsb isToggleRpc (effects v') = false
        /\ isLiked v' = negb (isLiked fresh)
        /\ likeCount v' = 1
        /\ exists v'',
             IssueDetailModal_handleLike (Handlers.toUUID digits) issue false
               (Some jane60) IssueSamples.accepted (Settled tt) (countIs 0) v'
             = Ret tt v''
             /\ effects v''
                = effects v' ++ [DeleteLike issue 7; CountLikes issue]
             /\ isLiked v'' = negb (isLiked v'))
  /\ (exists v',
        LikeButton_handleLike issue false (Some jane60) (toggled 1 true) fresh
          = Ret tt v'
        /\ effects v' = [RpcToggleLike issue 7]
        /\ likeCount v' = 1 /\ isLiked v' = true).
Proof.
  intros issue.
  assert (Hid : Handlers.toUUID digits issue = issue) by reflexivity.
  split; [exact Hid |].
  split.
  - unfold IssueDetailModal_handleLike. rewrite Hid.
    eexists. split; [reflexivity |]. simpl.
    split_and!; try done.
    eexists. split; [reflexivity |]. done.
  - eexists. split; [reflexivity |]. done.
Qed.

End LikeFacts.

(** * Further properties of the code *)

(** ** XP ledger: shape of the level curve *)

Section LedgerShape.
Import Ledger Auth Samples.

(** The level never decreases when XP grows, every 50 XP add exactly one
    level, and the level is at least 1 exactly for non-negative XP (a
    total pushed below zero by a negative delta gets level 0 or less). *)
Theorem calculateLevel_monotone_periodic (xp d k : Z) :
  (0 <= d -> calculateLevel xp <= calculateLevel (xp + d))
  /\ calculateLevel (xp + 50 * k) = calculateLevel xp + k
  /\ (1 <= calculateLevel xp <-> 0 <= xp)
  /\ (calculateLevel (xp + d) = calculateLevel xp <->
      50 * (calculateLevel xp - 1) <= xp + d < 50 * calculateLevel xp).
Proof.
  pose proof (calculateLevel_bounds xp) as Hx.
  pose proof (calculateLevel_bounds (xp + d)) as Hd.
  pose proof (calculateLevel_bounds (xp + 50 * k)) as Hk.
  split_and!.
  - intros H. lia.
  - apply calculateLevel_unique. lia.
  - split; intros H; lia.
  - split; intros H; [rewrite <- H; lia | by apply calculateLevel_unique].
Qed.

Lemma calculateLevel_monotone_witness :
  calculateLevel 45 <= calculateLevel (45 + 10)
  /\ calculateLevel (45 + 50 * 2) = calculateLevel 45 + 2
  /\ calculateLevel (-5) = 0.
Proof.
  destruct (calculateLevel_monotone_periodic 45 10 2) as (Hm & Hp & _).
  split_and!; [apply Hm; lia | exact Hp | reflexivity].
Defined.

(** After a successful award for the signed-in identity the two numbers
    the header shows fit together: adding [getXPToNextLevel] of the cached
    XP reaches exactly the cached level plus one.  For an identity as
    registered (level 0, 0 XP) they do not: 50 more XP is level 2, while
    the header announces level 0 + 1. *)
Theorem xp_to_next_level_matches_cached_level
    (code : ListenerId -> Z -> string -> list Action) (fuel : nat)
    (uid d : Z) (r : XPResponses) (w w' : World) (u : User) :
  user w = Some u -> perdorues_id u = uid ->
  updateUserXP code fuel uid d r w = Ret tt w' ->
  (exists u',
      user w' = Some u'
      /\ calculateLevel (pike_eksperience u'
                         + getXPToNextLevel (pike_eksperience u'))
         = leveli u' + 1)
  /\ (forall v : User,
        leveli v = 0 -> pike_eksperience v = 0 ->
        calculateLevel (pike_eksperience v
                        + getXPToNextLevel (pike_eksperience v))
        = leveli v + 2).
Proof.
  intros Hu Hid H. split.
  - destruct (updateUserXP_current code fuel uid d r w w' u Hu Hid H)
      as (_ & _ & Hu' & _).
    eexists. split; [exact Hu' |]. simpl.
    rewrite getXPToNextLevel_mod. apply calculateLevel_unique.
    unfold calculateLevel.
    pose proof (Z.div_mod (currentXPOf (selectResp r) + d) 50 ltac:(lia)).
    pose proof (Z.mod_pos_bound (currentXPOf (selectResp r) + d) 50
                  ltac:(lia)).
    lia.
  - intros v Hl Hx. rewrite Hl, Hx. reflexivity.
Qed.

Lemma xp_to_next_level_witness :
  exists u',
    user (default initial
            (stateOf (updateUserXP silent 5 7 10 (found 45)
                        (signedIn jane60)))) = Some u'
    /\ calculateLevel (pike_eksperience u'
                       + getXPToNextLevel (pike_eksperience u'))
       = leveli u' + 1.
Proof.
  apply (proj1 (xp_to_next_level_matches_cached_level silent 5 7 10
                  (found 45) (signedIn jane60) _ jane60
                  eq_refl eq_refl eq_refl)).
Defined.

End LedgerShape.

(** ** Notification bus: unsubscribing *)

Section Unsubscribing.
Import Auth Samples.

Lemma filter_ne_absent (l : ListenerId) (ls : list ListenerId) :
  ~ In l ls -> filter (fun x => x <> l) ls = ls.
Proof.
  induction ls as [| x ls IH]; intros Hn; [done |].
  rewrite filter_cons_True.
  - f_equal. apply IH. intros Hin. apply Hn. by right.
  - intros ->. apply Hn. by left.
Qed.

Lemma filter_ne_not_In (l : ListenerId) (ls : list ListenerId) :
  ~ In l (filter (fun x => x <> l) ls).
Proof.
  rewrite <- list_elem_of_In, list_elem_of_filter. intros [Hne _]. done.
Qed.

Lemma listenersOf_unsubscribe ch l w :
  listenersOf ch (unsubscribe ch l w)
  = filter (fun x => x <> l) (listenersOf ch w).
Proof.
  unfold listenersOf at 1, readArray, unsubscribe.
  destruct ch; simpl; by rewrite lookup_insert_eq.
Qed.

Lemma listenersOf_subscribe ch l w :
  listenersOf ch (subscribe ch l w) = listenersOf ch w ++ [l].
Proof.
  unfold listenersOf, subscribe. destruct ch; apply readArray_push_same.
Qed.

Lemma wf_subscribe c l w : wf w -> wf (subscribe c l w).
Proof. intros H. exact H. Qed.

Lemma wf_unsubscribe c l w : wf w -> wf (unsubscribe c l w).
Proof.
  intros (H1 & H2 & H3). unfold wf, unsubscribe.
  destruct c; simpl; split_and!; lia.
Qed.

Lemma listenersOf_subscribe_other ch c l w :
  wf w -> c <> ch -> listenersOf ch (subscribe c l w) = listenersOf ch w.
Proof.
  intros (H1 & H2 & H3) Hc. unfold listenersOf, subscribe.
  replace (chanRef ch (push (chanRef c w) l w)) with (chanRef ch w)
    by (by destruct ch).
  apply readArray_push_other. destruct c, ch; simpl; congruence.
Qed.

Lemma listenersOf_unsubscribe_other ch c l w :
  wf w -> c <> ch -> listenersOf ch (unsubscribe c l w) = listenersOf ch w.
Proof.
  intros (H1 & H2 & H3) Hc. unfold listenersOf, readArray, unsubscribe.
  destruct c, ch; try congruence; simpl;
    rewrite lookup_insert_ne by lia; done.
Qed.

(** Calling the closure returned by [subscribeToLevelUp] /
    [subscribeToXPChange] removes every registration of that listener and
    keeps the others in order; the other channel is untouched; calling it
    again changes nothing; on a listener registered once it undoes the
    subscription, and after two subscriptions of the same listener one
    call removes both. *)
Theorem unsubscribe_removes_every_registration
    (ch : Channel) (l : ListenerId) (w : World) :
  wf w ->
  wf (unsubscribe ch l w)
  /\ listenersOf ch (unsubscribe ch l w)
     = filter (fun x => x <> l) (listenersOf ch w)
  /\ ~ In l (listenersOf ch (unsubscribe ch l w))
  /\ listenersOf (otherChannel ch) (unsubscribe ch l w)
     = listenersOf (otherChannel ch) w
  /\ listenersOf ch (unsubscribe ch l (unsubscribe ch l w))
     = listenersOf ch (unsubscribe ch l w)
  /\ (~ In l (listenersOf ch w) ->
      listenersOf ch (unsubscribe ch l (subscribe ch l w)) = listenersOf ch w)
  /\ listenersOf ch (unsubscribe ch l (subscribe ch l (subscribe ch l w)))
     = listenersOf ch (unsubscribe ch l w).
Proof.
  intros Hwf. split_and!.
  - by apply wf_unsubscribe.
  - apply listenersOf_unsubscribe.
  - rewrite listenersOf_unsubscribe. apply filter_ne_not_In.
  - apply listenersOf_unsubscribe_other; [done | by destruct ch].
  - rewrite (listenersOf_unsubscribe ch l (unsubscribe ch l w)).
    apply filter_ne_absent.
    rewrite listenersOf_unsubscribe. apply filter_ne_not_In.
  - intros Hn.
    rewrite listenersOf_unsubscribe, listenersOf_subscribe, filter_app.
    rewrite filter_ne_absent by done.
    rewrite filter_cons_False by (intros H; by apply H).
    by rewrite filter_nil, app_nil_r.
  - rewrite !listenersOf_unsubscribe, !listenersOf_subscribe, !filter_app.
    rewrite !filter_cons_False by (intros H; by apply H).
    by rewrite filter_nil, !app_nil_r.
Qed.

Lemma unsubscribe_witness :
  wf twoListeners
  /\ listenersOf LevelUp (unsubscribe LevelUp 0%nat twoListeners) = [1%nat]
  /\ listenersOf XPChange (unsubscribe LevelUp 0%nat twoListeners) = [].
Proof.
  assert (Hwf : wf twoListeners) by (vm_compute; lia).
  destruct (unsubscribe_removes_every_registration LevelUp 0%nat
              twoListeners Hwf) as (_ & Hf & _ & Ho & _).
  split_and!; [exact Hwf | |].
  - rewrite Hf. vm_compute. reflexivity.
  - change XPChange with (otherChannel LevelUp). rewrite Ho.
    vm_compute. reflexivity.
Defined.

Variable code : ListenerId -> Z -> string -> list Action.
Variable ch : Channel.
Variable v : Z.
Variable q : string.

(** Bodies that register nothing on [ch]: the listeners of [ch] can only
    go, and the ones a body unsubscribes are gone once it returns. *)
Lemma runActions_shrinks acts : forall w w',
  wf w -> noSubscribe ch acts = true ->
  stateOf (runActions acts w) = Some w' ->
  wf w'
  /\ (forall y, In y (listenersOf ch w') -> In y (listenersOf ch w))
  /\ (runActions acts w = Ret tt w' ->
      forall l, In (AUnsubscribe ch l) acts -> ~ In l (listenersOf ch w')).
Proof.
  induction acts as [| a acts IH]; intros w w' Hwf Hns H; simpl in H.
  - inversion H; subst w'. split_and!; [done | done |]. intros _ l [].
  - unfold noSubscribe in Hns. simpl in Hns.
    apply andb_true_iff in Hns as [Ha Hns].
    destruct a as [c l | c l | e].
    + simpl in Ha. rewrite negb_true_iff, bool_decide_eq_false in Ha.
      destruct (IH _ _ (wf_subscribe c l w Hwf) Hns H) as (Hwf' & Hsub & Hgone).
      rewrite (listenersOf_subscribe_other ch c l w Hwf Ha) in Hsub.
      split_and!; [done | done |].
      intros Hret l' [Heq | Hin]; [discriminate | by apply Hgone].
    + destruct (IH _ _ (wf_unsubscribe c l w Hwf) Hns H)
        as (Hwf' & Hsub & Hgone).
      assert (Hstep : forall y, In y (listenersOf ch (unsubscribe c l w)) ->
                        In y (listenersOf ch w)
                        /\ (c = ch -> y <> l)).
      { intros y Hy. destruct (decide (c = ch)) as [-> | Hc].
        - rewrite listenersOf_unsubscribe in Hy.
          apply list_elem_of_In, list_elem_of_filter in Hy as [Hne Hy].
          split; [by apply list_elem_of_In | done].
        - rewrite (listenersOf_unsubscribe_other ch c l w Hwf Hc) in Hy.
          split; [done | congruence]. }
      split_and!; [done | |].
      * intros y Hy. by apply Hstep, Hsub.
      * intros Hret l' [Heq | Hin]; [| by apply Hgone].
        inversion Heq; subst c l'. intros Hl.
        by destruct (Hstep l (Hsub l Hl)) as [_ Hne]; apply Hne.
    + inversion H; subst w'. split_and!; [done | done |].
      intros Hret. simpl in Hret. discriminate.
Qed.

Lemma forOf_shrinks fuel : forall r i w w',
  (forall x, noSubscribe ch (code x v q) = true) ->
  wf w ->
  forOf fuel r i (callListener code ch v q) w = Ret tt w' ->
  wf w'
  /\ (forall y, In y (listenersOf ch w') -> In y (listenersOf ch w))
  /\ exists called,
       trace w' = trace w ++ ((fun l => Invoked ch l v q) <$> called)
       /\ forall x l, In x called -> In (AUnsubscribe ch l) (code x v q) ->
                      ~ In l (listenersOf ch w').
Proof.
  induction fuel as [| fuel IH]; intros r i w w' Hns Hwf H; simpl in H;
    [done |].
  destruct (readArray r w !! i) as [x |].
  - destruct (callListener code ch v q x w) as [[] w1 | |] eqn:Hc;
      [| done | done].
    unfold callListener in Hc.
    assert (Hs : stateOf (runActions (code x v q)
                            (emit (Invoked ch x v q) w)) = Some w1)
      by (by rewrite Hc).
    destruct (runActions_frame _ _ _ Hs) as (_ & _ & Ht).
    destruct (runActions_shrinks (code x v q) (emit (Invoked ch x v q) w)
                w1 Hwf (Hns x) Hs) as (Hwf1 & Hsub1 & Hgone1).
    destruct (IH r (S i) w1 w' Hns Hwf1 H)
      as (Hwf' & Hsub' & called & Ht' & Hgone').
    split_and!; [done | |].
    + intros y Hy. by apply Hsub1, Hsub'.
    + exists (x :: called). split.
      * rewrite Ht', Ht. simpl. by rewrite <- app_assoc.
      * intros x' l [<- | Hin] Hun; [| by eapply Hgone'].
        intros Hl. by apply (Hgone1 Hc l Hun), Hsub'.
  - inversion H; subst w'. split_and!; [done | done |].
    exists []. split; [by rewrite app_nil_r |]. intros x l [].
Qed.

End Unsubscribing.

Section UnsubscribingClaim.
Import Auth Samples.

(** An unsubscription made by a listener while an event is delivered
    does not touch that delivery: with bodies that neither throw nor
    register on the channel, every listener registered at publish time
    is called, also one that an earlier listener has just unsubscribed.
    It takes effect afterwards: the unsubscribed listener is no longer
    registered when the publish returns, and nobody new is. *)
Theorem unsubscribe_during_delivery_spares_the_event
    (code : ListenerId -> Z -> string -> list Action) (fuel : nat)
    (ch : Channel) (v : Z) (rnd : nat) (w : World) :
  wf w ->
  (forall x, quiet ch (code x v (getRandomQuote rnd)) = true) ->
  (length (listenersOf ch w) < fuel)%nat ->
  exists w',
    notify code fuel ch v rnd w = Ret tt w'
    /\ invoked ch (trace w') = invoked ch (trace w) ++ listenersOf ch w
    /\ (forall x l, In x (listenersOf ch w) ->
          In (AUnsubscribe ch l) (code x v (getRandomQuote rnd)) ->
          ~ In l (listenersOf ch w'))
    /\ (forall y, In y (listenersOf ch w') -> In y (listenersOf ch w)).
Proof.
  intros Hwf Hq Hfuel. set (q := getRandomQuote rnd) in *.
  pose proof (wf_iterating ch w Hwf) as Hit.
  destruct (forOf_quiet code (chanRef ch w) ch v q (listenersOf ch w) []
              fuel (emit (Published ch v q) w) Hit eq_refl
              (fun l _ => Hq l) Hfuel) as (w' & Hloop & Ht & _).
  assert (Hns : forall x, noSubscribe ch (code x v q) = true).
  { intros x. specialize (Hq x). unfold quiet in Hq.
    by apply andb_true_iff in Hq as [_ Hq]. }
  destruct (forOf_shrinks code ch v q fuel (chanRef ch w) 0%nat
              (emit (Published ch v q) w) w' Hns Hwf Hloop)
    as (_ & Hsub & called & Ht2 & Hgone).
  assert (Hcalled : called = listenersOf ch w).
  { rewrite Ht in Ht2. apply app_inv_head in Ht2.
    apply (f_equal (invoked ch)) in Ht2.
    by rewrite !invoked_calls in Ht2. }
  subst called.
  exists w'. split_and!; [exact Hloop | | exact Hgone | exact Hsub].
  rewrite Ht. simpl trace.
  rewrite !invoked_app, invoked_calls. cbn. by rewrite app_nil_r.
Qed.

End UnsubscribingClaim.

Section UnsubscribingExample.
Import Auth Samples MoreSamples.

Lemma unsubscribe_during_delivery_witness :
  exists w',
    notify leaver 5 LevelUp 3 2 twoListeners = Ret tt w'
    /\ invoked LevelUp (trace w') = [0%nat; 1%nat]
    /\ ~ In 1%nat (listenersOf LevelUp w').
Proof.
  assert (Hwf : wf twoListeners) by (vm_compute; lia).
  destruct (unsubscribe_during_delivery_spares_the_event leaver 5 LevelUp 3 2
              twoListeners Hwf)
    as (w' & Hrun & Hinv & Hgone & _).
  - intros [| x]; reflexivity.
  - vm_compute. lia.
  - exists w'. split_and!; [exact Hrun | exact Hinv |].
    apply (Hgone 0%nat 1%nat); left; reflexivity.
Defined.

End UnsubscribingExample.

(** ** The XP award when a listener fails, and right after registration *)

Section AwardEdges.
Import Ledger Auth Samples.

(** When a level-up listener throws, [updateUserXP] fails with its
    exception after the row was written and the last-congratulated mark
    was raised: the cached identity keeps the old XP and level and no
    xp-change event is published, so the stored row and the cache
    disagree and that level will not be announced again. *)
Theorem level_up_listener_failure_keeps_row_and_mark
    (code : ListenerId -> Z -> string -> list Action) (fuel : nat)
    (uid d : Z) (r : XPResponses) (w : World) (u : User)
    (pre post : list ListenerId) (l : ListenerId) (e : JsError)
    (acts1 acts2 : list Action) :
  wf w -> user w = Some u -> perdorues_id u = uid ->
  failureOf (selectResp r) = None -> failureOf (updateResp r) = None ->
  let newXP := currentXPOf (selectResp r) + d in
  let newLevel := calculateLevel newXP in
  let q := getRandomQuote (rndLevelUp r) in
  default (leveli u) (lastCongratulatedLevel w !! uid) < newLevel ->
  listenersOf LevelUp w = pre ++ l :: post ->
  (forall x, In x pre -> noThrow (code x newLevel q) = true) ->
  code l newLevel q = acts1 ++ AThrow e :: acts2 ->
  noThrow acts1 = true ->
  (length pre < fuel)%nat ->
  exists w',
    updateUserXP code fuel uid d r w = Throw e w'
    /\ writtenLevels (trace w') = writtenLevels (trace w) ++ [(newLevel, newXP)]
    /\ lastCongratulatedLevel w' = <[uid := newLevel]> (lastCongratulatedLevel w)
    /\ user w' = Some u
    /\ published XPChange (trace w') = published XPChange (trace w)
    /\ published LevelUp (trace w') = published LevelUp (trace w) ++ [newLevel].
Proof.
  intros Hwf Hu Hid Hsel Hupd newXP newLevel q Hlt Hreg Hpre Hcode Hnt Hfuel.
  set (w1 := set_lastCongratulatedLevel
               (<[uid := newLevel]> (lastCongratulatedLevel w))
               (emit (DbUpdateUser uid newXP newLevel) w)).
  pose proof (wf_iterating LevelUp w Hwf) as Hit.
  destruct (forOf_throw code (chanRef LevelUp w) LevelUp newLevel q pre []
              post fuel (emit (Published LevelUp newLevel q) w1)
              l e acts1 acts2 Hit Hreg Hpre Hcode Hnt Hfuel)
    as (w' & Hloop & _).
  assert (Hn : notifyLevelUp code fuel newLevel (rndLevelUp r) w1
               = Throw e w') by exact Hloop.
  assert (Hrun : updateUserXP code fuel uid d r w = Throw e w').
  { unfold updateUserXP. rewrite Hsel, Hupd. cbn zeta. simpl user.
    rewrite Hu. rewrite decide_True by done.
    simpl lastCongratulatedLevel. fold newXP newLevel.
    rewrite decide_True by done. fold w1. by rewrite Hn. }
  exists w'. split; [exact Hrun |].
  assert (Hs : stateOf (notify code fuel LevelUp newLevel (rndLevelUp r) w1)
               = Some w').
  { unfold notifyLevelUp in Hn. by rewrite Hn. }
  apply notify_frame in Hs as (Hu' & Hm' & Hp' & Hw').
  split_and!.
  - rewrite Hw'. simpl. by rewrite writtenLevels_app.
  - by rewrite Hm'.
  - by rewrite Hu'.
  - rewrite (Hp' XPChange). simpl. rewrite published_app. cbn.
    by rewrite !app_nil_r.
  - rewrite (Hp' LevelUp). simpl. rewrite published_app. cbn.
    by rewrite !app_nil_r.
Qed.

Lemma level_up_listener_failure_witness :
  exists w',
    updateUserXP faulty 5 7 50 (found 60)
      (set_user (Some jane60) twoListeners)
      = Throw {| message := "listener failed" |} w'
    /\ user w' = Some jane60
    /\ lastCongratulatedLevel w' !! 7 = Some 3.
Proof.
  assert (Hwf : wf (set_user (Some jane60) twoListeners))
    by (vm_compute; lia).
  destruct (level_up_listener_failure_keeps_row_and_mark faulty 5 7 50
              (found 60) (set_user (Some jane60) twoListeners) jane60
              [] [1%nat] 0%nat {| message := "listener failed" |} [] []
              Hwf eq_refl eq_refl eq_refl eq_refl)
    as (w' & Hrun & _ & Hmark & Huser & _).
  - vm_compute. reflexivity.
  - vm_compute. reflexivity.
  - intros x [].
  - reflexivity.
  - reflexivity.
  - vm_compute. lia.
  - exists w'. split_and!; [exact Hrun | exact Huser |].
    rewrite Hmark. apply lookup_insert_eq.
Defined.

(** The identity [signUp] puts in the store has the level of the
    returned row, 0 as inserted, so its first successful award that
    leaves XP at 0 or more publishes a level-up event for the new level
    (1 or higher), also when no multiple of 50 XP was crossed. *)
Theorem first_award_after_registration_congratulates
    (code : ListenerId -> Z -> string -> list Action) (fuel : nat)
    (address hashedPassword name now : string) (role : Role)
    (p : User) (o : option User) (w w1 w2 : World) (d : Z) (r : XPResponses) :
  signUp address hashedPassword name role now
    (Settled {| data := Some p; error := None |}) w = Ret o w1 ->
  leveli p = 0 ->
  lastCongratulatedLevel w !! perdorues_id p = None ->
  updateUserXP code fuel (perdorues_id p) d r w1 = Ret tt w2 ->
  0 <= currentXPOf (selectResp r) + d ->
  published LevelUp (trace w2)
    = published LevelUp (trace w)
      ++ [calculateLevel (currentXPOf (selectResp r) + d)]
  /\ 1 <= calculateLevel (currentXPOf (selectResp r) + d).
Proof.
  intros Hsign Hlevel Hmark Haward Hxp.
  unfold signUp in Hsign. simpl in Hsign. inversion Hsign; subst o w1.
  pose proof (calculateLevel_pos _ Hxp) as Hpos.
  split; [| exact Hpos].
  match type of Haward with
  | updateUserXP _ _ _ _ _ ?W = _ =>
      destruct (updateUserXP_current code fuel (perdorues_id p) d r W w2
                  (userOfProfile p) eq_refl eq_refl Haward)
        as (_ & _ & _ & _ & Hp & _)
  end.
  rewrite Hp. simpl lastCongratulatedLevel. rewrite Hmark. simpl.
  rewrite Hlevel. rewrite decide_True by lia.
  simpl trace. rewrite published_app. cbn. by rewrite app_nil_r.
Qed.

Lemma first_award_witness :
  exists w1 w2,
    signUp "jane@example.com" "$2a$10$hash" "Jane" citizen
      "2025-05-01T10:00:00.000Z"
      (Settled {| data := Some jane; error := None |}) initial
      = Ret (Some jane) w1
    /\ updateUserXP silent 5 7 5 (found 0) w1 = Ret tt w2
    /\ published LevelUp (trace w2) = [1].
Proof.
  do 2 eexists. split; [reflexivity |]. split; [reflexivity |].
  exact (proj1 (first_award_after_registration_congratulates silent 5
                  "jane@example.com" "$2a$10$hash" "Jane"
                  "2025-05-01T10:00:00.000Z" citizen jane _ initial _ _ 5
                  (found 0) eq_refl eq_refl eq_refl eq_refl
                  ltac:(vm_compute; discriminate))).
Defined.

End AwardEdges.

(** ** Session actions *)

Section SessionFacts.
Import Ledger Auth Samples MoreSamples Session.

Lemma busUntouched_refl w : busUntouched w w.
Proof. by unfold busUntouched. Qed.

Lemma busUntouched_listeners w w' ch :
  busUntouched w w' -> listenersOf ch w' = listenersOf ch w.
Proof.
  intros (_ & Ha & _ & Hl & Hx & _).
  unfold listenersOf, readArray. destruct ch; simpl; by rewrite ?Hl, ?Hx, Ha.
Qed.

(** [signOut]: a failure is rethrown after the message (or the fallback
    text) went to the store, and the identity stays signed in locally; a
    success clears the identity.  Either way [loading] ends false and the
    last-congratulated marks, the listeners and the trace are as before:
    marks outlive the session they were set in. *)
Theorem signOut_outcomes (resp : Await (option JsError)) (cl : Client) :
  (forall e, resp = Raised e \/ resp = Settled (Some e) ->
     exists cl',
       signOut resp cl = Throw e cl'
       /\ user (world cl') = user (world cl)
       /\ storeError (world cl')
          = Some (orElse (message e) "An error occurred during sign out")
       /\ storeError (world cl') <> Some ""%string)
  /\ (resp = Settled None ->
      exists cl',
        signOut resp cl = Ret tt cl'
        /\ user (world cl') = None /\ storeError (world cl') = None)
  /\ exists cl',
       stateOf (signOut resp cl) = Some cl'
       /\ loading (world cl') = false
       /\ busUntouched (world cl) (world cl')
       /\ calls cl' = calls cl ++ [AuthSignOut].
Proof.
  split_and!.
  - intros e [-> | ->]; eexists; (split; [reflexivity |]); simpl;
      (split_and!; [done | done |]);
      intros [= Hm]; revert Hm; by apply orElse_nonempty.
  - intros ->. eexists. split; [reflexivity |]. done.
  - destruct resp as [[e |] | e]; eexists; (split; [reflexivity |]);
      simpl; (split; [done |]); (split; [by unfold busUntouched | done]).
Qed.

Lemma signOut_witness :
  exists cl',
    signOut (Raised {| message := "offline" |}) janeSignedIn
      = Throw {| message := "offline" |} cl'
    /\ user (world cl') = Some jane60
    /\ storeError (world cl') = Some "offline"%string.
Proof.
  destruct (proj1 (signOut_outcomes (Raised {| message := "offline" |})
                     janeSignedIn) {| message := "offline" |}
              (or_introl eq_refl))
    as (cl' & Hrun & Hu & He & _).
  exists cl'. split_and!; [exact Hrun | exact Hu | exact He].
Defined.

(** [getSession] never throws and always ends with [loading] false.  If
    it stored an error message the identity is the one from before; the
    select by e-mail is sent only for a session with a user, otherwise
    the identity is cleared.  When the session has a user and the select
    returns a row, the identity stored is that row with the id of the
    session's user as [auth_id], level and XP copied as stored; and an
    identity other than the one from before got there in no other way. *)
Theorem getSession_never_throws
    (sessionResp : Await SessionResponse) (userResp : Await (Response User))
    (cl : Client) :
  exists cl',
    getSession sessionResp userResp cl = Ret tt cl'
    /\ loading (world cl') = false
    /\ busUntouched (world cl) (world cl')
    /\ (forall msg, storeError (world cl') = Some msg ->
          user (world cl') = user (world cl) /\ msg <> ""%string)
    /\ (forall s, sessionResp = Settled s -> sessionError s = None ->
          session s ≫= session_user = None ->
          user (world cl') = None
          /\ calls cl' = calls cl ++ [AuthGetSession])
    /\ (forall s au row,
          sessionResp = Settled s -> sessionError s = None ->
          session s ≫= session_user = Some au ->
          failureOf userResp = None -> payloadOf userResp = Some row ->
          user (world cl') = Some (userOfRow row (Some (au_id au)))
          /\ storeError (world cl') = None
          /\ calls cl'
             = calls cl ++ [AuthGetSession; SelectByEmail (au_email au)])
    /\ (forall u', user (world cl') = Some u' ->
          user (world cl') = user (world cl)
          \/ exists s au row,
               sessionResp = Settled s /\ sessionError s = None
               /\ session s ≫= session_user = Some au
               /\ failureOf userResp = None
               /\ payloadOf userResp = Some row
               /\ u' = userOfRow row (Some (au_id au))
               /\ auth_id u' = Some (au_id au)
               /\ leveli u' = leveli row
               /\ pike_eksperience u' = pike_eksperience row).
Proof.
  unfold getSession.
  destruct sessionResp as [s | e];
    [destruct (sessionError s) as [e |] eqn:He;
       [| destruct (session s ≫= session_user) as [au |] eqn:Hau;
          [destruct userResp as [r | e];
             [destruct (error r) as [e |] eqn:Her;
                [| destruct (data r) as [row |] eqn:Hdr] |] |]] |];
    (eexists; split; [reflexivity |]); simpl; split_and!;
    try done;
    try (by unfold busUntouched);
    try (intros msg [= <-]; split; [done | by apply orElse_nonempty]);
    try (intros s' [= <-] He' Hn; first [congruence | done]);
    try (intros s' au' row' Hs He' Hau' Hok Hrow;
         first [ discriminate Hs | discriminate Hok | discriminate Hrow
               | injection Hs as <-; congruence ]);
    try (intros u' Hu'; first [by left | discriminate Hu']).
  - intros s' au' row' [= <-] _ Hau' _ Hrow. simpl in Hrow.
    rewrite Hau in Hau'. injection Hau' as <-.
    rewrite Hdr in Hrow. injection Hrow as <-.
    split_and!; [done | done |]. by rewrite <- app_assoc.
  - intros u' [= <-]. right. exists s, au, row. simpl.
    rewrite Her, Hdr. done.
Qed.

(** Whatever [signIn] sends and however it ends, marks, listeners and
    trace stay as they were; when it throws, so does the identity. *)
Lemma signIn_frame address password rowResp passwordMatch listResp
    signInResp signUpResp updateResp cl cl' :
  stateOf (signIn address password rowResp passwordMatch listResp
             signInResp signUpResp updateResp cl) = Some cl' ->
  busUntouched (world cl) (world cl')
  /\ (forall e, signIn address password rowResp passwordMatch listResp
                  signInResp signUpResp updateResp cl = Throw e cl' ->
                world cl' = world cl).
Proof.
  unfold signIn, finishSignIn.
  destruct rowResp as [[[row |] [re |]] | re]; simpl;
    try (intros [= <-]; split; [by unfold busUntouched | done]).
  destruct passwordMatch as [[] | pe]; simpl;
    try (intros [= <-]; split; [by unfold busUntouched | done]).
  destruct listResp as [users | le]; simpl;
    try (intros [= <-]; split; [by unfold busUntouched | done]).
  destruct (users ≫= List.find _) as [ex |]; simpl.
  - destruct signInResp as [a | se]; simpl;
      try (intros [= <-]; split; [by unfold busUntouched | done]).
    destruct (acceptedUser a) as [au |]; simpl.
    + destruct updateResp as [[] | ue]; simpl;
        intros [= <-]; (split; [by unfold busUntouched | done]).
    + destruct signUpResp as [a2 | se2]; simpl;
        try (intros [= <-]; split; [by unfold busUntouched | done]).
      destruct (acceptedUser a2) as [au |]; simpl;
        [destruct updateResp as [[] | ue]; simpl |];
        intros [= <-]; (split; [by unfold busUntouched | done]).
  - destruct signUpResp as [a2 | se2]; simpl;
      try (intros [= <-]; split; [by unfold busUntouched | done]).
    destruct (acceptedUser a2) as [au |]; simpl;
      [destruct updateResp as [[] | ue]; simpl |];
      intros [= <-]; (split; [by unfold busUntouched | done]).
Qed.

End SessionFacts.

Section SignInFacts.
Import Ledger Auth Samples MoreSamples Session.

(** A [signIn] that throws leaves the whole module state as it was, so
    the identity from before stays in the store.  A missing row and a
    wrong password end with their own messages before anything is asked
    of the auth service: no auth request is sent unless the password
    matched the stored hash. *)
Theorem signIn_failure_changes_nothing
    (address password : string) (rowResp : Await (Response PerdoruesRow))
    (passwordMatch : Await bool) (listResp : Await (option (list AuthUser)))
    (signInResp signUpResp : Await AuthResponse) (updateResp : Await unit)
    (cl : Client) :
  let run := signIn address password rowResp passwordMatch listResp
               signInResp signUpResp updateResp cl in
  (forall e cl', run = Throw e cl' -> world cl' = world cl)
  /\ (forall r, rowResp = Settled r -> error r <> None \/ data r = None ->
        run = Throw {| message := "Invalid email or password" |}
                {| world := world cl;
                   calls := calls cl ++ [SelectByEmail address] |})
  /\ (forall row, rowResp = Settled {| data := Some row; error := None |} ->
        passwordMatch = Settled false ->
        run = Throw {| message := "Invalid password" |}
                {| world := world cl;
                   calls := calls cl ++ [SelectByEmail address]
                              ++ [BcryptCompare password (password_hash row)] |})
  /\ (forall cl', stateOf run = Some cl' ->
        exists new, calls cl' = calls cl ++ new
                    /\ (passwordMatch <> Settled true ->
                        existsb isAuthCall new = false)).
Proof.
  intros run. split_and!.
  - intros e cl' H.
    assert (Hs : stateOf run = Some cl') by (by rewrite H).
    destruct (signIn_frame _ _ _ _ _ _ _ _ _ _ Hs) as [_ Hw].
    by apply (Hw e).
  - intros r -> Hbad. unfold run, signIn.
    destruct (error r) as [e |]; [done |].
    destruct Hbad as [Hbad | ->]; done.
  - intros row -> ->. unfold run, signIn, send. simpl.
    by rewrite <- app_assoc.
  - intros cl'. unfold run, signIn, finishSignIn, send, onWorld.
    destruct rowResp as [[[row |] [re |]] | re]; simpl;
      try (intros [= <-]; eexists; split; [reflexivity | done]).
    destruct passwordMatch as [[] | pe]; simpl;
      try (intros [= <-]; eexists; split;
           [by rewrite <- app_assoc | done]).
    destruct listResp as [users | le]; simpl;
      try (intros [= <-]; eexists; split;
           [by rewrite <- !app_assoc | done]).
    destruct (users ≫= List.find _) as [ex |]; simpl;
      destruct signInResp as [a | se]; simpl;
      destruct signUpResp as [a2 | se2]; simpl;
      try destruct (acceptedUser a) as [au |]; simpl;
      try destruct (acceptedUser a2) as [au2 |]; simpl;
      try destruct updateResp as [[] | ue]; simpl;
      intros [= <-]; eexists; (split; [by rewrite <- !app_assoc | done]).
Qed.

Lemma signIn_failure_witness :
  signIn "jane@example.com" "guess" rowFound (Settled false)
    (Settled None) authRefused authRefused (Settled tt) janeSignedIn
  = Throw {| message := "Invalid password" |}
      {| world := signedIn jane60;
         calls := [SelectByEmail "jane@example.com";
                   BcryptCompare "guess" "$2a$10$hash"] |}.
Proof.
  exact (proj1 (proj2 (proj2
           (signIn_failure_changes_nothing "jane@example.com" "guess"
              rowFound (Settled false) (Settled None) authRefused authRefused
              (Settled tt) janeSignedIn)))
           janeRow eq_refl eq_refl).
Defined.

(** A [signIn] that succeeds found the row and a matching password, and
    the identity it stores is that row: level and XP are copied as
    stored, not recomputed.  It succeeds also when the auth service
    accepts neither the sign-in nor the sign-up: the identity then has
    no auth id and no auth id is written back. *)
Theorem signIn_success_copies_the_row
    (address password : string) (rowResp : Await (Response PerdoruesRow))
    (passwordMatch : Await bool) (listResp : Await (option (list AuthUser)))
    (signInResp signUpResp : Await AuthResponse) (updateResp : Await unit)
    (cl : Client) :
  let run := signIn address password rowResp passwordMatch listResp
               signInResp signUpResp updateResp cl in
  (forall cl', run = Ret tt cl' ->
     exists row aid,
       payloadOf rowResp = Some row
       /\ failureOf rowResp = None
       /\ passwordMatch = Settled true
       /\ user (world cl') = Some (userOfRow (profile row) aid)
       /\ leveli (userOfRow (profile row) aid) = leveli (profile row)
       /\ pike_eksperience (userOfRow (profile row) aid)
          = pike_eksperience (profile row))
  /\ (forall row users a a2,
        rowResp = Settled {| data := Some row; error := None |} ->
        passwordMatch = Settled true ->
        listResp = Settled users ->
        signInResp = Settled a -> acceptedUser a = None ->
        signUpResp = Settled a2 -> acceptedUser a2 = None ->
        exists cl',
          run = Ret tt cl'
          /\ user (world cl') = Some (userOfRow (profile row) None)
          /\ forall p s, ~ In (UpdateAuthId p s) (calls cl')
                         \/ In (UpdateAuthId p s) (calls cl)).
Proof.
  intros run. split.
  - intros cl'. unfold run, signIn, finishSignIn.
    destruct rowResp as [[[row |] [re |]] | re]; simpl; try done.
    destruct passwordMatch as [[] | pe]; simpl; try done.
    destruct listResp as [users | le]; simpl; try done.
    destruct (users ≫= List.find _) as [ex |]; simpl;
      destruct signInResp as [a | se]; simpl; try done;
      destruct signUpResp as [a2 | se2]; simpl; try done;
      try destruct (acceptedUser a) as [au |]; simpl; try done;
      try destruct (acceptedUser a2) as [au2 |]; simpl; try done;
      try destruct updateResp as [[] | ue]; simpl; try done;
      intros [= <-]; eexists row, _; simpl; done.
  - intros row users a a2 -> -> -> -> Ha -> Ha2.
    unfold run, signIn, finishSignIn. simpl.
    destruct (users ≫= List.find _) as [ex |]; simpl; rewrite ?Ha, ?Ha2;
      (eexists; split; [reflexivity |]); simpl; (split; [done |]);
      intros p s;
      (destruct (In_dec (fun x y : Call => ltac:(solve_decision))
                   (UpdateAuthId p s) (calls cl)) as [Hin | Hn];
       [by right | left]);
      rewrite !in_app_iff; simpl; intros H;
      repeat (destruct H as [H | H]; try done; try discriminate).
Qed.

Lemma signIn_success_witness :
  exists cl',
    signIn "jane@example.com" "secret" rowFound (Settled true)
      (Settled None) authRefused authRefused (Settled tt) atStart
      = Ret tt cl'
    /\ user (world cl') = Some jane.
Proof.
  destruct (proj2 (signIn_success_copies_the_row "jane@example.com" "secret"
                     rowFound (Settled true) (Settled None) authRefused
                     authRefused (Settled tt) atStart)
              janeRow None _ _ eq_refl eq_refl eq_refl eq_refl eq_refl
              eq_refl eq_refl)
    as (cl' & Hrun & Hu & _).
  exists cl'. split; [exact Hrun | exact Hu].
Defined.

(** The last-congratulated mark is compared again after a sign-out and
    a new sign-in of the same identity: the next successful award
    publishes a level-up event exactly when its level exceeds the mark
    set before the sign-out, whatever level the row loaded at sign-in
    has.  A level congratulated before is not congratulated twice. *)
Theorem mark_outlives_sign_out_and_sign_in
    (code : ListenerId -> Z -> string -> list Action) (fuel : nat)
    (address password : string) (rowResp : Await (Response PerdoruesRow))
    (passwordMatch : Await bool) (listResp : Await (option (list AuthUser)))
    (signInResp signUpResp : Await AuthResponse) (updateResp : Await unit)
    (cl cl1 cl2 : Client) (u : User) (m d : Z) (r : XPResponses)
    (w3 : World) :
  signOut (Settled None) cl = Ret tt cl1 ->
  signIn address password rowResp passwordMatch listResp
    signInResp signUpResp updateResp cl1 = Ret tt cl2 ->
  user (world cl2) = Some u ->
  lastCongratulatedLevel (world cl) !! perdorues_id u = Some m ->
  updateUserXP code fuel (perdorues_id u) d r (world cl2) = Ret tt w3 ->
  let newLevel := calculateLevel (currentXPOf (selectResp r) + d) in
  published LevelUp (trace w3)
  = published LevelUp (trace (world cl))
    ++ (if decide (m < newLevel) then [newLevel] else []).
Proof.
  intros Hout Hin Hu Hm Haward newLevel.
  assert (Hs1 : busUntouched (world cl) (world cl1)).
  { unfold signOut in Hout. inversion Hout; subst cl1.
    by unfold busUntouched. }
  assert (Hs : stateOf (signIn address password rowResp passwordMatch
                          listResp signInResp signUpResp updateResp cl1)
               = Some cl2) by (by rewrite Hin).
  destruct (signIn_frame _ _ _ _ _ _ _ _ _ _ Hs) as [Hs2 _].
  destruct Hs1 as (Hm1 & _ & _ & _ & _ & Ht1).
  destruct Hs2 as (Hm2 & _ & _ & _ & _ & Ht2).
  destruct (updateUserXP_current code fuel (perdorues_id u) d r (world cl2)
              w3 u Hu eq_refl Haward) as (_ & _ & _ & _ & Hp & _).
  rewrite Hp, Hm2, Hm1, Hm, Ht2, Ht1. done.
Qed.

End SignInFacts.

Section MarkExample.
Import Ledger Auth Samples MoreSamples Session.

Lemma mark_outlives_witness :
  exists cl1 cl2 w3,
    signOut (Settled None) {| world := afterSession; calls := [] |}
      = Ret tt cl1
    /\ signIn "jane@example.com" "secret" rowFound (Settled true)
         (Settled None) authRefused authRefused (Settled tt) cl1 = Ret tt cl2
    /\ updateUserXP silent 5 7 0 (found 220) (world cl2) = Ret tt w3
    /\ published LevelUp (trace w3) = [3; 5].
Proof.
  set (cl := {| world := afterSession; calls := [] |}).
  set (cl1 := default cl (stateOf (signOut (Settled None) cl))).
  set (cl2 := default cl
                (stateOf (signIn "jane@example.com" "secret" rowFound
                            (Settled true) (Settled None) authRefused
                            authRefused (Settled tt) cl1))).
  set (w3 := default initial
               (stateOf (updateUserXP silent 5 7 0 (found 220) (world cl2)))).
  assert (H1 : signOut (Settled None) cl = Ret tt cl1)
    by (vm_compute; reflexivity).
  assert (H2 : signIn "jane@example.com" "secret" rowFound (Settled true)
                 (Settled None) authRefused authRefused (Settled tt) cl1
               = Ret tt cl2) by (vm_compute; reflexivity).
  assert (H3 : updateUserXP silent 5 7 0 (found 220) (world cl2) = Ret tt w3)
    by (vm_compute; reflexivity).
  assert (Hu : user (world cl2) = Some jane) by (vm_compute; reflexivity).
  assert (Hm : lastCongratulatedLevel (world cl) !! perdorues_id jane
               = Some 5) by (vm_compute; reflexivity).
  exists cl1, cl2, w3. split_and!; [exact H1 | exact H2 | exact H3 |].
  rewrite (mark_outlives_sign_out_and_sign_in silent 5 "jane@example.com"
             "secret" rowFound (Settled true) (Settled None) authRefused
             authRefused (Settled tt) cl cl1 cl2 jane 5 0 (found 220) w3
             H1 H2 Hu Hm H3).
  vm_compute. reflexivity.
Defined.

End MarkExample.

(** ** The other actions of the issue store *)

Section IssueActionFacts.
Import Issues IssueSamples IssueActions ActionSamples.

(** [deleteIssue] never throws.  When the delete is accepted the cache
    loses exactly the issues with that id, the others keep their order,
    and an id that is not cached leaves the cache as it is; when it
    fails the cache is untouched and the message is in [error]. *)
Theorem deleteIssue_removes_only_that_id
    (issueId : string) (resp : Await (Response unit)) (d : Desk) :
  exists d',
    deleteIssue issueId resp d = Ret tt d'
    /\ loading (store d') = false
    /\ sent d' = sent d ++ [DeleteIssueRow issueId]
    /\ (failureOf resp = None ->
        error (store d') = None
        /\ issues (store d')
           = List.filter (fun i => negb (bool_decide (id i = issueId)))
               (issues (store d))
        /\ (forall i, In i (issues (store d')) <->
                      In i (issues (store d)) /\ id i <> issueId)
        /\ ((forall i, In i (issues (store d)) -> id i <> issueId) ->
            issues (store d') = issues (store d)))
    /\ (forall e, failureOf resp = Some e ->
          issues (store d') = issues (store d)
          /\ error (store d')
             = Some (orElse (message e) "Failed to delete issue")).
Proof.
  unfold deleteIssue. destruct (failureOf resp) as [e |] eqn:Hf.
  - eexists. split; [reflexivity |]. simpl.
    split_and!; [done | done | done |]. intros e' [= <-]. done.
  - eexists. split; [reflexivity |]. simpl.
    split_and!; [done | done | | done].
    intros _. split_and!; [done | done | |].
    + intros i. rewrite filter_In, negb_true_iff, bool_decide_eq_false.
      done.
    + intros Hnone. induction (issues (store d)) as [| i rest IH]; [done |].
      simpl. rewrite bool_decide_eq_false_2 by (apply Hnone; by left).
      simpl. f_equal. apply IH. intros j Hj. apply Hnone. by right.
Qed.

(** [addIssue] either returns the new issue after putting it at the head
    of the cache, the rest unchanged, or rethrows with the cache
    unchanged, the message in [error] and [loading] false.  Without a
    signed-in identity it throws before any request is sent. *)
Theorem addIssue_prepends_or_rethrows
    (issue : IssueDraft) (authUser : option User) (stamp : string)
    (publicUrlOf : string -> string) (uploadResp : Await (option JsError))
    (rpcResp : Await (Response string)) (rowResp : Await (JsError + IssueRow))
    (d : Desk) :
  let run := addIssue issue authUser stamp publicUrlOf uploadResp
               rpcResp rowResp d in
  (forall i d', run = Ret i d' ->
     issues (store d') = i :: issues (store d)
     /\ issues (store d') !! 0%nat = Some i
     /\ loading (store d') = false /\ error (store d') = None
     /\ exists newIssue, rowResp = Settled (inr newIssue)
                         /\ i = withUsername newIssue)
  /\ (forall e d', run = Throw e d' ->
        issues (store d') = issues (store d)
        /\ loading (store d') = false
        /\ error (store d') = Some (orElse (message e) "Failed to add issue"))
  /\ (signedInId authUser = None ->
      exists d',
        run = Throw {| message := "User not authenticated" |} d'
        /\ sent d' = sent d)
  /\ run <> OutOfFuel.
Proof.
  intros run. unfold run, addIssue, uploadImage, failWith.
  destruct (signedInId authUser) as [uid |].
  2:{ split_and!; [done | | | done].
      - intros e d' [= <- <-]. done.
      - intros _. eexists. split; [reflexivity | done]. }
  destruct (d_image_url issue) as [[url | file] |];
    try destruct (decide (MAX_FILE_SIZE < file_size file));
    try destruct (String.prefix "image/" (file_type file));
    try destruct uploadResp as [[ue |] | ue];
    destruct rpcResp as [r | re]; try destruct (responseError r) as [re |];
    destruct rowResp as [[fe | newIssue] | fe]; simpl;
    (split_and!; [| | done | done]);
    try (intros i d' H; discriminate H);
    try (intros e d' H; discriminate H);
    try (intros e d' [= <- <-]; done);
    intros i d' [= <- <-]; (split_and!; try done); by eexists.
Qed.

(** A file above 5 MB, or one whose type does not start with [image/],
    makes [addIssue] throw the matching message before anything is sent:
    no upload and no insert.  A file of exactly 5 MB with an image type
    is uploaded under [issue-images/], named by the stamp and what
    follows the last dot of its name. *)
Theorem addIssue_checks_the_file_first
    (issue : IssueDraft) (authUser : option User) (stamp : string)
    (publicUrlOf : string -> string) (uploadResp : Await (option JsError))
    (rpcResp : Await (Response string)) (rowResp : Await (JsError + IssueRow))
    (d : Desk) (file : File) (uid : Z) :
  let run := addIssue issue authUser stamp publicUrlOf uploadResp
               rpcResp rowResp d in
  d_image_url issue = Some (inr file) ->
  signedInId authUser = Some uid ->
  (5 * 1024 * 1024 < file_size file ->
   exists d',
     run = Throw {| message := "File size too large. Please upload an image smaller than 5MB." |} d'
     /\ sent d' = sent d /\ issues (store d') = issues (store d))
  /\ (file_size file <= 5 * 1024 * 1024 ->
      String.prefix "image/" (file_type file) = false ->
      exists d',
        run = Throw {| message := "Please upload an image file." |} d'
        /\ sent d' = sent d /\ issues (store d') = issues (store d))
  /\ (file_size file <= 5 * 1024 * 1024 ->
      String.prefix "image/" (file_type file) = true ->
      forall d', stateOf run = Some d' ->
        exists rest,
          sent d'
          = sent d
            ++ StorageUpload ("issue-images/" +:+ stamp +:+ "."
                              +:+ fileExt (file_name file)) file :: rest).
Proof.
  intros run Himg Huid. unfold run, addIssue, uploadImage, failWith.
  rewrite Huid, Himg. unfold MAX_FILE_SIZE. split_and!.
  - intros Hbig. rewrite decide_True by lia.
    eexists. split; [reflexivity | done].
  - intros Hok Htype. rewrite decide_False by lia. rewrite Htype. simpl.
    eexists. split; [reflexivity | done].
  - intros Hok Htype. rewrite decide_False by lia. rewrite Htype. simpl.
    intros d'.
    destruct uploadResp as [[ue |] | ue];
      try destruct rpcResp as [r | re]; try destruct (responseError r) as [re |];
      try destruct rowResp as [[fe | newIssue] | fe]; simpl;
      intros [= <-]; simpl; eexists; rewrite <- ?app_assoc; reflexivity.
Qed.

Lemma addIssue_file_witness :
  (exists d',
     addIssue (draft (Some (inr hugePhoto))) (Some clerk) "1714-x9" bucket
       (Settled None) newId (Settled (inr rowC)) deskAB
     = Throw {| message := "File size too large. Please upload an image smaller than 5MB." |} d'
     /\ sent d' = [])
  /\ (forall d',
        stateOf (addIssue (draft (Some (inr photo))) (Some clerk) "1714-x9"
                   bucket (Settled None) newId (Settled (inr rowC)) deskAB)
        = Some d' ->
        exists rest,
          sent d'
          = StorageUpload "issue-images/1714-x9.jpg" photo :: rest).
Proof.
  split.
  - destruct (proj1 (addIssue_checks_the_file_first
                       (draft (Some (inr hugePhoto))) (Some clerk) "1714-x9"
                       bucket (Settled None) newId (Settled (inr rowC))
                       deskAB hugePhoto 3 eq_refl eq_refl)
                ltac:(vm_compute; reflexivity))
      as (d' & Hrun & Hsent & _).
    exists d'. split; [exact Hrun | exact Hsent].
  - intros d' Hd'.
    exact (proj2 (proj2 (addIssue_checks_the_file_first
                           (draft (Some (inr photo))) (Some clerk) "1714-x9"
                           bucket (Settled None) newId (Settled (inr rowC))
                           deskAB photo 3 eq_refl eq_refl))
             ltac:(vm_compute; discriminate) eq_refl d' Hd').
Defined.

Lemma addIssue_prepends_witness :
  exists d',
    addIssue (draft None) (Some clerk) "1714-x9" bucket
      (Settled None) newId (Settled (inr rowC)) deskAB
    = Ret (withUsername rowC) d'
    /\ issues (store d') = [withUsername rowC; issueA; issueB].
Proof.
  eexists. split; [reflexivity |].
  exact (proj1 (proj1 (addIssue_prepends_or_rethrows
                         (draft None) (Some clerk) "1714-x9"
                         bucket (Settled None) newId (Settled (inr rowC))
                         deskAB) _ _ eq_refl)).
Defined.

End IssueActionFacts.

Section FileNames.
Import IssueActions.
Import Stdlib.Strings.Ascii.

Lemma append_nil_l s : EmptyString +:+ s = s.
Proof. reflexivity. Qed.

Lemma append_cons a s t : String a s +:+ t = String a (s +:+ t).
Proof. reflexivity. Qed.

Lemma append_snoc acc c s :
  (acc +:+ String c EmptyString) +:+ s = acc +:+ String c s.
Proof.
  induction acc as [| a acc IH]; rewrite ?append_nil_l, ?append_cons;
    [done | by f_equal].
Qed.

Lemma append_empty_r s : s +:+ EmptyString = s.
Proof.
  induction s as [| a s IH]; rewrite ?append_nil_l, ?append_cons;
    [done | by f_equal].
Qed.

Lemma hasDot_append s t : hasDot (s +:+ t) = hasDot s || hasDot t.
Proof.
  induction s as [| a s IH]; rewrite ?append_nil_l, ?append_cons;
    simpl; [done |].
  by rewrite IH, orb_assoc.
Qed.

Lemma afterLastDot_nodot s : forall acc,
  hasDot s = false -> afterLastDot s acc = acc +:+ s.
Proof.
  induction s as [| c s IH]; intros acc H; simpl.
  - by rewrite append_empty_r.
  - simpl in H. apply orb_false_iff in H as [Hc Hs].
    rewrite Hc. rewrite IH by done. apply append_snoc.
Qed.

Lemma afterLastDot_dot base ext : forall acc,
  afterLastDot (base +:+ String "."%char ext) acc
  = afterLastDot ext EmptyString.
Proof.
  induction base as [| c base IH]; intros acc;
    rewrite ?append_nil_l, ?append_cons; simpl.
  - reflexivity.
  - destruct (Ascii.eqb c "."%char); apply IH.
Qed.

Lemma hasDot_afterLastDot s : forall acc,
  hasDot acc = false -> hasDot (afterLastDot s acc) = false.
Proof.
  induction s as [| c s IH]; intros acc H; simpl; [done |].
  destruct (Ascii.eqb c "."%char) eqn:Hc.
  - by apply IH.
  - apply IH. rewrite hasDot_append, H. simpl. by rewrite Hc.
Qed.

(** The extension [uploadImage] gives the stored file is what follows
    the last dot of the name: it never contains a dot, a name without a
    dot is taken whole, and for [base.ext] with no dot in [ext] it is
    [ext], whatever dots [base] has. *)
Theorem fileExt_is_what_follows_the_last_dot (name base ext : string) :
  hasDot (fileExt name) = false
  /\ (hasDot name = false -> fileExt name = name)
  /\ (hasDot ext = false -> fileExt (base +:+ "." +:+ ext) = ext).
Proof.
  unfold fileExt. split_and!.
  - by apply hasDot_afterLastDot.
  - intros H. by rewrite afterLastDot_nodot.
  - intros H. rewrite append_cons, append_nil_l, afterLastDot_dot.
    by rewrite afterLastDot_nodot.
Qed.

Lemma fileExt_witness :
  fileExt "street.light.jpg" = "jpg"%string
  /\ fileExt "README" = "README"%string.
Proof.
  destruct (fileExt_is_what_follows_the_last_dot "README" "street.light"
              "jpg") as (_ & Hwhole & Hext).
  split; [apply Hext | apply Hwhole]; reflexivity.
Defined.

End FileNames.

Section StatusUpdateFacts.
Import Issues IssueSamples IssueActions ActionSamples.

Lemma fmap_withStatus_ids issueId newStatus (l : list Issue) :
  id <$> ((fun issue => if bool_decide (id issue = issueId)
                        then withStatus newStatus issue else issue) <$> l)
  = id <$> l.
Proof.
  induction l as [| i l IH]; [done |]. cbn [fmap list_fmap] in *.
  f_equal; [| exact IH]. by destruct (bool_decide (id i = issueId)).
Qed.

(** When the backend accepts the status update, the cache keeps the same
    issues in the same order with the same ids: those with the id get the
    new status and nothing else changes.  For an institution one audit
    row is added when its insert is accepted, with the status of the
    first cached issue of that id as old value (none when the issue is
    not cached); an audit insert answered with an error is dropped
    silently, and one that rejects puts a message in [error] while the
    cache keeps the new status. *)
Theorem updateIssueStatus_success_shape
    (issueId : string) (newStatus : Status) (authUser : option User)
    (now : string) (updateResp auditResp : Await (Response unit))
    (s : Store) :
  failureOf updateResp = None ->
  exists s',
    updateIssueStatus issueId newStatus authUser now updateResp auditResp s
      = Ret tt s'
    /\ loading s' = false
    /\ id <$> issues s' = id <$> issues s
    /\ issues s'
       = (fun issue => if bool_decide (id issue = issueId)
                       then withStatus newStatus issue else issue)
           <$> issues s
    /\ (forall i, In i (issues s') -> id i = issueId -> status i = newStatus)
    /\ (forall u, authUser = Some u -> roli u = institution ->
          match auditResp with
          | Settled a =>
              error s' = None
              /\ ndryshimet s'
                 = ndryshimet s
                   ++ match responseError a with
                      | Some _ => []
                      | None =>
                          [{| n_issue_id := issueId;
                              n_perdorues_id := perdorues_id u;
                              n_action := "status_update";
                              old_value :=
                                status <$> List.find
                                  (fun issue => bool_decide (id issue = issueId))
                                  (issues s);
                              new_value := newStatus;
                              n_created_at := now |}]
                      end
          | Raised e =>
              ndryshimet s' = ndryshimet s
              /\ error s'
                 = Some (orElse (message e) "Failed to update issue status")
          end)
    /\ ((forall u, authUser = Some u -> roli u <> institution) ->
        ndryshimet s' = ndryshimet s /\ error s' = None).
Proof.
  intros Hok. unfold updateIssueStatus.
  destruct updateResp as [r |]; simpl in Hok; [| done].
  change (responseError r = None) in Hok. rewrite Hok.
  assert (Hstat : forall l i,
            In i ((fun issue => if bool_decide (id issue = issueId)
                                then withStatus newStatus issue else issue)
                    <$> l) ->
            id i = issueId -> status i = newStatus).
  { intros l i Hin Hid. apply list_elem_of_In, list_elem_of_fmap in Hin
      as (j & -> & _).
    destruct (bool_decide (id j = issueId)) eqn:Hj; [done |].
    apply bool_decide_eq_false in Hj. done. }
  destruct authUser as [u |];
    [destruct (decide (roli u = institution)) as [Hr | Hr];
       [destruct auditResp as [a | ae];
          [destruct (responseError a) eqn:Ha |] |] |];
    (eexists; split; [reflexivity |]); simpl;
    (split; [done |]); (split; [apply fmap_withStatus_ids |]);
    (split; [done |]); (split; [apply Hstat |]).
  - split; [| intros H; by destruct (H u eq_refl)].
    intros u' [= <-] _. simpl. by rewrite app_nil_r.
  - split; [| intros H; by destruct (H u eq_refl)].
    intros u' [= <-] _. done.
  - split; [| intros H; by destruct (H u eq_refl)].
    intros u' [= <-] _. done.
  - split; [intros u' [= <-] Hu'; done | done].
  - split; [intros u' Hu'; discriminate | done].
Qed.

Lemma updateIssueStatus_success_witness :
  exists s',
    updateIssueStatus "zz" resolved (Some clerk) "2025-05-02T08:00:00.000Z"
      accepted accepted cacheAB = Ret tt s'
    /\ issues s' = issues cacheAB
    /\ old_value <$> ndryshimet s' = [None].
Proof.
  destruct (updateIssueStatus_success_shape "zz" resolved (Some clerk)
              "2025-05-02T08:00:00.000Z" accepted accepted cacheAB eq_refl)
    as (s' & Hrun & _ & _ & Hissues & _ & Haudit & _).
  exists s'. split; [exact Hrun |]. split; [exact Hissues |].
  destruct (Haudit clerk eq_refl eq_refl) as [_ ->]. reflexivity.
Defined.

End StatusUpdateFacts.

Section UpdateIssueFacts.
Import Issues IssueSamples IssueActions ActionSamples.

Lemma fmap_withFields_ids issueId f (l : list Issue) :
  id <$> ((fun issue => if bool_decide (id issue = issueId)
                        then withFields f issue else issue) <$> l)
  = id <$> l.
Proof.
  induction l as [| i l IH]; [done |]. cbn [fmap list_fmap] in *.
  f_equal; [| exact IH]. by destruct (bool_decide (id i = issueId)).
Qed.

Lemma withFields_merged issueId f (l : list Issue) i :
  In i ((fun issue => if bool_decide (id issue = issueId)
                      then withFields f issue else issue) <$> l) ->
  id i = issueId ->
  (forall st, f_status f = Some st -> status i = st)
  /\ (forall ds, f_description f = Some ds -> description i = ds)
  /\ (forall c, f_category f = Some c -> category i = c).
Proof.
  intros Hin Hid. apply list_elem_of_In, list_elem_of_fmap in Hin
    as (j & -> & _).
  destruct (bool_decide (id j = issueId)) eqn:Hj.
  - simpl. split_and!; intros x ->; done.
  - apply bool_decide_eq_false in Hj. done.
Qed.

Lemma withFields_others issueId f (l : list Issue) i :
  In i ((fun issue => if bool_decide (id issue = issueId)
                      then withFields f issue else issue) <$> l) ->
  id i <> issueId -> In i l.
Proof.
  intros Hin Hid. apply list_elem_of_In, list_elem_of_fmap in Hin
    as (j & -> & Hj). apply list_elem_of_In.
  destruct (bool_decide (id j = issueId)) eqn:Hb; [| done].
  apply bool_decide_eq_true in Hb. done.
Qed.

(** [updateIssue] either returns the updated row, or rethrows with the
    message in [error].  When it returns, the cache is the old cache with
    the fields sent to the backend spread over every issue of that id and
    every other issue left as it was; the fields sent are the ones given,
    with an image file replaced by the public URL of its upload.  When it
    throws, the cache is as before, unless the row update had been
    accepted and only the audit insert rejected: then the cache keeps the
    merge.  Unlike [updateIssueStatus] and [deleteIssue], a failure
    reaches the caller. *)
Theorem updateIssue_merges_or_rethrows
    (issueId : string) (updatedFields : IssueFields) (authUser : option User)
    (now stamp : string) (publicUrlOf : string -> string)
    (uploadResp : Await (option JsError))
    (updateResp : Await (JsError + Issue))
    (auditResp : Await (Response unit)) (d : Desk) :
  let run := updateIssue issueId updatedFields authUser now stamp
               publicUrlOf uploadResp updateResp auditResp d in
  let fieldsToUpdate :=
    match f_image_url updatedFields with
    | Some (inr file) =>
        withImage
          (publicUrlOf
             ("issue-images/" +:+ (stamp +:+ "." +:+ fileExt (file_name file))))
          updatedFields
    | _ => updatedFields
    end in
  let merged :=
    (fun issue => if bool_decide (id issue = issueId)
                  then withFields fieldsToUpdate issue else issue)
      <$> issues (store d) in
  (forall row d', run = Ret row d' ->
     updateResp = Settled (inr row)
     /\ loading (store d') = false
     /\ error (store d') = None
     /\ issues (store d') = merged
     /\ In (UpdateIssueRow issueId fieldsToUpdate) (sent d')
     /\ id <$> issues (store d') = id <$> issues (store d)
     /\ (forall i, In i (issues (store d')) -> id i <> issueId ->
           In i (issues (store d)))
     /\ forall i, In i (issues (store d')) -> id i = issueId ->
          (forall st, f_status updatedFields = Some st -> status i = st)
          /\ (forall ds, f_description updatedFields = Some ds ->
                description i = ds)
          /\ (forall c, f_category updatedFields = Some c -> category i = c))
  /\ (forall e d', run = Throw e d' ->
        error (store d')
        = Some (orElse (message e) "Failed to update issue")
        /\ loading (store d') = false
        /\ id <$> issues (store d') = id <$> issues (store d)
        /\ (issues (store d') = issues (store d)
            \/ (exists row, updateResp = Settled (inr row))
               /\ (exists ae, auditResp = Raised ae)
               /\ issues (store d') = merged)
        /\ ((forall row, updateResp <> Settled (inr row)) ->
            issues (store d') = issues (store d)))
  /\ run <> OutOfFuel.
Proof.
  intros run fieldsToUpdate merged.
  unfold merged, fieldsToUpdate, run, updateIssue, uploadImage, failWith.
  destruct (f_image_url updatedFields) as [[url | file] |];
    try destruct (decide (MAX_FILE_SIZE < file_size file)) as [Hbig | Hfit];
    try destruct (String.prefix "image/" (file_type file));
    try destruct uploadResp as [[ue |] | ue];
    destruct updateResp as [[ue2 | row] | ue2];
    try destruct authUser as [u |];
    try destruct (decide (roli u = institution)) as [Hinst | Hother];
    try destruct auditResp as [a | ae];
    simpl;
    (split_and!; [| | done]);
    intros x d' H;
    first [ discriminate H
          | inversion H; subst; simpl; split_and!;
            first [ done
                  | apply fmap_withFields_ids
                  | by left
                  | (right; split_and!; [by eexists | by eexists | done])
                  | (apply list_elem_of_In; set_solver)
                  | (intros i Hi Hid; by eapply withFields_others)
                  | (intros i Hi Hid;
                     by destruct (withFields_merged _ _ _ _ Hi Hid)
                       as (H1 & H2 & H3))
                  | (intros Hno; exfalso; by eapply Hno) ] ].
Qed.

Lemma updateIssue_witness :
  exists d',
    updateIssue "a1" fixed (Some clerk) "2025-05-02T08:00:00.000Z" "1714-x9"
      bucket (Settled None) (Settled (inr (withFields fixed issueA)))
      accepted deskAB
    = Ret (withFields fixed issueA) d'
    /\ issues (store d') = [withFields fixed issueA; issueB]
    /\ description <$> issues (store d')
       = ["Fixed"%string; "Pothole"%string].
Proof.
  eexists. split; [reflexivity |].
  destruct (proj1 (updateIssue_merges_or_rethrows "a1" fixed (Some clerk)
              "2025-05-02T08:00:00.000Z" "1714-x9" bucket (Settled None)
              (Settled (inr (withFields fixed issueA))) accepted deskAB)
              _ _ eq_refl) as (_ & _ & _ & Hmerged & _).
  rewrite Hmerged. split; reflexivity.
Defined.

End UpdateIssueFacts.

(** ** The like handlers: XP awards and the loading flag *)

Section LikeHandlerFacts.
Import Likes LikeSamples Samples Handlers.

Lemma awardsOf_app a b : awardsOf (a ++ b) = awardsOf a ++ awardsOf b.
Proof. unfold awardsOf. apply omap_app. Qed.

(** The modal's [handleLike] awards 5 XP exactly when it sent an insert
    that was accepted (whatever happens afterwards) and never when it
    removes a like; the like button's [handleLike] never awards XP.  So
    liking, unliking and liking again in the modal awards twice. *)
Theorem modal_like_awards_on_every_accepted_insert
    (toUUID : string -> string) (issue_id : string) (hasOnLikeUpdate : bool)
    (user : option User) (mutationResp : Await (Response unit))
    (xpResp : Await unit) (countResp : Await CountResponse)
    (resp : Await (Response (list ToggleRow))) (v : View) :
  (forall v',
     stateOf (IssueDetailModal_handleLike toUUID issue_id hasOnLikeUpdate
                user mutationResp xpResp countResp v) = Some v' ->
     awardsOf (effects v')
     = awardsOf (effects v)
       ++ match loggedInId user, isLiked v, failureOf mutationResp with
          | Some uid, false, None => [(uid, 5)]
          | _, _, _ => []
          end)
  /\ (forall v',
        stateOf (LikeButton_handleLike issue_id hasOnLikeUpdate user resp v)
        = Some v' ->
        awardsOf (effects v') = awardsOf (effects v))
  /\ (forall uid c1 c2 c3 v1 v2 v3,
        loggedInId user = Some uid -> isLiked v = false ->
        failureOf mutationResp = None ->
        IssueDetailModal_handleLike toUUID issue_id hasOnLikeUpdate user
          mutationResp (Settled tt) c1 v = Ret tt v1 ->
        IssueDetailModal_handleLike toUUID issue_id hasOnLikeUpdate user
          mutationResp (Settled tt) c2 v1 = Ret tt v2 ->
        IssueDetailModal_handleLike toUUID issue_id hasOnLikeUpdate user
          mutationResp (Settled tt) c3 v2 = Ret tt v3 ->
        awardsOf (effects v3) = awardsOf (effects v) ++ [(uid, 5); (uid, 5)]).
Proof.
  assert (Hmodal : forall mr xr cr w w',
            stateOf (IssueDetailModal_handleLike toUUID issue_id
                       hasOnLikeUpdate user mr xr cr w) = Some w' ->
            awardsOf (effects w')
            = awardsOf (effects w)
              ++ match loggedInId user, isLiked w, failureOf mr with
                 | Some uid, false, None => [(uid, 5)]
                 | _, _, _ => []
                 end
            /\ (forall uid, loggedInId user = Some uid ->
                  failureOf mr = None -> isLiked w' = negb (isLiked w))).
  { intros mr xr cr w w'. unfold IssueDetailModal_handleLike.
    destruct (loggedInId user) as [uid |];
      [| intros [= <-]; by rewrite app_nil_r].
    destruct (isLiked w) eqn:Hl;
      destruct mr as [[md [me |]] | me];
      destruct xr as [[] | xe];
      destruct cr as [[c [ce |]] | ce];
      destruct hasOnLikeUpdate;
      simpl; intros [= <-]; simpl;
      rewrite ?awardsOf_app; simpl; rewrite ?app_nil_r;
      (split; [done | intros u' Hu' Hm; done]). }
  split_and!.
  - intros v' H. by destruct (Hmodal _ _ _ _ _ H) as [Ha _].
  - intros v'. unfold LikeButton_handleLike.
    destruct (loggedInId user) as [uid |];
      [| intros [= <-]; simpl; by rewrite awardsOf_app, app_nil_r].
    destruct resp as [[[[| first rest] |] [re |]] | re];
      destruct hasOnLikeUpdate; simpl; intros [= <-]; simpl;
      rewrite ?awardsOf_app; simpl; by rewrite ?app_nil_r.
  - intros uid c1 c2 c3 v1 v2 v3 Hu Hl Hm H1 H2 H3.
    assert (Hs1 : stateOf (IssueDetailModal_handleLike toUUID issue_id
                             hasOnLikeUpdate user mutationResp (Settled tt)
                             c1 v) = Some v1) by (by rewrite H1).
    assert (Hs2 : stateOf (IssueDetailModal_handleLike toUUID issue_id
                             hasOnLikeUpdate user mutationResp (Settled tt)
                             c2 v1) = Some v2) by (by rewrite H2).
    assert (Hs3 : stateOf (IssueDetailModal_handleLike toUUID issue_id
                             hasOnLikeUpdate user mutationResp (Settled tt)
                             c3 v2) = Some v3) by (by rewrite H3).
    destruct (Hmodal _ _ _ _ _ Hs1) as [Ha1 Hf1].
    destruct (Hmodal _ _ _ _ _ Hs2) as [Ha2 Hf2].
    destruct (Hmodal _ _ _ _ _ Hs3) as [Ha3 _].
    specialize (Hf1 uid Hu Hm). specialize (Hf2 uid Hu Hm).
    rewrite Hl in Hf1. rewrite Hf1 in Hf2. simpl in Hf1, Hf2.
    rewrite Ha3, Ha2, Ha1, Hu, Hm, Hl, Hf1, Hf2. simpl.
    by rewrite app_nil_r, <- app_assoc.
Qed.

End LikeHandlerFacts.

Section LikeHandlerEdges.
Import Likes LikeSamples Samples Handlers.

Lemma modal_like_awards_witness :
  exists v1 v2 v3,
    IssueDetailModal_handleLike (fun s => s) "a1" false (Some jane60)
      IssueSamples.accepted (Settled tt) (countIs 1) fresh = Ret tt v1
    /\ IssueDetailModal_handleLike (fun s => s) "a1" false (Some jane60)
         IssueSamples.accepted (Settled tt) (countIs 0) v1 = Ret tt v2
    /\ IssueDetailModal_handleLike (fun s => s) "a1" false (Some jane60)
         IssueSamples.accepted (Settled tt) (countIs 1) v2 = Ret tt v3
    /\ awardsOf (effects v3) = [(7, 5); (7, 5)].
Proof.
  do 3 eexists. split; [reflexivity |]. split; [reflexivity |].
  split; [reflexivity |].
  exact (proj2 (proj2 (modal_like_awards_on_every_accepted_insert
                         (fun s => s) "a1" false (Some jane60)
                         IssueSamples.accepted (Settled tt) (countIs 1)
                         (toggled 1 true) fresh))
           7 (countIs 1) (countIs 0) (countIs 1) _ _ _
           eq_refl eq_refl eq_refl eq_refl eq_refl eq_refl).
Defined.

(** Both [handleLike] handlers end with the loading flag off whenever
    they got past the sign-in check, whatever failed in between.  When
    the like button's request fails or returns no row, count and flag
    stay as shown.  In the modal a count query that fails after an
    accepted insert leaves the flag flipped and the XP awarded with the
    count not refreshed, and a failing XP award after an accepted insert
    stops before the count query is sent. *)
Theorem like_handlers_always_clear_loading
    (toUUID : string -> string) (issue_id : string) (hasCallback : bool)
    (user : option User) (uid : Z) (mutationResp : Await (Response unit))
    (xpResp : Await unit) (countResp : Await CountResponse)
    (resp : Await (Response (list ToggleRow))) (v : View) :
  loggedInId user = Some uid ->
  (exists v',
     IssueDetailModal_handleLike toUUID issue_id hasCallback user
       mutationResp xpResp countResp v = Ret tt v'
     /\ isLoading v' = false
     /\ (isLiked v = false -> failureOf mutationResp = None ->
         xpResp = Settled tt ->
         (exists e, countResp = Raised e
                    \/ exists c, countResp = Settled c /\ countError c = Some e) ->
         isLiked v' = true /\ likeCount v' = likeCount v
         /\ awardsOf (effects v') = awardsOf (effects v) ++ [(uid, 5)])
     /\ (isLiked v = false -> failureOf mutationResp = None ->
         (exists e, xpResp = Raised e) ->
         isLiked v' = true /\ likeCount v' = likeCount v
         /\ forall i, ~ In (CountLikes i) (effects v')
                      \/ In (CountLikes i) (effects v)))
  /\ (exists v',
        LikeButton_handleLike issue_id hasCallback user resp v = Ret tt v'
        /\ isLoading v' = false
        /\ (failureOf resp <> None \/ payloadOf resp = None
            \/ payloadOf resp = Some [] ->
            likeCount v' = likeCount v /\ isLiked v' = isLiked v)).
Proof.
  intros Hu. split.
  - unfold IssueDetailModal_handleLike. rewrite Hu.
    destruct (isLiked v) eqn:Hl;
      destruct mutationResp as [[md [me |]] | me];
      destruct xpResp as [[] | xe];
      destruct countResp as [[c [ce |]] | ce];
      destruct hasCallback;
      (eexists; split; [reflexivity |]); simpl;
      (split; [done |]);
      (split;
         [intros Hliked Hmut Hxp (e & Hc); try done;
          (destruct Hc as [Hc | (c' & Hc & He)];
           try discriminate Hc; try (inversion Hc; subst c'; simpl in He);
           try discriminate He);
          (split; [done |]); (split; [done |]);
          rewrite !awardsOf_app; simpl; by rewrite ?app_nil_r
         |]);
      intros Hliked Hmut (e & Hx); try done; try discriminate Hx;
      (split; [done |]); (split; [done |]);
      intros i;
      (destruct (In_dec (fun x y : Effect => ltac:(solve_decision))
                   (CountLikes i) (effects v)) as [Hin | Hn];
       [by right | left]);
      rewrite !in_app_iff; simpl; intros H;
      repeat (destruct H as [H | H]; try done; try discriminate).
  - unfold LikeButton_handleLike. rewrite Hu.
    destruct resp as [[[[| first rest] |] [re |]] | re];
      destruct hasCallback;
      (eexists; split; [reflexivity |]); simpl;
      (split; [done |]); intros [H | [H | H]]; done.
Qed.

Lemma like_handlers_loading_witness :
  exists v',
    IssueDetailModal_handleLike (fun s => s) "a1" false (Some jane60)
      IssueSamples.accepted (Settled tt)
      (Raised {| message := "timeout" |}) fresh = Ret tt v'
    /\ isLoading v' = false /\ isLiked v' = true /\ likeCount v' = 0.
Proof.
  destruct (proj1 (like_handlers_always_clear_loading (fun s => s) "a1" false
                     (Some jane60) 7 IssueSamples.accepted (Settled tt)
                     (Raised {| message := "timeout" |}) (toggled 1 true)
                     fresh eq_refl))
    as (v' & Hrun & Hload & Hcount & _).
  exists v'. split; [exact Hrun |]. split; [exact Hload |].
  destruct (Hcount eq_refl eq_refl eq_refl
              (ex_intro _ {| message := "timeout" |} (or_introl eq_refl)))
    as (Hl & Hc & _).
  split; [exact Hl | exact Hc].
Defined.

End LikeHandlerEdges.

(** ** Like counts of the issues page *)

Section LikeCountsFacts.
Import Likes LikeSamples Handlers.

Lemma foldl_counts_absent (rs : list (string * CountResponse)) :
  forall (m : gmap string Z) k,
    ~ In k (fst <$> rs) ->
    foldl (fun counts r => <[r.1 := default 0 (count r.2)]> counts) m rs !! k
    = m !! k.
Proof.
  induction rs as [| [k0 r0] rs IH]; intros m k Hn; [done |].
  simpl. rewrite IH by (intros H; apply Hn; by right).
  apply lookup_insert_ne. intros ->. apply Hn. by left.
Qed.

Lemma foldl_counts_present (rs : list (string * CountResponse)) :
  forall (m : gmap string Z) k r,
    NoDup (fst <$> rs) -> In (k, r) rs ->
    foldl (fun counts r => <[r.1 := default 0 (count r.2)]> counts) m rs !! k
    = Some (default 0 (count r)).
Proof.
  induction rs as [| [k0 r0] rs IH]; intros m k r Hnd Hin; [done |].
  simpl in *. apply NoDup_cons in Hnd as [Hk0 Hnd].
  destruct Hin as [[= -> ->] | Hin].
  - rewrite foldl_counts_absent by (by rewrite <- list_elem_of_In).
    apply lookup_insert_eq.
  - by apply IH.
Qed.

(** [fetchLikeCounts] replaces the count map: every queried issue gets
    the count of its answer, 0 when the answer carries none (a query
    that failed shows as 0 likes), and ids that were not queried are
    dropped from the map.  If awaiting the queries rejects, the map
    stays as it was.  [handleLikeUpdate] then overrides one id only. *)
Theorem fetchLikeCounts_replaces_the_map
    (rs : list (string * CountResponse)) (likeCounts : gmap string Z)
    (e : JsError) :
  NoDup (fst <$> rs) ->
  (forall k r, In (k, r) rs ->
     fetchLikeCounts (Settled rs) likeCounts !! k = Some (default 0 (count r)))
  /\ (forall k r, In (k, r) rs -> count r = None ->
        fetchLikeCounts (Settled rs) likeCounts !! k = Some 0)
  /\ (forall k, ~ In k (fst <$> rs) ->
        fetchLikeCounts (Settled rs) likeCounts !! k = None)
  /\ fetchLikeCounts (Raised e) likeCounts = likeCounts
  /\ (forall k n j,
        handleLikeUpdate k n (fetchLikeCounts (Settled rs) likeCounts) !! j
        = if decide (k = j) then Some n
          else fetchLikeCounts (Settled rs) likeCounts !! j).
Proof.
  intros Hnd. unfold fetchLikeCounts, handleLikeUpdate. split_and!.
  - intros k r Hin. by apply foldl_counts_present.
  - intros k r Hin Hc. rewrite (foldl_counts_present rs ∅ k r Hnd Hin).
    by rewrite Hc.
  - intros k Hn. by rewrite foldl_counts_absent.
  - done.
  - intros k n j. apply lookup_insert.
Qed.

Lemma fetchLikeCounts_witness :
  fetchLikeCounts
    (Settled [("a1"%string, {| count := Some 4; countError := None |});
              ("b2"%string,
               {| count := None;
                  countError := Some {| message := "timeout" |} |})])
    {[ "zz"%string := 9 ]} !! "b2"%string = Some 0.
Proof.
  assert (Hnd : NoDup (fst <$>
            [("a1"%string, {| count := Some 4; countError := None |});
             ("b2"%string,
              {| count := None;
                 countError := Some {| message := "timeout" |} |})])).
  { apply NoDup_cons. split.
    - intros H. apply list_elem_of_In in H. simpl in H.
      destruct H as [H | []]. discriminate H.
    - apply NoDup_cons. split; [intros H; inversion H | apply NoDup_nil_2]. }
  apply (proj1 (proj2 (fetchLikeCounts_replaces_the_map _ {[ "zz"%string := 9 ]}
                         {| message := "timeout" |} Hnd))
           "b2"%string
           {| count := None; countError := Some {| message := "timeout" |} |}).
  - right. left. reflexivity.
  - reflexivity.
Defined.

End LikeCountsFacts.

(** ** The comment form and the id formatting of the modal *)

Section ModalFacts.
Import Likes LikeSamples Samples Handlers.
Import Stdlib.Strings.Ascii.

Variable trim : string -> string.
Variable uuid : string -> string.

(** [handleCommentSubmit] never throws.  Nothing is sent for a blank
    comment or without a signed-in identity.  The 10 XP are awarded only
    after the comment was accepted; the text is cleared only when both
    the insert and the award went through, so when the award fails the
    comment is stored while the form reports a failure and keeps the
    text. *)
Theorem comment_xp_only_after_accepted_insert
    (issue_id : string) (user : option User)
    (addResp : Await (Response unit)) (xpResp : Await unit)
    (f : CommentForm) :
  exists f' new,
    handleCommentSubmit trim uuid issue_id user addResp xpResp f = Ret tt f'
    /\ formCalls f' = formCalls f ++ new
    /\ (loggedInId user = None \/ trim (newComment f) = ""%string ->
        (exists msg, new = [ToastFailure msg])
        /\ newComment f' = newComment f /\ submitting f' = submitting f)
    /\ (forall u x, In (AwardComment u x) new ->
          failureOf addResp = None /\ x = 10 /\ loggedInId user = Some u
          /\ In (RpcAddComment (uuid issue_id) u (trim (newComment f))) new)
    /\ (newComment f' <> newComment f ->
        newComment f' = ""%string /\ failureOf addResp = None
        /\ xpResp = Settled tt
        /\ In (ToastSuccess "Comment posted successfully") new)
    /\ (forall i u c, In (RpcAddComment i u c) new ->
          c <> ""%string /\ submitting f' = false)
    /\ (forall e uid, loggedInId user = Some uid ->
          trim (newComment f) <> ""%string ->
          failureOf addResp = None -> xpResp = Raised e ->
          new = [RpcAddComment (uuid issue_id) uid (trim (newComment f));
                 AwardComment uid 10;
                 ToastFailure (orElse (message e) "Failed to add comment")]
          /\ newComment f' = newComment f).
Proof.
  unfold handleCommentSubmit.
  destruct (loggedInId user) as [uid |] eqn:Hu.
  2:{ do 2 eexists. split; [reflexivity |]. simpl.
      split_and!; try done.
      - intros _. split; [by eexists | done].
      - intros u x [H | []]. discriminate H.
      - intros i u c [H | []]. discriminate H. }
  destruct (trim (newComment f)) as [| c0 content] eqn:Ht.
  { do 2 eexists. split; [reflexivity |]. simpl.
    split_and!; try done.
    - intros _. split; [by eexists | done].
    - intros u x [H | []]. discriminate H.
    - intros i u c [H | []]. discriminate H. }
  destruct (failureOf addResp) as [ae |] eqn:Ha;
    [| destruct xpResp as [[] | xe]];
    (do 2 eexists; split; [reflexivity |]); simpl;
    rewrite <- ?app_assoc; simpl;
    (split; [reflexivity |]);
    (split; [intros [H | H]; discriminate H |]);
    (split;
       [intros u x H;
        repeat (destruct H as [H | H]; try done; try discriminate H);
        inversion H; subst; split_and!; try done; by left |]);
    (split;
       [intros Hne; first [ by destruct Hne
                          | split_and!; try done; right; right; right;
                            by left ] |]);
    (split;
       [intros i u c H;
        repeat (destruct H as [H | H]; try done; try discriminate H);
        inversion H; subst; done |]);
    intros e uid' Hu' _ Ha' Hx; try discriminate Ha'; try discriminate Hx;
    inversion Hu'; inversion Hx; subst; done.
Qed.

Lemma includesDash_append s t :
  includesDash (s +:+ t) = includesDash s || includesDash t.
Proof.
  induction s as [| a s IH]; [done |].
  change (String a s +:+ t) with (String a (s +:+ t)). simpl.
  by rewrite IH, orb_assoc.
Qed.

Lemma length_append s t :
  String.length (s +:+ t) = (String.length s + String.length t)%nat.
Proof.
  induction s as [| a s IH]; [done |].
  change (String a s +:+ t) with (String a (s +:+ t)). simpl. by rewrite IH.
Qed.

Lemma length_zeros n : String.length (zeros n) = n.
Proof. induction n as [| n IH]; [done |]. simpl. by rewrite IH. Qed.

(** [toUUID] leaves an id with a dash as it is and always returns an id
    with a dash, so applying it twice is the same as applying it once;
    an id without a dash becomes the fixed 24-character prefix followed
    by the digits padded to 12: 36 characters when there are at most 12
    digits, longer otherwise. *)
Theorem toUUID_is_idempotent (digits : string -> string) (id : string) :
  (includesDash id = true -> toUUID digits id = id)
  /\ includesDash (toUUID digits id) = true
  /\ toUUID digits (toUUID digits id) = toUUID digits id
  /\ (includesDash id = false ->
      String.length (toUUID digits id)
      = (24 + Nat.max 12 (String.length (digits id)))%nat).
Proof.
  unfold toUUID. destruct (includesDash id) eqn:Hd.
  - rewrite Hd. done.
  - split_and!; [done | | | ].
    + by rewrite includesDash_append.
    + by rewrite includesDash_append.
    + intros _. unfold padStart12.
      rewrite !length_append, length_zeros. simpl. lia.
Qed.

End ModalFacts.

Section ModalExamples.
Import Handlers.

Lemma toUUID_witness :
  toUUID (fun s => s) "42" = "00000000-0000-0000-0000-000000000042"%string
  /\ toUUID (fun s => s) (toUUID (fun s => s) "42") = toUUID (fun s => s) "42".
Proof.
  split; [reflexivity |].
  exact (proj1 (proj2 (proj2 (toUUID_is_idempotent (fun s => s) "42")))).
Defined.

End ModalExamples.

(** ** The reads of the like button *)

Section LikeButtonReads.
Import Likes LikeSamples Samples Handlers.

(** Neither read of the like button throws or touches the other half of
    what is shown.  [fetchLikeCount] keeps the count when its query
    fails and shows 0 for an answer without a count.  [checkIfLiked]
    takes the no-rows error [PGRST116] as "not liked" and sets the flag
    from the returned row, while any other error, a rejection or a
    missing identity leave the flag as it was. *)
Theorem like_button_reads_keep_state_on_failure
    (issueId : string) (hasOnUpdate : bool) (user : option User)
    (countResp : Await CountResponse) (lookup : Await LikeLookup)
    (v : View) :
  (exists v',
     fetchLikeCount issueId hasOnUpdate countResp v = Ret tt v'
     /\ isLiked v' = isLiked v
     /\ (forall c, countResp = Settled c -> countError c = None ->
           likeCount v' = default 0 (count c))
     /\ ((forall c, countResp = Settled c -> countError c <> None) ->
         likeCount v' = likeCount v
         /\ effects v' = effects v ++ [CountLikes issueId]))
  /\ (exists v',
        checkIfLiked user lookup v = Ret tt v'
        /\ likeCount v' = likeCount v /\ effects v' = effects v
        /\ (forall r, loggedInId user <> None -> lookup = Settled r ->
              likeErrorCode r = None
              \/ likeErrorCode r = Some "PGRST116"%string ->
              isLiked v' = likeRow r)
        /\ (loggedInId user = None
            \/ (exists e, lookup = Raised e)
            \/ (exists r code, lookup = Settled r
                               /\ likeErrorCode r = Some code
                               /\ code <> "PGRST116"%string) ->
            v' = v)).
Proof.
  split.
  - unfold fetchLikeCount.
    destruct countResp as [[c [ce |]] | ce]; destruct hasOnUpdate;
      (eexists; split; [reflexivity |]); simpl;
      (split; [done |]);
      (split; [intros c' Hc He; inversion Hc; subst; done |]);
      intros Hfail; first [ done | by destruct (Hfail _ eq_refl) ].
  - unfold checkIfLiked.
    destruct (loggedInId user) as [uid |].
    2:{ eexists. split; [reflexivity |]. split_and!; done. }
    destruct lookup as [[row [code |]] | le]; simpl;
      [destruct (bool_decide (code = "PGRST116"%string)) eqn:Hcode;
         [apply bool_decide_eq_true in Hcode
         | apply bool_decide_eq_false in Hcode] | |];
      (eexists; split; [reflexivity |]); simpl;
      (split; [done |]); (split; [done |]);
      (split;
         [intros r _ Hr Hc; inversion Hr; subst r; simpl in Hc;
          first [ done | destruct Hc as [Hc | Hc]; inversion Hc; done ]
         |]);
      intros [H | [(e & H) | (r & c & H & Hc & Hne)]];
      first [ done | discriminate H
            | inversion H; subst r; simpl in Hc; inversion Hc; subst c; done ].
Qed.

End LikeButtonReads.
